(** * Lazy TikTok embeds: the four hydration scripts of the microsite

    The repository carries the same poster-to-iframe logic four times:
    - [Part002]: class [TikTokEmbed] and [setupLazyLoading] (src/unnamed/part_002);
    - [Part000]: class [TikTokEmbed] and [setupTikTokEmbeds] (src/unnamed/part_000);
    - [Inline]:  the [#tiktok-card] script of src/app.js, lines 1048-1097;
    - [Cards]:   [buildIframe], [hydrateTikTok], [initTikTok] of src/app.js.

    Strings are byte strings (the UTF-8 encoding of the JavaScript string).
    The DOM is a forest of element nodes; iframe elements, the only nodes the
    scripts keep references to across calls, live in a store and the forest
    refers to them by index.  Listeners are kept as first-order tags and run
    by the event dispatcher of each script. *)

From Stdlib Require Import Ascii.
From stdpp Require Import base list gmap strings pretty.
Open Scope string_scope.
#[local] Arguments String.append !_ _ : simpl nomatch.

(** ** JavaScript strings *)

Module Js.

(** [s.split(sep)] for a one-character separator; never the empty array. *)
Fixpoint split (sep : ascii) (s : string) : list string :=
  match s with
  | EmptyString => [EmptyString]
  | String c r =>
      if Ascii.eqb c sep then EmptyString :: split sep r
      else match split sep r with
           | h :: t => String c h :: t
           | [] => [String c EmptyString]
           end
  end.

(** Truthiness of a string-valued attribute: [undefined] and [''] are falsy. *)
Definition truthy (v : option string) : bool :=
  match v with
  | Some (String _ _) => true
  | _ => false
  end.

(** [v || d] *)
Definition or_else (v : option string) (d : string) : string :=
  match v with
  | Some (String c r) => String c r
  | _ => d
  end.

(** [`${v}`] inside a template literal *)
Definition interpolate (v : option string) : string := default "undefined" v.

Definition is_digit (c : ascii) : bool :=
  (48 <=? nat_of_ascii c)%nat && (nat_of_ascii c <=? 57)%nat.

Definition is_alpha (c : ascii) : bool :=
  ((65 <=? nat_of_ascii c)%nat && (nat_of_ascii c <=? 90)%nat)
  || ((97 <=? nat_of_ascii c)%nat && (nat_of_ascii c <=? 122)%nat).

Fixpoint all_chars (p : ascii -> bool) (s : string) : bool :=
  match s with
  | EmptyString => true
  | String c r => p c && all_chars p r
  end.

Definition is_empty (s : string) : bool :=
  match s with
  | EmptyString => true
  | String _ _ => false
  end.

(** [s] starts with [p]: the rest of [s] *)
Fixpoint strip_prefix (p s : string) : option string :=
  match p, s with
  | EmptyString, _ => Some s
  | String a p', String b s' => if Ascii.eqb a b then strip_prefix p' s' else None
  | String _ _, EmptyString => None
  end.

(** the longest run of decimal digits at the head of [s]: the greedy [\d+] *)
Fixpoint take_digits (s : string) : string :=
  match s with
  | String c r => if is_digit c then String c (take_digits r) else EmptyString
  | EmptyString => EmptyString
  end.

(** [(s.match(/video\/(\d+)/) || [])[1]]: the capture of the leftmost match,
    [None] for [undefined]. *)
Fixpoint match_video (s : string) : option string :=
  match s with
  | EmptyString => None
  | String _ r =>
      match strip_prefix "video/" s with
      | Some rest =>
          match take_digits rest with
          | EmptyString => match_video r
          | d => Some d
          end
      | None => match_video r
      end
  end.

(** the URL holds [video/] followed by a run of digits: the pattern
    [/video\/(\d+)/] that src/app.js expects of a source URL *)
Definition contains_video_id (url : string) : Prop :=
  exists pre d rest, url = pre ++ "video/" ++ d ++ rest
                     /\ d <> EmptyString /\ all_chars is_digit d = true.

(** [url.split('/').pop().split('?')[0]], the extraction of both
    [TikTokEmbed.load] methods.  [split] never returns the empty array, so
    neither [pop()] nor [[0]] is [undefined]. *)
Definition extractVideoId (url : string) : string :=
  match last (split "/" url) with
  | Some seg =>
      match split "?" seg with
      | h :: _ => h
      | [] => EmptyString
      end
  | None => EmptyString
  end.

(** the last ['/']-separated segment of a URL *)
Definition last_segment (url : string) : string :=
  default EmptyString (last (split "/" url)).

(** A string that the HTML parser reads back unchanged as an attribute
    value written between double quotes: it holds no double quote, which
    ends the value, no [&], which may start a character reference, and
    neither NUL nor a carriage return, which the parser replaces. *)
Definition plain (s : string) : bool :=
  all_chars (fun c => negb (existsb (Nat.eqb (nat_of_ascii c)) [0; 13; 34; 38])) s.

(** [s] between double quotes, as the templates write an attribute value *)
Definition quoted (s : string) : string :=
  String (ascii_of_nat 34) (s ++ String (ascii_of_nat 34) EmptyString).

(** the lines of a template literal, joined by its line feeds *)
Fixpoint lines (l : list string) : string :=
  match l with
  | [] => EmptyString
  | [x] => x
  | x :: r => x ++ String (ascii_of_nat 10) (lines r)
  end.

(** A call either returns or throws; either way the state keeps the writes
    made so far. *)
Inductive outcome (S : Type) :=
| Done (s : S)
| Thrown (err : string) (s : S).
Arguments Done {S} s.
Arguments Thrown {S} err s.

Definition state_of {S : Type} (o : outcome S) : S :=
  match o with
  | Done s => s
  | Thrown _ s => s
  end.

End Js.

(** ** The URL API, as far as [load] uses it

    [new URL(`https://www.tiktok.com/embed/v2/${videoId}`)], five
    [searchParams.set] calls and [toString()].  The parser is the WHATWG one
    for a special scheme, applied to an identifier that holds neither ['/']
    nor ['?'] (see [extractVideoId_clean]): trailing C0 controls and spaces are
    stripped, tabs and newlines removed, ['#'] starts the fragment, a
    backslash separates path segments, dot segments are resolved and the
    remaining bytes are percent-encoded. *)

Module Url.

Record URL := mkURL {
  origin : string;
  pathname : list string;
  searchParams : list (string * string);
  hash : option string
}.

Definition hex_digit (n : nat) : ascii :=
  default "0"%char (String.get n "0123456789ABCDEF").

Definition percent_encode_byte (c : ascii) : string :=
  let n := nat_of_ascii c in
  String "%" (String (hex_digit (n / 16)) (String (hex_digit (n mod 16)) EmptyString)).

Definition code_in (c : ascii) (l : list nat) : bool :=
  existsb (Nat.eqb (nat_of_ascii c)) l.

Definition c0_control_set (c : ascii) : bool :=
  (nat_of_ascii c <? 32)%nat || (126 <? nat_of_ascii c)%nat.

(** space, double quote, [<], [>], backquote *)
Definition fragment_set (c : ascii) : bool :=
  c0_control_set c || code_in c [32; 34; 60; 62; 96].

(** space, double quote, [#], [<], [>] *)
Definition query_set (c : ascii) : bool :=
  c0_control_set c || code_in c [32; 34; 35; 60; 62].

(** the query set and [?], [^], backquote, [{], [}] *)
Definition path_set (c : ascii) : bool :=
  query_set c || code_in c [63; 94; 96; 123; 125].

(** the application/x-www-form-urlencoded set keeps alphanumerics and [*-._] *)
Definition urlencoded_keep (c : ascii) : bool :=
  Js.is_digit c || Js.is_alpha c || code_in c [42; 45; 46; 95].

Fixpoint percent_encode (set : ascii -> bool) (s : string) : string :=
  match s with
  | EmptyString => EmptyString
  | String c r =>
      (if set c then percent_encode_byte c else String c EmptyString)
        ++ percent_encode set r
  end.

Fixpoint urlencode (s : string) : string :=
  match s with
  | EmptyString => EmptyString
  | String c r =>
      (if urlencoded_keep c then String c EmptyString
       else if Nat.eqb (nat_of_ascii c) 32 then "+"
       else percent_encode_byte c) ++ urlencode r
  end.

Fixpoint strip_trailing_c0_space (s : string) : string :=
  match s with
  | EmptyString => EmptyString
  | String c r =>
      match strip_trailing_c0_space r with
      | EmptyString => if (nat_of_ascii c <=? 32)%nat then EmptyString else String c EmptyString
      | r' => String c r'
      end
  end.

Fixpoint remove_tab_newline (s : string) : string :=
  match s with
  | EmptyString => EmptyString
  | String c r =>
      if code_in c [9; 10; 13] then remove_tab_newline r
      else String c (remove_tab_newline r)
  end.

(** the text before the first ['#'] and, when there is one, the text after it *)
Fixpoint cut_fragment (s : string) : string * option string :=
  match s with
  | EmptyString => (EmptyString, None)
  | String c r =>
      if Ascii.eqb c "#" then (EmptyString, Some r)
      else let '(p, f) := cut_fragment r in (String c p, f)
  end.

Definition single_dot (seg : string) : bool :=
  bool_decide (seg ∈ ["."; "%2e"; "%2E"]).

Definition double_dot (seg : string) : bool :=
  bool_decide (seg ∈ [".."; ".%2e"; ".%2E"; "%2e."; "%2E.";
                      "%2e%2e"; "%2e%2E"; "%2E%2e"; "%2E%2E"]).

Definition shorten (path : list string) : list string := removelast path.

(** the path state: every segment but the last is closed by a separator,
    the last one by the end of the path *)
Fixpoint walk (segs : list string) (path : list string) : list string :=
  match segs with
  | [] => path
  | [s] =>
      if double_dot s then shorten path ++ [EmptyString]
      else if single_dot s then path ++ [EmptyString]
      else path ++ [s]
  | s :: rest =>
      walk rest (if double_dot s then shorten path
                 else if single_dot s then path
                 else path ++ [s])
  end.

(** letters, digits, [-] and [_]: bytes the parser copies unchanged *)
Definition unreserved (c : ascii) : bool :=
  Js.is_digit c || Js.is_alpha c || code_in c [45; 95].

(** [new URL(`https://www.tiktok.com/embed/v2/${videoId}`)] *)
Definition embed_v2 (videoId : string) : URL :=
  let input := remove_tab_newline (strip_trailing_c0_space videoId) in
  let '(p, f) := cut_fragment input in
  {| origin := "https://www.tiktok.com";
     pathname := walk (map (percent_encode path_set) (Js.split "\" p)) ["embed"; "v2"];
     searchParams := [];
     hash := percent_encode fragment_set <$> f |}.

(** [url.searchParams.set(name, value)]: the first pair of that name takes
    the value and later ones go; a new name is appended. *)
Fixpoint set_param (name value : string) (l : list (string * string))
  : list (string * string) :=
  match l with
  | [] => [(name, value)]
  | (k, v) :: r =>
      if String.eqb k name
      then (k, value) :: filter (fun kv => negb (String.eqb (fst kv) name)) r
      else (k, v) :: set_param name value r
  end.

Definition searchParams_set (name value : string) (u : URL) : URL :=
  {| origin := origin u; pathname := pathname u;
     searchParams := set_param name value (searchParams u);
     hash := hash u |}.

Fixpoint serialize_params (l : list (string * string)) : string :=
  match l with
  | [] => EmptyString
  | [(k, v)] => urlencode k ++ "=" ++ urlencode v
  | (k, v) :: r => urlencode k ++ "=" ++ urlencode v ++ "&" ++ serialize_params r
  end.

Fixpoint serialize_path (path : list string) : string :=
  match path with
  | [] => EmptyString
  | s :: r => "/" ++ s ++ serialize_path r
  end.

(** [url.toString()] *)
Definition toString (u : URL) : string :=
  origin u ++ serialize_path (pathname u)
    ++ (match searchParams u with
        | [] => EmptyString
        | l => "?" ++ serialize_params l
        end)
    ++ (match hash u with
        | Some f => "#" ++ f
        | None => EmptyString
        end).

End Url.

(** ** The document *)

Module Dom.

Inductive Listener :=
| ClickLoad (embed : nat)      (** [TikTokEmbed.init]: click runs [this.load()] *)
| ClickHydrate (card : nat).   (** [initTikTok]: click runs [hydrateTikTok(card)] *)

Record Attrs := mkAttrs {
  tag : string;
  classes : list string;
  attrs : list (string * string);
  on_click : list Listener
}.

#[warnings="-register-all"]
Inductive Node :=
| Elem (a : Attrs) (kids : list Node)
| Text (s : string)
| FrameRef (f : nat).

(** [el.setAttribute(name, value)] and the reflecting properties *)
Fixpoint set_assoc (name value : string) (l : list (string * string))
  : list (string * string) :=
  match l with
  | [] => [(name, value)]
  | (k, v) :: r =>
      if String.eqb k name then (k, value) :: r
      else (k, v) :: set_assoc name value r
  end.

Definition remove_assoc (name : string) (l : list (string * string))
  : list (string * string) :=
  filter (fun kv => negb (String.eqb (fst kv) name)) l.

Fixpoint get_assoc (name : string) (l : list (string * string)) : option string :=
  match l with
  | [] => None
  | (k, v) :: r => if String.eqb k name then Some v else get_assoc name r
  end.

Definition map_attrs (g : Attrs -> Attrs) (n : Node) : Node :=
  match n with
  | Elem a kids => Elem (g a) kids
  | other => other
  end.

Definition with_attr (name value : string) (a : Attrs) : Attrs :=
  {| tag := tag a; classes := classes a;
     attrs := set_assoc name value (attrs a); on_click := on_click a |}.

Definition without_attr (name : string) (a : Attrs) : Attrs :=
  {| tag := tag a; classes := classes a;
     attrs := remove_assoc name (attrs a); on_click := on_click a |}.

(** [el.addEventListener('click', l)] *)
Definition with_click (l : Listener) (a : Attrs) : Attrs :=
  {| tag := tag a; classes := classes a; attrs := attrs a;
     on_click := on_click a ++ [l] |}.

(** [el.appendChild(k)] *)
Definition append_child (k : Node) (n : Node) : Node :=
  match n with
  | Elem a kids => Elem a (kids ++ [k])
  | other => other
  end.

(** [el.innerHTML = markup], with the markup given as the forest it denotes *)
Definition set_children (new : list Node) (n : Node) : Node :=
  match n with
  | Elem a _ => Elem a new
  | other => other
  end.

Definition has_class (cls : string) (n : Node) : bool :=
  match n with
  | Elem a _ => bool_decide (cls ∈ classes a)
  | _ => false
  end.

Fixpoint first_some {A B : Type} (f : A -> option B) (l : list A) : option B :=
  match l with
  | [] => None
  | x :: r =>
      match f x with
      | Some y => Some y
      | None => first_some f r
      end
  end.

Fixpoint update_first {A : Type} (f : A -> option A) (l : list A) : option (list A) :=
  match l with
  | [] => None
  | x :: r =>
      match f x with
      | Some y => Some (y :: r)
      | None => cons x <$> update_first f r
      end
  end.

(** the first element of class [cls] among [n] and its descendants, in
    document order *)
Fixpoint query_node (cls : string) (n : Node) : option Node :=
  match n with
  | Elem a kids =>
      if bool_decide (cls ∈ classes a) then Some n
      else first_some (query_node cls) kids
  | _ => None
  end.

(** [el.querySelector('.' + cls)] over the children of [el] *)
Definition query (cls : string) (forest : list Node) : option Node :=
  first_some (query_node cls) forest.

(** a mutation through the reference [querySelector] returned: [f] applied
    in place to the first element of class [cls] *)
Fixpoint update_node (cls : string) (f : Node -> Node) (n : Node) : option Node :=
  match n with
  | Elem a kids =>
      if bool_decide (cls ∈ classes a) then Some (f n)
      else Elem a <$> update_first (update_node cls f) kids
  | _ => None
  end.

Definition update (cls : string) (f : Node -> Node) (forest : list Node) : list Node :=
  default forest (update_first (update_node cls f) forest).

(** the iframe elements below a node, in document order *)
Fixpoint frames_node (n : Node) : list nat :=
  match n with
  | Elem _ kids => concat (map frames_node kids)
  | Text _ => []
  | FrameRef f => [f]
  end.

Definition frames_in (forest : list Node) : list nat :=
  concat (map frames_node forest).

(** the targets of the links ([a] elements with an [href]) below a node *)
Fixpoint hrefs_node (n : Node) : list string :=
  match n with
  | Elem a kids =>
      (if String.eqb (tag a) "a"
       then match get_assoc "href" (attrs a) with Some h => [h] | None => [] end
       else [])
      ++ concat (map hrefs_node kids)
  | _ => []
  end.

Definition hrefs_in (forest : list Node) : list string :=
  concat (map hrefs_node forest).

(** the text below a node *)
Fixpoint text_node (n : Node) : list string :=
  match n with
  | Elem _ kids => concat (map text_node kids)
  | Text s => [s]
  | FrameRef _ => []
  end.

Definition text_in (forest : list Node) : list string :=
  concat (map text_node forest).

(** [h] gathers something from every node of a tree: what an element
    gives itself, then what its children give *)
Definition collector {B : Type} (h : Node -> list B) : Prop :=
  exists h0 : Attrs -> list B,
    forall a kids, h (Elem a kids) = (h0 a ++ concat (map h kids))%list.

(** [after] is [before] with the share of node [m] replaced by that of [f m] *)
Definition swapped {B : Type} (f : Node -> Node) (m : Node) (h : Node -> list B)
    (before after : list B) : Prop :=
  exists l1 l2, before = (l1 ++ h m ++ l2)%list /\ after = (l1 ++ h (f m) ++ l2)%list.

Definition elem (t : string) (cls : list string) (at_ : list (string * string))
    (kids : list Node) : Node :=
  Elem {| tag := t; classes := cls; attrs := at_; on_click := [] |} kids.

(** An iframe element: the properties the scripts assign, and the listeners
    they register on it. *)
Inductive FrameListener :=
| ErrorOnce (embed : nat) (videoId : string)   (** part_002: warn, [handleLoadError], track *)
| LoadOnce (embed : nat) (videoId : string)    (** part_002: track [video_loaded] *)
| ErrorOnce0 (embed : nat) (videoId : string)  (** part_000: warn, [handleLoadError] *)
| OnErrorInline.                               (** app.js inline script: [iframe.onerror] *)

Record Iframe := mkIframe {
  src : string;
  title : string;
  sandbox : string;
  referrerPolicy : string;
  scrolling : string;
  allow : string;
  allowFullscreen : bool;
  loading : string;
  on_error : list FrameListener;
  on_load : list FrameListener
}.

Definition with_src (s : string) (i : Iframe) : Iframe :=
  {| src := s; title := title i; sandbox := sandbox i;
     referrerPolicy := referrerPolicy i; scrolling := scrolling i;
     allow := allow i; allowFullscreen := allowFullscreen i;
     loading := loading i; on_error := on_error i; on_load := on_load i |}.

Definition with_on_error (l : list FrameListener) (i : Iframe) : Iframe :=
  {| src := src i; title := title i; sandbox := sandbox i;
     referrerPolicy := referrerPolicy i; scrolling := scrolling i;
     allow := allow i; allowFullscreen := allowFullscreen i;
     loading := loading i; on_error := l; on_load := on_load i |}.

Definition with_on_load (l : list FrameListener) (i : Iframe) : Iframe :=
  {| src := src i; title := title i; sandbox := sandbox i;
     referrerPolicy := referrerPolicy i; scrolling := scrolling i;
     allow := allow i; allowFullscreen := allowFullscreen i;
     loading := loading i; on_error := on_error i; on_load := l |}.

(** What the HTML parser builds from a string assigned to [innerHTML]: the
    forest of nodes, and the iframe elements it created for it, in document
    order.  [FrameRef k] in the forest is the [k]-th of them. *)
Record Fragment := mkFragment {
  forest : list Node;
  made : list Iframe
}.

(** a node of a fragment, once the iframe elements of the fragment follow
    the [base] elements that were in the store *)
Fixpoint shift (base : nat) (n : Node) : Node :=
  match n with
  | Elem a kids => Elem a (map (shift base) kids)
  | Text s => Text s
  | FrameRef f => FrameRef (base + f)
  end.

(** the forest of a fragment as it becomes the children of the element
    whose [innerHTML] was set, the store holding [base] iframe elements
    before those of the fragment *)
Definition placed (base : nat) (fr : Fragment) : list Node :=
  shift base <$> forest fr.

(** [data-*] attributes of a [.ttk] container *)
Record Dataset := mkDataset {
  tiktokUrl : option string;
  data_title : option string;
  poster : option string
}.

(** The [.press-card] around a container, seen through
    [closest('.press-card').querySelector('.press-link')]: the [style.display]
    of its first [.press-link], which lies outside the container. *)
Record PressCard := mkPressCard {
  press_link : option string
}.

(** A [.ttk] element. *)
Record Container := mkContainer {
  dataset : Dataset;
  children : list Node;
  press_card : option PressCard;
  tiktokEmbed : option nat      (** the [__tiktokEmbed] expando *)
}.

Definition with_children (k : list Node) (c : Container) : Container :=
  {| dataset := dataset c; children := k; press_card := press_card c;
     tiktokEmbed := tiktokEmbed c |}.

Definition with_press_card (pc : option PressCard) (c : Container) : Container :=
  {| dataset := dataset c; children := children c; press_card := pc;
     tiktokEmbed := tiktokEmbed c |}.

Definition with_tiktokEmbed (e : option nat) (c : Container) : Container :=
  {| dataset := dataset c; children := children c; press_card := press_card c;
     tiktokEmbed := e |}.

(** What the scripts write to the console and hand to analytics. *)
Inductive LogEntry :=
| Warn (msg arg : string)
| Log (msg : string)
| Track (event : string) (videoId : option string).

End Dom.

(** ** The page of the class-based scripts

    Both files declare [TikTokEmbed] with the same six fields, so the two
    models share the object and page types. *)

Module Page.
Import Dom.
Export Js(Done, Thrown).

(** The fields [this.*] of a [TikTokEmbed] object. *)
Record TikTokEmbed := mkEmbed {
  container : nat;
  url : option string;
  title : string;
  posterSrc : option string;
  isLoaded : bool;
  iframe : option nat
}.

Definition with_isLoaded (b : bool) (e : TikTokEmbed) : TikTokEmbed :=
  {| container := container e; url := url e; title := title e;
     posterSrc := posterSrc e; isLoaded := b; iframe := iframe e |}.

Definition with_iframe (f : option nat) (e : TikTokEmbed) : TikTokEmbed :=
  {| container := container e; url := url e; title := title e;
     posterSrc := posterSrc e; isLoaded := isLoaded e; iframe := f |}.

Record Page := mkPage {
  containers : list Container;   (** [document.querySelectorAll('.ttk')] *)
  embeds : list TikTokEmbed;       (** the objects [new TikTokEmbed] made, oldest first *)
  frames : list Iframe;            (** the iframe elements, in creation order *)
  console : list LogEntry;
  observed : list nat;             (** targets of the intersection observers *)
  timers : list nat;               (** pending [setTimeout(() => embed.load(), 1000)] *)
  parse_html : string -> Fragment  (** the HTML parser behind the [innerHTML] setter *)
}.

Definition with_containers (x : list Container) (p : Page) : Page :=
  {| containers := x; embeds := embeds p; frames := frames p;
     console := console p; observed := observed p; timers := timers p;
     parse_html := parse_html p |}.

Definition with_embeds (x : list TikTokEmbed) (p : Page) : Page :=
  {| containers := containers p; embeds := x; frames := frames p;
     console := console p; observed := observed p; timers := timers p;
     parse_html := parse_html p |}.

Definition with_frames (x : list Iframe) (p : Page) : Page :=
  {| containers := containers p; embeds := embeds p; frames := x;
     console := console p; observed := observed p; timers := timers p;
     parse_html := parse_html p |}.

Definition with_console (x : list LogEntry) (p : Page) : Page :=
  {| containers := containers p; embeds := embeds p; frames := frames p;
     console := x; observed := observed p; timers := timers p;
     parse_html := parse_html p |}.

Definition with_observed (x : list nat) (p : Page) : Page :=
  {| containers := containers p; embeds := embeds p; frames := frames p;
     console := console p; observed := x; timers := timers p;
     parse_html := parse_html p |}.

Definition with_timers (x : list nat) (p : Page) : Page :=
  {| containers := containers p; embeds := embeds p; frames := frames p;
     console := console p; observed := observed p; timers := x;
     parse_html := parse_html p |}.

Definition log (entry : LogEntry) (p : Page) : Page :=
  with_console (console p ++ [entry]) p.

Definition outcome : Type := Js.outcome Page.
Definition page_of (o : outcome) : Page := Js.state_of o.

(** the iframe elements inside container [c] *)
Definition frames_of (c : nat) (p : Page) : list nat :=
  from_option (fun C => frames_in (children C)) [] (containers p !! c).

(** A page as the browser hands it to the scripts: markup only. *)
Definition pristine (p : Page) : Prop :=
  embeds p = [] /\ frames p = [] /\ observed p = [] /\ timers p = []
  /\ Forall (fun C => tiktokEmbed C = None /\ frames_in (children C) = []) (containers p).

(** [q] is [p] after [new TikTokEmbed] ran on its first [k] containers and
    nothing was loaded: one object per container, in order, reading the
    container's [data-tiktok-url]. *)
Definition built (k : nat) (p q : Page) : Prop :=
  length (containers q) = length (containers p)
  /\ (forall c, (dataset <$> containers q !! c) = (dataset <$> containers p !! c))
  /\ length (embeds q) = k
  /\ (forall c C, c < k -> containers p !! c = Some C ->
        exists E, embeds q !! c = Some E /\ container E = c
                  /\ url E = tiktokUrl (dataset C) /\ isLoaded E = false)
  /\ frames q = frames p.

(** object [e] belongs to container [c] and is hydrated *)
Definition hydrated_at (e c : nat) (p : Page) : Prop :=
  exists E, embeds p !! e = Some E /\ container E = c /\ isLoaded E = true.

(** object [e] belongs to container [c] and has source URL [u] *)
Definition loadable (e c : nat) (u : string) (p : Page) : Prop :=
  exists E, embeds p !! e = Some E /\ container E = c /\ url E = Some u.

End Page.

(** ** src/unnamed/part_002 *)

Module Part002.
Import Dom Page.

Definition OBSERVER_ROOT_MARGIN : string := "50px 0px".
Definition AUTOPLAY : bool := true.
Definition MUTED : bool := true.
Definition CONTROLS : nat := 1.
Definition REL : nat := 0.
Definition LOOP : nat := 0.

(** feature detection *)
Record Env := mkEnv {
  SUPPORTS_INTERSECTION_OBSERVER : bool;
  PREFERS_REDUCED_MOTION : bool
}.

(** [trackEvent(eventName, data)]; the sinks ([gtag], [analyticsQueue], the
    console on localhost) are folded into one log. *)
Definition trackEvent (eventName : string) (videoId : option string) (p : Page) : Page :=
  log (Track eventName videoId) p.

(** [init()] *)
Definition init (e : nat) (p : Page) : Page :=
  match embeds p !! e with
  | None => p
  | Some E =>
      match containers p !! container E with
      | None => p
      | Some C =>
          let k1 :=
            if Js.truthy (posterSrc E)
            then update "ttk__poster-img"
                   (map_attrs (with_attr "src" (Js.interpolate (posterSrc E))))
                   (children C)
            else children C in
          let k2 := update "ttk__poster" (map_attrs (with_click (ClickLoad e))) k1 in
          with_containers (<[container E := with_children k2 C]> (containers p)) p
      end
  end.

(** [new TikTokEmbed(container)]: the new object and the page after [init()] *)
Definition construct (c : nat) (p : Page) : nat * Page :=
  match containers p !! c with
  | None => (length (embeds p), p)
  | Some C =>
      let e := length (embeds p) in
      let E := {| container := c;
                  url := tiktokUrl (dataset C);
                  title := Js.or_else (data_title (dataset C)) "TikTok video";
                  posterSrc := poster (dataset C);
                  isLoaded := false;
                  iframe := None |} in
      (e, init e (with_embeds (embeds p ++ [E]) p))
  end.

Definition embedUrl (videoId : string) : Url.URL :=
  Url.searchParams_set "loop" (pretty LOOP)
    (Url.searchParams_set "rel" (pretty REL)
      (Url.searchParams_set "controls" (pretty CONTROLS)
        (Url.searchParams_set "muted" (if MUTED then "1" else "0")
          (Url.searchParams_set "autoplay" (if AUTOPLAY then "1" else "0")
            (Url.embed_v2 videoId))))).

(** the iframe [load()] builds *)
Definition new_iframe (e : nat) (E : TikTokEmbed) (videoId : string) : Iframe :=
  {| src := Url.toString (embedUrl videoId);
     Dom.title := title E;
     sandbox := "allow-scripts allow-same-origin allow-presentation";
     referrerPolicy := "no-referrer-when-downgrade";
     scrolling := "no";
     allow := "fullscreen";
     allowFullscreen := true;
     loading := "";
     on_error := [ErrorOnce e videoId];
     on_load := [LoadOnce e videoId] |}.

Definition frameWrapper (f : nat) : Node :=
  elem "div" ["ttk__frame"] [] [FrameRef f].

(** [load()] *)
Definition load (e : nat) (p : Page) : outcome :=
  match embeds p !! e with
  | None => Done p
  | Some E =>
      if isLoaded E then Done p
      else
        match url E with
        | None => Thrown "TypeError: this.url is undefined" p
        | Some u =>
            let videoId := Js.extractVideoId u in
            if Js.is_empty videoId
            then Done (log (Warn "Invalid TikTok URL:" u) p)
            else
              let f := length (frames p) in
              let p1 := with_frames (frames p ++ [new_iframe e E videoId]) p in
              let p2 := with_containers
                          (alter (with_children [frameWrapper f]) (container E)
                                 (containers p1)) p1 in
              Done (with_embeds
                      (<[e := with_isLoaded true (with_iframe (Some f) E)]> (embeds p2)) p2)
        end
  end.

(** the template literal [unload()] assigns to [innerHTML] *)
Definition poster_template (E : TikTokEmbed) : string :=
  Js.lines
    [EmptyString;
     "        <button class=" ++ Js.quoted "ttk__poster"
       ++ " type=" ++ Js.quoted "button"
       ++ " aria-label=" ++ Js.quoted ("Play TikTok video: " ++ title E) ++ ">";
     "          <img class=" ++ Js.quoted "ttk__poster-img"
       ++ " src=" ++ Js.quoted (Js.interpolate (posterSrc E))
       ++ " alt=" ++ Js.quoted ("TikTok video preview: " ++ title E)
       ++ " loading=" ++ Js.quoted "lazy"
       ++ " decoding=" ++ Js.quoted "async" ++ ">";
     "          <span class=" ++ Js.quoted "ttk__play"
       ++ " aria-hidden=" ++ Js.quoted "true" ++ ">▶</span>";
     "        </button>";
     "      "].

(** the elements of that template when the title and the poster source fill
    their attributes as they are; white-space text nodes are left out *)
Definition poster_nodes (E : TikTokEmbed) : list Node :=
  [elem "button" ["ttk__poster"]
     [("type", "button");
      ("aria-label", "Play TikTok video: " ++ title E)]
     [elem "img" ["ttk__poster-img"]
        [("src", Js.interpolate (posterSrc E));
         ("alt", "TikTok video preview: " ++ title E);
         ("loading", "lazy"); ("decoding", "async")] [];
      elem "span" ["ttk__play"] [("aria-hidden", "true")] [Text "▶"]]].

(** The markup [unload()] writes back, as the parser reads it.  The title
    and the poster source stand between double quotes: plain strings are the
    values of their attributes, and no iframe element comes of the template.
    A string that is not plain is read as part of the markup, by the parser
    of the page. *)
Definition poster_markup (p : Page) (E : TikTokEmbed) : Fragment :=
  if Js.plain (title E) && Js.plain (Js.interpolate (posterSrc E))
  then {| forest := poster_nodes E; made := [] |}
  else parse_html p (poster_template E).

(** [unload()] *)
Definition unload (e : nat) (p : Page) : outcome :=
  match embeds p !! e with
  | None => Done p
  | Some E =>
      if negb (isLoaded E) then Done p
      else
        let p1 :=
          match iframe E with
          | Some f => with_frames (alter (with_src "") f (frames p)) p
          | None => p
          end in
        let fr := poster_markup p1 E in
        let p2 := with_containers
                    (alter (with_children (placed (length (frames p1)) fr))
                           (container E) (containers p1))
                    (with_frames (frames p1 ++ made fr) p1) in
        let p3 := with_embeds
                    (<[e := with_isLoaded false (with_iframe None E)]> (embeds p2)) p2 in
        Done (init e p3)
  end.

(** the store once [unload()] has cleared the source of the live iframe *)
Definition cleared (E : TikTokEmbed) (p : Page) : list Iframe :=
  match iframe E with
  | Some f => alter (with_src "") f (frames p)
  | None => frames p
  end.

(** the template literal [handleLoadError()] assigns to [errorMsg.innerHTML] *)
Definition error_template (E : TikTokEmbed) : string :=
  Js.lines
    [EmptyString;
     "        <p>Video unavailable</p>";
     "        <a href=" ++ Js.quoted (Js.interpolate (url E))
       ++ " target=" ++ Js.quoted "_blank"
       ++ " rel=" ++ Js.quoted "noopener" ++ ">Watch on TikTok →</a>";
     "      "].

(** the elements of that template when the URL is the value of [href] as it
    is; white-space text nodes are left out *)
Definition error_nodes (E : TikTokEmbed) : list Node :=
  [elem "p" [] [] [Text "Video unavailable"];
   elem "a" [] [("href", Js.interpolate (url E)); ("target", "_blank");
                ("rel", "noopener")]
     [Text "Watch on TikTok →"]].

(** The markup of the error message, as the parser reads it: a plain URL is
    the value of [href]; a URL that is not plain is read as part of the
    markup, by the parser of the page. *)
Definition error_markup (p : Page) (E : TikTokEmbed) : Fragment :=
  if Js.plain (Js.interpolate (url E))
  then {| forest := error_nodes E; made := [] |}
  else parse_html p (error_template E).

(** the [div.ttk__error] that [handleLoadError()] creates, with its content *)
Definition errorMsg (kids : list Node) : Node :=
  elem "div" ["ttk__error"] [] kids.

(** [handleLoadError()]; [closest('.press-card')] is dereferenced unchecked *)
Definition handleLoadError (e : nat) (p : Page) : outcome :=
  match embeds p !! e with
  | None => Done p
  | Some E =>
      match containers p !! container E with
      | None => Done p
      | Some C =>
          match press_card C with
          | None => Thrown "TypeError: closest(...) is null" p
          | Some pc =>
              let pc' := {| press_link := (fun _ => "block") <$> press_link pc |} in
              let fr := error_markup p E in
              Done (with_containers
                      (<[container E :=
                           with_children [errorMsg (placed (length (frames p)) fr)]
                             (with_press_card (Some pc') C)]> (containers p))
                      (with_frames (frames p ++ made fr) p))
          end
      end
  end.

(** What happens on the page after the script has run. *)
Inductive Event :=
| Click (c : nat)                         (** a click on the first [.ttk__poster] of container [c] *)
| Intersect (entries : list (nat * bool)) (** an observer callback: (target, [isIntersecting]) *)
| Timeout                                 (** the oldest pending timer fires *)
| FrameError (f : nat)                    (** [error] at iframe [f] *)
| FrameLoad (f : nat).                    (** [load] at iframe [f] *)

(** one click listener; an exception ends the listener, not the dispatch *)
Definition run_click (l : Listener) (p : Page) : Page :=
  match l with
  | ClickLoad e =>
      match load e p with
      | Done p' => trackEvent "video_play_clicked" None p'
      | Thrown _ p' => p'
      end
  | ClickHydrate _ => p
  end.

Definition click (c : nat) (p : Page) : Page :=
  match containers p !! c with
  | None => p
  | Some C =>
      match query "ttk__poster" (children C) with
      | Some (Elem a _) => foldl (fun q l => run_click l q) p (on_click a)
      | _ => p
      end
  end.

(** [entry.target.__tiktokEmbed] and the object it refers to *)
Definition embed_at (target : nat) (p : Page) : option (nat * TikTokEmbed) :=
  match containers p !! target with
  | Some C =>
      match tiktokEmbed C with
      | Some e =>
          match embeds p !! e with
          | Some E => Some (e, E)
          | None => None
          end
      | None => None
      end
  | None => None
  end.

(** the observer callback of [setupLazyLoading]: [entries.forEach(...)] *)
Fixpoint on_intersect (entries : list (nat * bool)) (p : Page) : outcome :=
  match entries with
  | [] => Done p
  | (target, isIntersecting) :: rest =>
      match embed_at target p with
      | None => Thrown "TypeError: embed is undefined" p
      | Some (e, E) =>
          if isIntersecting
          then
            if negb (isLoaded E)
            then match load e p with
                 | Done p' => on_intersect rest p'
                 | Thrown err p' => Thrown err p'
                 end
            else on_intersect rest p
          else on_intersect rest p
      end
  end.

(** the browser reports only targets that are being observed *)
Definition delivered (entries : list (nat * bool)) (p : Page) : list (nat * bool) :=
  filter (fun en => bool_decide (fst en ∈ observed p)) entries.

Definition run_frame_error (l : FrameListener) (p : Page) : Page :=
  match l with
  | ErrorOnce e videoId =>
      match handleLoadError e (log (Warn "TikTok embed failed to load:" videoId) p) with
      | Done p' => trackEvent "video_load_error" (Some videoId) p'
      | Thrown _ p' => p'
      end
  | _ => p
  end.

Definition run_frame_load (l : FrameListener) (p : Page) : Page :=
  match l with
  | LoadOnce e videoId => trackEvent "video_loaded" (Some videoId) p
  | _ => p
  end.

Definition step (ev : Event) (p : Page) : Page :=
  match ev with
  | Click c => click c p
  | Intersect entries => page_of (on_intersect (delivered entries p) p)
  | Timeout =>
      match timers p with
      | [] => p
      | e :: rest => page_of (load e (with_timers rest p))
      end
  | FrameError f =>
      match frames p !! f with
      | None => p
      | Some i =>
          foldl (fun q l => run_frame_error l q)
                (with_frames (<[f := with_on_error [] i]> (frames p)) p)
                (on_error i)
      end
  | FrameLoad f =>
      match frames p !! f with
      | None => p
      | Some i =>
          foldl (fun q l => run_frame_load l q)
                (with_frames (<[f := with_on_load [] i]> (frames p)) p)
                (on_load i)
      end
  end.

Definition run (evs : list Event) (p : Page) : Page :=
  foldl (fun q ev => step ev q) p evs.

(** an event that is not an action of the user *)
Definition is_click (ev : Event) : bool :=
  match ev with
  | Click _ => true
  | _ => false
  end.

(** [setupLazyLoading()] *)
Definition setupLazyLoading (env : Env) (p : Page) : Page :=
  let targets := seq 0 (length (containers p)) in
  if bool_decide (targets = []) then p
  else if PREFERS_REDUCED_MOTION env
  then
    foldl (fun q c => snd (construct c q))
          (log (Log "Reduced motion preference detected, skipping auto-load") p)
          targets
  else if SUPPORTS_INTERSECTION_OBSERVER env
  then
    foldl (fun q c =>
             let '(e, q1) := construct c q in
             let q2 := with_containers
                         (alter (with_tiktokEmbed (Some e)) c (containers q1)) q1 in
             with_observed (observed q2 ++ [c]) q2)
          p targets
  else
    foldl (fun q c =>
             let '(e, q1) := construct c q in
             with_timers (timers q1 ++ [e]) q1)
          p targets.

(** Direct calls of the two methods. *)
Inductive Call :=
| CallLoad
| CallUnload.

Definition call (e : nat) (c : Call) (p : Page) : Page :=
  match c with
  | CallLoad => page_of (load e p)
  | CallUnload => page_of (unload e p)
  end.

Definition calls (e : nat) (cs : list Call) (p : Page) : Page :=
  foldl (fun q c => call e c q) p cs.

(** calls on any objects of the page, each given with its object *)
Definition calls_on (cs : list (nat * Call)) (p : Page) : Page :=
  foldl (fun q ec => call (fst ec) (snd ec) q) p cs.

(** no two objects of the page share a container *)
Definition one_object_each (p : Page) : Prop :=
  NoDup (container <$> embeds p).

(** the strings object [e] would write into the poster template are plain *)
Definition plain_poster (e : nat) (p : Page) : Prop :=
  exists E, embeds p !! e = Some E
    /\ Js.plain (title E) = true
    /\ Js.plain (Js.interpolate (posterSrc E)) = true.

(** Object [e] is hydrated, through an extractable identifier, and its
    container holds exactly the iframe it refers to, which is in the store;
    or it is not hydrated, refers to none and its container holds none. *)
Definition one_or_none (e : nat) (p : Page) : Prop :=
  exists E, embeds p !! e = Some E
    /\ container E < length (containers p)
    /\ if isLoaded E
       then exists f u, iframe E = Some f /\ frames_of (container E) p = [f]
                        /\ f < length (frames p)
                        /\ url E = Some u /\ Js.extractVideoId u <> EmptyString
       else iframe E = None /\ frames_of (container E) p = [].

End Part002.

(** ** src/unnamed/part_000 *)

Module Part000.
Import Dom Page.

Record Env := mkEnv {
  SUPPORTS_INTERSECTION_OBSERVER : bool;
  PREFERS_REDUCED_MOTION : bool
}.

(** [init()] *)
Definition init (e : nat) (p : Page) : Page :=
  match embeds p !! e with
  | None => p
  | Some E =>
      match containers p !! container E with
      | None => p
      | Some C =>
          let k1 :=
            if Js.truthy (posterSrc E)
            then update "ttk__poster-img"
                   (map_attrs (with_attr "src" (Js.interpolate (posterSrc E))))
                   (children C)
            else children C in
          let k2 := update "ttk__poster" (map_attrs (with_click (ClickLoad e))) k1 in
          with_containers (<[container E := with_children k2 C]> (containers p)) p
      end
  end.

(** [new TikTokEmbed(container)] *)
Definition construct (c : nat) (p : Page) : nat * Page :=
  match containers p !! c with
  | None => (length (embeds p), p)
  | Some C =>
      let e := length (embeds p) in
      let E := {| container := c;
                  url := tiktokUrl (dataset C);
                  title := Js.or_else (data_title (dataset C)) "TikTok video";
                  posterSrc := poster (dataset C);
                  isLoaded := false;
                  iframe := None |} in
      (e, init e (with_embeds (embeds p ++ [E]) p))
  end.

Definition embedUrl (videoId : string) : Url.URL :=
  Url.searchParams_set "muted" "1"
    (Url.searchParams_set "autoplay" "1" (Url.embed_v2 videoId)).

Definition new_iframe (e : nat) (E : TikTokEmbed) (videoId : string) : Iframe :=
  {| src := Url.toString (embedUrl videoId);
     Dom.title := title E;
     sandbox := "allow-scripts allow-same-origin allow-presentation";
     referrerPolicy := "no-referrer-when-downgrade";
     scrolling := "no";
     allow := "fullscreen";
     allowFullscreen := true;
     loading := "";
     on_error := [ErrorOnce0 e videoId];
     on_load := [] |}.

Definition frameWrapper (f : nat) : Node :=
  elem "div" ["ttk__frame"] [] [FrameRef f].

(** [load()] *)
Definition load (e : nat) (p : Page) : outcome :=
  match embeds p !! e with
  | None => Done p
  | Some E =>
      if isLoaded E then Done p
      else
        match url E with
        | None => Thrown "TypeError: this.url is undefined" p
        | Some u =>
            let videoId := Js.extractVideoId u in
            if Js.is_empty videoId
            then Done (log (Warn "Invalid TikTok URL:" u) p)
            else
              let f := length (frames p) in
              let p1 := with_frames (frames p ++ [new_iframe e E videoId]) p in
              let p2 := with_containers
                          (alter (with_children [frameWrapper f]) (container E)
                                 (containers p1)) p1 in
              Done (with_embeds
                      (<[e := with_isLoaded true (with_iframe (Some f) E)]> (embeds p2)) p2)
        end
  end.

(** the template literal [handleLoadError()] assigns to [errorMsg.innerHTML] *)
Definition error_template (E : TikTokEmbed) : string :=
  Js.lines
    [EmptyString;
     "      <p>Video unavailable</p>";
     "      <a href=" ++ Js.quoted (Js.interpolate (url E))
       ++ " target=" ++ Js.quoted "_blank"
       ++ " rel=" ++ Js.quoted "noopener" ++ ">Watch on TikTok →</a>";
     "    "].

(** the elements of that template when the URL is the value of [href] as it
    is; white-space text nodes are left out *)
Definition error_nodes (E : TikTokEmbed) : list Node :=
  [elem "p" [] [] [Text "Video unavailable"];
   elem "a" [] [("href", Js.interpolate (url E)); ("target", "_blank");
                ("rel", "noopener")]
     [Text "Watch on TikTok →"]].

(** The markup of the error message, as the parser reads it: a plain URL is
    the value of [href]; a URL that is not plain is read as part of the
    markup, by the parser of the page. *)
Definition error_markup (p : Page) (E : TikTokEmbed) : Fragment :=
  if Js.plain (Js.interpolate (url E))
  then {| forest := error_nodes E; made := [] |}
  else parse_html p (error_template E).

(** the [div.ttk__error] that [handleLoadError()] creates, with its content *)
Definition errorMsg (kids : list Node) : Node :=
  elem "div" ["ttk__error"] [] kids.

(** [handleLoadError()] *)
Definition handleLoadError (e : nat) (p : Page) : Page :=
  match embeds p !! e with
  | None => p
  | Some E =>
      let fr := error_markup p E in
      with_containers
        (alter (with_children [errorMsg (placed (length (frames p)) fr)])
               (container E) (containers p))
        (with_frames (frames p ++ made fr) p)
  end.

Inductive Event :=
| Click (c : nat)
| Intersect (entries : list (nat * bool))
| FrameError (f : nat).

Definition run_click (l : Listener) (p : Page) : Page :=
  match l with
  | ClickLoad e => page_of (load e p)
  | ClickHydrate _ => p
  end.

Definition click (c : nat) (p : Page) : Page :=
  match containers p !! c with
  | None => p
  | Some C =>
      match query "ttk__poster" (children C) with
      | Some (Elem a _) => foldl (fun q l => run_click l q) p (on_click a)
      | _ => p
      end
  end.

(** the observer callback of [setupTikTokEmbeds]: the first intersecting
    entry of a target builds its [TikTokEmbed] and unobserves the target *)
Fixpoint on_intersect (entries : list (nat * bool)) (p : Page) : Page :=
  match entries with
  | [] => p
  | (target, isIntersecting) :: rest =>
      match containers p !! target with
      | None => on_intersect rest p
      | Some C =>
          if isIntersecting && negb (bool_decide (is_Some (tiktokEmbed C)))
          then
            let '(e, p1) := construct target p in
            let p2 := with_containers
                        (alter (with_tiktokEmbed (Some e)) target (containers p1)) p1 in
            on_intersect rest
              (with_observed (filter (fun t => negb (Nat.eqb t target)) (observed p2)) p2)
          else on_intersect rest p
      end
  end.

Definition delivered (entries : list (nat * bool)) (p : Page) : list (nat * bool) :=
  filter (fun en => bool_decide (fst en ∈ observed p)) entries.

Definition run_frame_error (l : FrameListener) (p : Page) : Page :=
  match l with
  | ErrorOnce0 e videoId =>
      handleLoadError e (log (Warn "TikTok embed failed to load:" videoId) p)
  | _ => p
  end.

Definition step (ev : Event) (p : Page) : Page :=
  match ev with
  | Click c => click c p
  | Intersect entries => on_intersect (delivered entries p) p
  | FrameError f =>
      match frames p !! f with
      | None => p
      | Some i =>
          foldl (fun q l => run_frame_error l q)
                (with_frames (<[f := with_on_error [] i]> (frames p)) p)
                (on_error i)
      end
  end.

Definition run (evs : list Event) (p : Page) : Page :=
  foldl (fun q ev => step ev q) p evs.

(** an event that is not an action of the user *)
Definition is_click (ev : Event) : bool :=
  match ev with
  | Click _ => true
  | _ => false
  end.

(** [setupTikTokEmbeds()] *)
Definition setupTikTokEmbeds (env : Env) (p : Page) : Page :=
  let targets := seq 0 (length (containers p)) in
  if bool_decide (targets = []) then p
  else if PREFERS_REDUCED_MOTION env || negb (SUPPORTS_INTERSECTION_OBSERVER env)
  then foldl (fun q c => snd (construct c q)) p targets
  else with_observed (observed p ++ targets) p.

End Part000.

(** ** src/app.js, the [#tiktok-card] script (lines 1048-1097) *)

Module Inline.
Import Dom.
Export Js(Done, Thrown).

Record Env := mkEnv {
  has_IntersectionObserver : bool;
  prefersReduced : bool
}.

(** [#tiktok-card] and what the script allocates *)
Record State := mkState {
  data_tiktok_url : option string;   (** [el.getAttribute('data-tiktok-url')] *)
  hydrated : option string;          (** [el.dataset.hydrated] *)
  children : list Node;
  frames : list Iframe;              (** iframes created; the script never attaches them *)
  console : list LogEntry;
  observing : bool                   (** [io] observes [el] *)
}.

Definition with_hydrated (h : option string) (s : State) : State :=
  {| data_tiktok_url := data_tiktok_url s; hydrated := h; children := children s;
     frames := frames s; console := console s; observing := observing s |}.

Definition with_children (k : list Node) (s : State) : State :=
  {| data_tiktok_url := data_tiktok_url s; hydrated := hydrated s; children := k;
     frames := frames s; console := console s; observing := observing s |}.

Definition with_frames (f : list Iframe) (s : State) : State :=
  {| data_tiktok_url := data_tiktok_url s; hydrated := hydrated s;
     children := children s; frames := f; console := console s;
     observing := observing s |}.

Definition with_console (c : list LogEntry) (s : State) : State :=
  {| data_tiktok_url := data_tiktok_url s; hydrated := hydrated s;
     children := children s; frames := frames s; console := c;
     observing := observing s |}.

Definition with_observing (b : bool) (s : State) : State :=
  {| data_tiktok_url := data_tiktok_url s; hydrated := hydrated s;
     children := children s; frames := frames s; console := console s;
     observing := b |}.

(** the script's [videoId]: [m && m[1]] *)
Definition videoId_of (s : State) : option string :=
  Js.match_video (Js.or_else (data_tiktok_url s) "").

Definition new_iframe (videoId : string) : Iframe :=
  {| src := "https://www.tiktok.com/embed/v2/" ++ videoId;
     Dom.title := "TikTok video";
     sandbox := "";
     referrerPolicy := "origin";
     scrolling := "";
     allow := "accelerometer; autoplay; clipboard-write; encrypted-media; gyroscope; picture-in-picture; web-share";
     allowFullscreen := true;
     loading := "lazy";
     on_error := [OnErrorInline];
     on_load := [] |}.

(** [hydrate()] *)
Definition hydrate (videoId : string) (s : State) : State :=
  if bool_decide (hydrated s = Some "1") then s
  else with_frames (frames s ++ [new_iframe videoId]) (with_hydrated (Some "1") s).

(** the markup [iframe.onerror] writes *)
Definition unavailable_markup : list Node :=
  [elem "p" [] [("style", "padding: 20px; text-align: center;")]
     [Text "Video unavailable"]].

(** [iframe.onerror] *)
Definition onerror (s : State) : State :=
  with_children unavailable_markup
    (with_console (console s ++ [Warn "TikTok embed failed to load" ""]) s).

(** the script body; it gives up without an element or an identifier *)
Definition script (env : Env) (page : option State) : option State :=
  match page with
  | None => None
  | Some s =>
      match videoId_of s with
      | None => Some s
      | Some videoId =>
          if negb (has_IntersectionObserver env) then Some (hydrate videoId s)
          else Some (with_observing true s)
      end
  end.

(** the observer callback: the first entry that qualifies hydrates,
    disconnects the observer and ends the loop *)
Fixpoint on_intersect (env : Env) (videoId : string) (entries : list bool) (s : State)
  : State :=
  match entries with
  | [] => s
  | isIntersecting :: rest =>
      if isIntersecting || prefersReduced env
      then with_observing false (hydrate videoId s)
      else on_intersect env videoId rest s
  end.

Definition run_frame_error (l : FrameListener) (s : State) : State :=
  match l with
  | OnErrorInline => onerror s
  | _ => s
  end.

Inductive Event :=
| Intersect (entries : list bool)
| FrameError (f : nat).

Definition step (env : Env) (ev : Event) (s : State) : State :=
  match ev with
  | Intersect entries =>
      match videoId_of s with
      | Some videoId => if observing s then on_intersect env videoId entries s else s
      | None => s
      end
  | FrameError f =>
      match frames s !! f with
      | Some i => foldl (fun q l => run_frame_error l q) s (on_error i)
      | None => s
      end
  end.

End Inline.

(** ** src/app.js, [buildIframe], [hydrateTikTok] and [initTikTok] *)

Module Cards.
Import Dom.
Export Js(Done, Thrown).

Record Env := mkEnv {
  has_IntersectionObserver : bool;
  prefersReduced : bool
}.

(** the observer [hydrateTikTok] puts on an iframe, with its [lastEnter] *)
Record FrameObserver := mkFrameObserver {
  target : nat;
  lastEnter : Z
}.

Record Page := mkPage {
  cards : list Container;        (** [$$('.ttk')] *)
  hydratedTikToks : gset nat;    (** [state.hydratedTikToks] *)
  frames : list Iframe;
  observed : list nat;           (** the cards [initTikTok] observes *)
  frame_observers : list FrameObserver;
  animation_frames : list (nat * string);  (** pending [requestAnimationFrame(() => { iframe.src = s })] *)
  parse_html : string -> Fragment          (** the HTML parser behind the [innerHTML] setter *)
}.

Definition with_cards (x : list Container) (p : Page) : Page :=
  {| cards := x; hydratedTikToks := hydratedTikToks p; frames := frames p;
     observed := observed p; frame_observers := frame_observers p;
     animation_frames := animation_frames p;
     parse_html := parse_html p |}.

Definition with_hydratedTikToks (x : gset nat) (p : Page) : Page :=
  {| cards := cards p; hydratedTikToks := x; frames := frames p;
     observed := observed p; frame_observers := frame_observers p;
     animation_frames := animation_frames p;
     parse_html := parse_html p |}.

Definition with_frames (x : list Iframe) (p : Page) : Page :=
  {| cards := cards p; hydratedTikToks := hydratedTikToks p; frames := x;
     observed := observed p; frame_observers := frame_observers p;
     animation_frames := animation_frames p;
     parse_html := parse_html p |}.

Definition with_observed (x : list nat) (p : Page) : Page :=
  {| cards := cards p; hydratedTikToks := hydratedTikToks p; frames := frames p;
     observed := x; frame_observers := frame_observers p;
     animation_frames := animation_frames p;
     parse_html := parse_html p |}.

Definition with_frame_observers (x : list FrameObserver) (p : Page) : Page :=
  {| cards := cards p; hydratedTikToks := hydratedTikToks p; frames := frames p;
     observed := observed p; frame_observers := x;
     animation_frames := animation_frames p;
     parse_html := parse_html p |}.

Definition with_animation_frames (x : list (nat * string)) (p : Page) : Page :=
  {| cards := cards p; hydratedTikToks := hydratedTikToks p; frames := frames p;
     observed := observed p; frame_observers := frame_observers p;
     animation_frames := x; parse_html := parse_html p |}.

(** the children of card [c] replaced *)
Definition with_card_children (c : nat) (k : list Node) (p : Page) : Page :=
  with_cards (alter (Dom.with_children k) c (cards p)) p.

Definition outcome : Type := Js.outcome Page.

(** the iframe elements inside card [c] *)
Definition frames_of (c : nat) (p : Page) : list nat :=
  from_option (fun C => frames_in (children C)) [] (cards p !! c).

(** [buildIframe(videoId)] *)
Definition buildIframe (videoId : string) : Iframe :=
  {| src := "https://www.tiktok.com/embed/v2/video/" ++ videoId
            ++ "?lang=en-US&autoplay=1&controls=1&muted=1";
     Dom.title := "TikTok video";
     sandbox := "";
     referrerPolicy := "strict-origin-when-cross-origin";
     scrolling := "";
     allow := "accelerometer; autoplay; clipboard-write; encrypted-media; gyroscope; picture-in-picture; web-share";
     allowFullscreen := true;
     loading := "lazy";
     on_error := [];
     on_load := [] |}.

(** the template literal the error branch assigns to [err.innerHTML] *)
Definition fallback_template (url : string) : string :=
  "<p>Couldn’t load video.</p><a href=" ++ Js.quoted url
    ++ " target=" ++ Js.quoted "_blank"
    ++ " rel=" ++ Js.quoted "noopener" ++ ">Open on TikTok</a>".

(** the elements of that template when the URL is the value of [href] as it is *)
Definition fallback_nodes (url : string) : list Node :=
  [elem "p" [] [] [Text "Couldn’t load video."];
   elem "a" [] [("href", url); ("target", "_blank"); ("rel", "noopener")]
     [Text "Open on TikTok"]].

(** The markup of the error branch, as the parser reads it: a plain URL is
    the value of [href]; a URL that is not plain is read as part of the
    markup, by the parser of the page. *)
Definition fallback_markup (p : Page) (url : string) : Fragment :=
  if Js.plain url
  then {| forest := fallback_nodes url; made := [] |}
  else parse_html p (fallback_template url).

(** [hydrateTikTok(card)].  The four [querySelector] results are taken before
    any write; a write through a [null] result throws and keeps the writes
    already made.  The writes keep every class list, so the first element of
    a class is the same element throughout.  [LOOP_MS] is 0, so no refresh
    interval is started. *)
Definition hydrateTikTok (env : Env) (card : nat) (p : Page) : outcome :=
  if bool_decide (card ∈ hydratedTikToks p) then Done p
  else
    let p0 := with_hydratedTikToks ({[card]} ∪ hydratedTikToks p) p in
    match cards p0 !! card with
    | None => Done p0
    | Some C =>
        let url := Js.or_else (tiktokUrl (dataset C)) "" in
        let vid := Js.match_video url in
        let posterBtn := query "ttk__poster" (children C) in
        let posterImg := query "ttk__poster-img" (children C) in
        let frame := query "ttk__frame" (children C) in
        let err := query "ttk__error" (children C) in
        if negb (bool_decide (is_Some posterImg))
        then Thrown "TypeError: posterImg is null" p0
        else
          let k1 := update "ttk__poster-img"
                      (map_attrs (with_attr "src" (Js.or_else (poster (dataset C)) "")))
                      (children C) in
          let p1 := with_card_children card k1 p0 in
          match vid with
          | None =>
              if negb (bool_decide (is_Some err))
              then Thrown "TypeError: err is null" p1
              else
                let fr := fallback_markup p1 url in
                Done (with_card_children card
                        (update "ttk__error"
                           (fun n => set_children (placed (length (frames p1)) fr)
                                       (map_attrs (without_attr "hidden") n)) k1)
                        (with_frames (frames p1 ++ made fr) p1))
          | Some v =>
              if negb (bool_decide (is_Some posterBtn))
              then Thrown "TypeError: posterBtn is null" p1
              else
                let k2 := update "ttk__poster" (map_attrs (with_attr "hidden" "")) k1 in
                let p2 := with_card_children card k2 p1 in
                if negb (bool_decide (is_Some frame))
                then Thrown "TypeError: frame is null" p2
                else
                  let f := length (frames p2) in
                  let k3 := update "ttk__frame"
                              (fun n => append_child (FrameRef f)
                                          (map_attrs (without_attr "hidden") n)) k2 in
                  let p3 := with_card_children card k3
                              (with_frames (frames p2 ++ [buildIframe v]) p2) in
                  if negb (has_IntersectionObserver env)
                  then Thrown "ReferenceError: IntersectionObserver is not defined" p3
                  else
                    Done (with_frame_observers
                            (frame_observers p3 ++ [{| target := f; lastEnter := 0 |}]) p3)
          end
    end.

(** the callback of the observer on an iframe, for one entry at time [now] *)
Definition on_frame_entry (k : nat) (isIntersecting : bool) (now : Z) (p : Page) : Page :=
  match frame_observers p !! k with
  | None => p
  | Some o =>
      match frames p !! target o with
      | None => p
      | Some i =>
          if isIntersecting
          then
            if bool_decide (now - lastEnter o > 2000)%Z
            then with_frame_observers
                   (<[k := {| target := target o; lastEnter := now |}]> (frame_observers p))
                   (with_frames (<[target o := with_src (src i) i]> (frames p)) p)
            else p
          else
            with_animation_frames (animation_frames p ++ [(target o, src i)])
              (with_frames (<[target o := with_src "about:blank" i]> (frames p)) p)
      end
  end.

(** [initTikTok()] *)
Definition add_click (c : nat) (p : Page) : outcome :=
  match cards p !! c with
  | None => Done p
  | Some C =>
      match query "ttk__poster" (children C) with
      | None => Thrown "TypeError: posterBtn is null" p
      | Some _ =>
          Done (with_card_children c
                  (update "ttk__poster" (map_attrs (with_click (ClickHydrate c)))
                     (children C)) p)
      end
  end.

Fixpoint add_clicks (cs : list nat) (p : Page) : outcome :=
  match cs with
  | [] => Done p
  | c :: rest =>
      match add_click c p with
      | Done p' => add_clicks rest p'
      | Thrown err p' => Thrown err p'
      end
  end.

Definition initTikTok (env : Env) (p : Page) : outcome :=
  let cs := seq 0 (length (cards p)) in
  match add_clicks cs p with
  | Thrown err p' => Thrown err p'
  | Done p' =>
      if negb (has_IntersectionObserver env)
      then Thrown "ReferenceError: IntersectionObserver is not defined" p'
      else Done (with_observed (observed p' ++ cs) p')
  end.

Inductive Event :=
| Click (c : nat)                             (** a click on the first [.ttk__poster] of card [c] *)
| Intersect (entries : list (nat * bool))     (** the callback of [initTikTok]'s observer *)
| FrameIntersect (k : nat) (isIntersecting : bool) (now : Z)
| AnimationFrame.                             (** the pending animation-frame callbacks run *)

Definition run_click (env : Env) (l : Listener) (p : Page) : Page :=
  match l with
  | ClickHydrate c => Js.state_of (hydrateTikTok env c p)
  | ClickLoad _ => p
  end.

Definition click (env : Env) (c : nat) (p : Page) : Page :=
  match cards p !! c with
  | None => p
  | Some C =>
      match query "ttk__poster" (children C) with
      | Some (Elem a _) => foldl (fun q l => run_click env l q) p (on_click a)
      | _ => p
      end
  end.

(** [for (const e of entries) if (e.isIntersecting) if (!prefersReduced) hydrateTikTok(e.target)] *)
Fixpoint on_intersect (env : Env) (entries : list (nat * bool)) (p : Page) : outcome :=
  match entries with
  | [] => Done p
  | (c, isIntersecting) :: rest =>
      if isIntersecting && negb (prefersReduced env)
      then match hydrateTikTok env c p with
           | Done p' => on_intersect env rest p'
           | Thrown err p' => Thrown err p'
           end
      else on_intersect env rest p
  end.

Definition delivered (entries : list (nat * bool)) (p : Page) : list (nat * bool) :=
  filter (fun en => bool_decide (fst en ∈ observed p)) entries.

Definition step (env : Env) (ev : Event) (p : Page) : Page :=
  match ev with
  | Click c => click env c p
  | Intersect entries => Js.state_of (on_intersect env (delivered entries p) p)
  | FrameIntersect k isIntersecting now => on_frame_entry k isIntersecting now p
  | AnimationFrame =>
      with_animation_frames []
        (foldl (fun q fs => with_frames (alter (with_src (snd fs)) (fst fs) (frames q)) q)
               p (animation_frames p))
  end.

Definition run (env : Env) (evs : list Event) (p : Page) : Page :=
  foldl (fun q ev => step env ev q) p evs.

End Cards.

(** ** Sample pages *)

Module Examples.
Import Dom.

(** The strings of the sample pages are plain, so their markup never
    reaches the parser of the page; it is given as the one that builds
    nothing. *)
Definition no_markup (markup : string) : Fragment :=
  {| forest := []; made := [] |}.

(** a [.ttk] container with its poster button, inside a press card *)
Definition container_of (u : string) : Container :=
  {| dataset := {| tiktokUrl := Some u; data_title := None; poster := Some "p.jpg" |};
     children := [elem "button" ["ttk__poster"] [("type", "button")]
                    [elem "img" ["ttk__poster-img"] [] [];
                     elem "span" ["ttk__play"] [] [Text "▶"]]];
     press_card := Some {| press_link := Some "none" |};
     tiktokEmbed := None |}.

Definition page_of_url (u : string) : Page.Page :=
  {| Page.containers := [container_of u]; Page.embeds := []; Page.frames := [];
     Page.console := []; Page.observed := []; Page.timers := [];
     Page.parse_html := no_markup |}.

(** the page after [new TikTokEmbed(container)] of part_002 *)
Definition embed_page (u : string) : Page.Page :=
  snd (Part002.construct 0 (page_of_url u)).

(** the same after [load()] *)
Definition loaded_page (u : string) : Page.Page :=
  Page.page_of (Part002.load 0 (embed_page u)).

(** the page after [new TikTokEmbed(container)] of part_000 *)
Definition embed_page0 (u : string) : Page.Page :=
  snd (Part000.construct 0 (page_of_url u)).

(** the same container on a page without a [.press-card] around it *)
Definition lone_page (u : string) : Page.Page :=
  {| Page.containers := [with_press_card None (container_of u)];
     Page.embeds := []; Page.frames := [];
     Page.console := []; Page.observed := []; Page.timers := [];
     Page.parse_html := no_markup |}.

(** that page after [new TikTokEmbed(container)] and [load()], of part_002
    and of part_000 *)
Definition lone_loaded_page (u : string) : Page.Page :=
  Page.page_of (Part002.load 0 (snd (Part002.construct 0 (lone_page u)))).

Definition lone_loaded_page0 (u : string) : Page.Page :=
  Page.page_of (Part000.load 0 (snd (Part000.construct 0 (lone_page u)))).

(** a card as [hydrateTikTok] expects it *)
Definition card_of (u : string) : Container :=
  {| dataset := {| tiktokUrl := Some u; data_title := None; poster := Some "p.jpg" |};
     children := [elem "button" ["ttk__poster"] [("type", "button")]
                    [elem "img" ["ttk__poster-img"] [] []];
                  elem "div" ["ttk__frame"] [("hidden", "")] [];
                  elem "div" ["ttk__error"] [("hidden", "")] []];
     press_card := None;
     tiktokEmbed := None |}.

Definition cards_page (u : string) : Cards.Page :=
  {| Cards.cards := [card_of u]; Cards.hydratedTikToks := ∅; Cards.frames := [];
     Cards.observed := []; Cards.frame_observers := [];
     Cards.animation_frames := []; Cards.parse_html := no_markup |}.

Definition modern : Cards.Env :=
  {| Cards.has_IntersectionObserver := true; Cards.prefersReduced := false |}.

(** [#tiktok-card] before the inline script runs *)
Definition inline_card (u : string) : Inline.State :=
  {| Inline.data_tiktok_url := Some u; Inline.hydrated := None;
     Inline.children := [elem "button" ["ttk__poster"] [] []];
     Inline.frames := []; Inline.console := []; Inline.observing := false |}.

End Examples.

(** ** What [new TikTokEmbed(container)] leaves on a page *)

Module Setup.
Import Dom Page.

(** the object [new TikTokEmbed(container)] creates for container [c] *)
Definition fresh (c : nat) (C : Container) : TikTokEmbed :=
  {| container := c;
     url := tiktokUrl (dataset C);
     title := Js.or_else (data_title (dataset C)) "TikTok video";
     posterSrc := poster (dataset C);
     isLoaded := false;
     iframe := None |}.

(** the children of [C] once the [init()] of object [e] has run on them *)
Definition hooked (e : nat) (C : Container) : list Node :=
  update "ttk__poster" (map_attrs (with_click (ClickLoad e)))
    (if Js.truthy (poster (dataset C))
     then update "ttk__poster-img"
            (map_attrs (with_attr "src" (Js.interpolate (poster (dataset C)))))
            (children C)
     else children C).

(** the click listeners of an element [querySelector] returned *)
Definition clicks_of (found : option Node) : list Listener :=
  match found with
  | Some (Elem a _) => on_click a
  | _ => []
  end.

(** two [querySelector] results that agree on whether an element was found
    and on the click listeners of that element *)
Definition same_clicks (o' o : option Node) : Prop :=
  match o', o with
  | Some m', Some m => clicks_of (Some m') = clicks_of (Some m)
  | None, None => True
  | _, _ => False
  end.

(** the click listeners of the first element of class [cls] *)
Definition listeners_at (cls : string) (forest : list Node) : list Listener :=
  clicks_of (query cls forest).

(** [q] is [p] after [new TikTokEmbed] ran once more on its first [k]
    containers: the objects there were are kept, container [c] got object
    [e = length (embeds p) + c] and the expando [tf e C]. *)
Definition rebuilt (tf : nat -> Container -> option nat) (k : nat) (p q : Page) : Prop :=
  length (containers q) = length (containers p)
  /\ (forall c C, c < k -> containers p !! c = Some C ->
        containers q !! c
        = Some (with_tiktokEmbed (tf (length (embeds p) + c) C)
                  (with_children (hooked (length (embeds p) + c) C) C)))
  /\ (forall c, k <= c -> containers q !! c = containers p !! c)
  /\ embeds q = (embeds p ++ imap fresh (take k (containers p)))%list
  /\ frames q = frames p.

(** what one round of a [forEach] over the containers does, for each of
    the three loops *)
Definition round (tf : nat -> Container -> option nat) (body : Page -> nat -> Page) : Prop :=
  forall q c C, containers q !! c = Some C ->
    containers (body q c)
    = <[c := with_tiktokEmbed (tf (length (embeds q)) C)
               (with_children (hooked (length (embeds q)) C) C)]> (containers q)
    /\ embeds (body q c) = (embeds q ++ [fresh c C])%list
    /\ frames (body q c) = frames q.

(** nothing is hydrated and no iframe exists *)
Definition idle (p : Page) : Prop :=
  frames p = [] /\ Forall (fun E => isLoaded E = false) (embeds p).

(** the three branches of [setupLazyLoading] *)
Inductive Branch :=
| ReducedMotion
| Observer
| Timer.

Definition branch (env : Part002.Env) : Branch :=
  if Part002.PREFERS_REDUCED_MOTION env then ReducedMotion
  else if Part002.SUPPORTS_INTERSECTION_OBSERVER env then Observer
  else Timer.

End Setup.

(** ** src/unnamed/part_002, [init()] at the end of the script

    The script calls [init()] once.  [monitorPerformance] only measures and
    logs; its running loops are counted. *)

Module Boot002.
Import Dom Page.

Record Window := mkWindow {
  page : Page;
  readyState : string;               (** [document.readyState] *)
  hostname : string;                 (** [window.location.hostname] *)
  DOMContentLoaded_listeners : nat;  (** registrations of [init] *)
  pageshow_listeners : nat;          (** registrations of the [pageshow] arrow *)
  monitors : nat                     (** calls of [monitorPerformance()] *)
}.

Definition with_page (x : Page) (w : Window) : Window :=
  {| page := x; readyState := readyState w; hostname := hostname w;
     DOMContentLoaded_listeners := DOMContentLoaded_listeners w;
     pageshow_listeners := pageshow_listeners w; monitors := monitors w |}.

Definition with_readyState (x : string) (w : Window) : Window :=
  {| page := page w; readyState := x; hostname := hostname w;
     DOMContentLoaded_listeners := DOMContentLoaded_listeners w;
     pageshow_listeners := pageshow_listeners w; monitors := monitors w |}.

(** [init()] *)
Definition init (env : Part002.Env) (w : Window) : Window :=
  if String.eqb (readyState w) "loading"
  then {| page := page w; readyState := readyState w; hostname := hostname w;
          DOMContentLoaded_listeners := S (DOMContentLoaded_listeners w);
          pageshow_listeners := pageshow_listeners w; monitors := monitors w |}
  else {| page := Part002.setupLazyLoading env (page w);
          readyState := readyState w; hostname := hostname w;
          DOMContentLoaded_listeners := DOMContentLoaded_listeners w;
          pageshow_listeners := S (pageshow_listeners w);
          monitors := if String.eqb (hostname w) "localhost"
                      then S (monitors w) else monitors w |}.

(** the [pageshow] listener *)
Definition on_pageshow (env : Part002.Env) (persisted : bool) (w : Window) : Window :=
  if persisted then with_page (Part002.setupLazyLoading env (page w)) w else w.

Inductive Event :=
| DOMContentLoaded                (** the document has been parsed *)
| PageShow (persisted : bool)     (** [pageshow], with [event.persisted] *)
| OnPage (ev : Part002.Event).

Definition step (env : Part002.Env) (ev : Event) (w : Window) : Window :=
  match ev with
  | DOMContentLoaded =>
      Nat.iter (DOMContentLoaded_listeners w) (init env) (with_readyState "interactive" w)
  | PageShow persisted =>
      Nat.iter (pageshow_listeners w) (on_pageshow env persisted) w
  | OnPage ev => with_page (Part002.step ev (page w)) w
  end.

Definition run (env : Part002.Env) (evs : list Event) (w : Window) : Window :=
  foldl (fun q ev => step env ev q) w evs.

(** the window when the script starts *)
Definition start (state host : string) (p : Page) : Window :=
  {| page := p; readyState := state; hostname := host;
     DOMContentLoaded_listeners := 0; pageshow_listeners := 0; monitors := 0 |}.

(** the restores from the back/forward cache among [evs] *)
Fixpoint restores (evs : list Event) : nat :=
  match evs with
  | [] => 0
  | PageShow true :: rest => S (restores rest)
  | _ :: rest => restores rest
  end.

Definition is_DOMContentLoaded (ev : Event) : bool :=
  match ev with
  | DOMContentLoaded => true
  | _ => false
  end.

End Boot002.

(** ** Event sequences at [#tiktok-card] *)

Module InlineRun.
Import Dom Inline.

Definition run (env : Env) (evs : list Event) (s : State) : State :=
  foldl (fun q ev => step env ev q) s evs.

(** a callback of the observer, as opposed to an event at an iframe *)
Definition is_intersect (ev : Event) : bool :=
  match ev with
  | Intersect _ => true
  | FrameError _ => false
  end.

(** an entry that makes the callback hydrate *)
Definition qualifies (env : Env) (isIntersecting : bool) : bool :=
  isIntersecting || prefersReduced env.

End InlineRun.

(** ** What [initTikTok] leaves on the cards *)

Module CardsSetup.
Import Dom Cards.

(** card [C] with the click listener of [initTikTok] on its poster button *)
Definition wired_card (c : nat) (C : Container) : Container :=
  Dom.with_children
    (update "ttk__poster" (map_attrs (with_click (ClickHydrate c))) (children C)) C.

(** [q] is [p] after the first loop of [initTikTok] got through its first
    [k] cards *)
Definition wired (k : nat) (p q : Page) : Prop :=
  length (cards q) = length (cards p)
  /\ (forall c C, c < k -> cards p !! c = Some C -> cards q !! c = Some (wired_card c C))
  /\ (forall c, k <= c -> cards q !! c = cards p !! c)
  /\ hydratedTikToks q = hydratedTikToks p
  /\ frames q = frames p
  /\ observed q = observed p
  /\ frame_observers q = frame_observers p
  /\ animation_frames q = animation_frames p.

End CardsSetup.

(** ** [DependencyManager] (src/app.js and src/unnamed/part_000, lines 3-26)

    [waitForDependencies()] arms a timer of 10 s that rejects and an
    interval of 100 ms that polls [window]; the two callbacks are the events. *)

Module Dependency.

Definition required : list string := ["Plotly"; "gsap"; "THREE"; "Tone"].

Inductive Promise :=
| Pending
| Resolved
| Rejected (reason : string).

Record State := mkState {
  promise : Promise;
  checkInterval : bool;   (** the interval has not been cleared *)
  timeout : bool          (** the timer is pending *)
}.

(** [resolve()] and [reject(...)] settle a promise once *)
Definition settle (v : Promise) (p : Promise) : Promise :=
  match p with
  | Pending => v
  | settled => settled
  end.

(** the state when [waitForDependencies()] returns its promise *)
Definition waitForDependencies : State :=
  {| promise := Pending; checkInterval := true; timeout := true |}.

(** [this.required.every(lib => window[lib] !== undefined)], with [window]
    given by the names that are defined *)
Definition allLoaded (window : list string) : bool :=
  forallb (fun lib => bool_decide (lib ∈ window)) required.

Inductive Event :=
| Tick (window : list string)   (** the interval fires *)
| Timeout.                      (** the timer fires *)

Definition step (ev : Event) (s : State) : State :=
  match ev with
  | Tick window =>
      if checkInterval s
      then if allLoaded window
           then {| promise := settle Resolved (promise s);
                   checkInterval := false; timeout := false |}
           else s
      else s
  | Timeout =>
      if timeout s
      then {| promise := settle (Rejected "Libraries failed to load within 10s") (promise s);
              checkInterval := checkInterval s; timeout := false |}
      else s
  end.

Definition run (evs : list Event) (s : State) : State :=
  foldl (fun q ev => step ev q) s evs.

(** a poll that finds every library *)
Definition complete (ev : Event) : bool :=
  match ev with
  | Tick window => allLoaded window
  | Timeout => false
  end.

Definition is_Timeout (ev : Event) : bool :=
  match ev with
  | Timeout => true
  | Tick _ => false
  end.

End Dependency.

(** ** [ThemeManager] (src/unnamed/part_000, lines 28-89)

    [localStorage] is a map from keys to strings that accepts every write. *)

Module Theme.
Export Js(Done, Thrown).

(** the children of [.header-controls] *)
Inductive Control :=
| MusicToggle                          (** [#music-toggle] *)
| ThemeToggle                          (** the button [createToggle] inserts *)
| Other (id : string).

(** the two [span]s of the button *)
Record Button := mkButton {
  icon : string;
  text : string
}.

Record World := mkWorld {
  localStorage : gmap string string;
  data_theme : option string;              (** [data-theme] of the root element *)
  header_controls : option (list Control); (** the first [.header-controls] *)
  music_toggle_elsewhere : bool   (** [#music-toggle] exists, but not as a child of [.header-controls] *)
}.

(** the fields of a [ThemeManager]; [toggleButton] is the button in the header *)
Record ThemeManager := mkThemeManager {
  currentTheme : string;
  toggleButton : option Button
}.

Definition State : Type := ThemeManager * World.

(** [new ThemeManager()] *)
Definition construct (w : World) : ThemeManager :=
  {| currentTheme := Js.or_else (localStorage w !! "theme") "light";
     toggleButton := None |}.

(** [applyTheme(theme)] *)
Definition applyTheme (theme : string) (w : World) : World :=
  {| localStorage := localStorage w; data_theme := Some theme;
     header_controls := header_controls w;
     music_toggle_elsewhere := music_toggle_elsewhere w |}.

(** [updateToggleButton()] *)
Definition updateToggleButton (t : ThemeManager) : ThemeManager :=
  match toggleButton t with
  | None => t
  | Some _ =>
      {| currentTheme := currentTheme t;
         toggleButton :=
           Some (if String.eqb (currentTheme t) "dark"
                 then {| icon := "☀️"; text := "Light" |}
                 else {| icon := "🌙"; text := "Dark" |}) |}
  end.

(** [headerControls.insertBefore(toggle, musicToggle)] *)
Fixpoint insertBefore (new : Control) (kids : list Control) : list Control :=
  match kids with
  | [] => []
  | MusicToggle :: rest => new :: MusicToggle :: rest
  | k :: rest => k :: insertBefore new rest
  end.

Definition has_music_toggle (kids : list Control) : bool :=
  existsb (fun k => match k with MusicToggle => true | _ => false end) kids.

(** [createToggle()] *)
Definition createToggle (s : State) : Js.outcome State :=
  let '(t, w) := s in
  match header_controls w with
  | None => Done s
  | Some kids =>
      let placed :=
        if has_music_toggle kids then Some (insertBefore ThemeToggle kids)
        else if music_toggle_elsewhere w then None
        else Some (kids ++ [ThemeToggle])%list in
      match placed with
      | None => Thrown "NotFoundError: the node before which the new node is to be inserted is not a child of this node" s
      | Some kids' =>
          let w' := {| localStorage := localStorage w; data_theme := data_theme w;
                       header_controls := Some kids';
                       music_toggle_elsewhere := music_toggle_elsewhere w |} in
          Done (updateToggleButton
                  {| currentTheme := currentTheme t;
                     toggleButton := Some {| icon := "🌙"; text := "Dark" |} |},
                w')
      end
  end.

(** [init()] *)
Definition init (s : State) : Js.outcome State :=
  let '(t, w) := s in createToggle (t, applyTheme (currentTheme t) w).

(** [toggle()] *)
Definition toggle (s : State) : State :=
  let '(t, w) := s in
  let theme := if String.eqb (currentTheme t) "light" then "dark" else "light" in
  let w1 := applyTheme theme w in
  let w2 := {| localStorage := <["theme" := theme]> (localStorage w1);
               data_theme := data_theme w1; header_controls := header_controls w1;
               music_toggle_elsewhere := music_toggle_elsewhere w1 |} in
  (updateToggleButton {| currentTheme := theme; toggleButton := toggleButton t |}, w2).

(** a click on the theme button; without the button there is nothing to click *)
Definition click (s : State) : State :=
  match toggleButton (fst s) with
  | Some _ => toggle s
  | None => s
  end.

(** the page is loaded: [new ThemeManager()] and [init()] *)
Definition load (w : World) : Js.outcome State := init (construct w, w).

(** the label of the button for a theme *)
Definition label (theme : string) : Button :=
  if String.eqb theme "dark"
  then {| icon := "☀️"; text := "Light" |}
  else {| icon := "🌙"; text := "Dark" |}.

End Theme.

(** ** The theme radios of src/app.js (lines 1184-1192 and 1281-1287) *)

Module ThemeRadios.

Record Radio := mkRadio {
  value : string;
  checked : bool
}.

Record World := mkWorld {
  localStorage : gmap string string;
  data_theme : option string;
  themeRadios : list Radio       (** [$$('input[name="theme"]')] *)
}.

(** the top of the script: [state.theme], the attribute and the radios *)
Definition start (w : World) : string * World :=
  let theme := Js.or_else (localStorage w !! "theme") "light" in
  (theme,
   {| localStorage := localStorage w;
      data_theme := Some theme;
      themeRadios := map (fun r => {| value := value r;
                                      checked := String.eqb (value r) theme |})
                         (themeRadios w) |}).

(** the user picks radio [k]: the browser checks it and unchecks the others
    of the group, then the [change] listener runs *)
Definition change (k : nat) (w : World) : World :=
  match themeRadios w !! k with
  | None => w
  | Some r =>
      {| localStorage := <["theme" := value r]> (localStorage w);
         data_theme := Some (value r);
         themeRadios := imap (fun i r' => {| value := value r';
                                             checked := Nat.eqb i k |})
                             (themeRadios w) |}
  end.

End ThemeRadios.

(** ** [throttle(func, limit)] ([AnimationController] of src/app.js, lines
    512-521; [AnimationManager] of src/unnamed/part_000, lines 551-560)

    The function [throttle] returns, with its variable [inThrottle] and the
    timers it has started; [func] acts on a state of its own and may throw. *)

Module Throttle.
Export Js(Done, Thrown).

Section Throttled.
Context {S A : Type}.
Variable func : A -> S -> Js.outcome S.

Record State := mkState {
  inThrottle : bool;   (** [undefined] at first, which counts as [false] *)
  timers : nat;        (** pending [setTimeout(() => inThrottle = false, limit)] *)
  inner : S
}.

(** [throttle(func, limit)] *)
Definition throttle (s : S) : State :=
  {| inThrottle := false; timers := 0; inner := s |}.

(** a call of the returned function *)
Definition call (a : A) (t : State) : Js.outcome State :=
  if inThrottle t then Done t
  else
    match func a (inner t) with
    | Done s' => Done {| inThrottle := true; timers := Datatypes.S (timers t); inner := s' |}
    | Thrown err s' =>
        Thrown err {| inThrottle := inThrottle t; timers := timers t; inner := s' |}
    end.

(** a pending timer fires *)
Definition fire (t : State) : State :=
  match timers t with
  | 0 => t
  | Datatypes.S n => {| inThrottle := false; timers := n; inner := inner t |}
  end.

Inductive Event :=
| Call (a : A)
| Fire.

Definition step (ev : Event) (t : State) : State :=
  match ev with
  | Call a => Js.state_of (call a t)
  | Fire => fire t
  end.

Definition run (evs : list Event) (t : State) : State :=
  foldl (fun q ev => step ev q) t evs.

(** the flag is set exactly while the one timer is pending *)
Definition armed (t : State) : Prop :=
  (inThrottle t = false /\ timers t = 0) \/ (inThrottle t = true /\ timers t = 1).

(** the timers that fire among [evs] *)
Fixpoint fires (evs : list Event) : nat :=
  match evs with
  | [] => 0
  | Fire :: rest => Datatypes.S (fires rest)
  | Call _ :: rest => fires rest
  end.

End Throttled.

Arguments State : clear implicits.
Arguments Event : clear implicits.
Arguments fires {A} evs.
Arguments armed {S} t.

(** a [func] that records the arguments it is called with *)
Definition record_call {A : Type} (a : A) (log : list A) : Js.outcome (list A) :=
  Done (log ++ [a])%list.

(** The state of [func] with a tally of its runs: those that returned and
    those that threw. *)
Record Tally (S : Type) := mkTally {
  under : S;
  returned : nat;
  thrown : nat
}.
Arguments mkTally {S} under returned thrown.
Arguments under {S} t.
Arguments returned {S} t.
Arguments thrown {S} t.

Definition tally {S : Type} (s : S) : Tally S :=
  {| under := s; returned := 0; thrown := 0 |}.

(** [func], counted *)
Definition tallied {S A : Type} (func : A -> S -> Js.outcome S) (a : A) (t : Tally S)
  : Js.outcome (Tally S) :=
  match func a (under t) with
  | Done s' =>
      Done {| under := s'; returned := Datatypes.S (returned t); thrown := thrown t |}
  | Thrown err s' =>
      Thrown err {| under := s'; returned := returned t; thrown := Datatypes.S (thrown t) |}
  end.

(** the calls among [evs] *)
Fixpoint calls_in {A : Type} (evs : list (Event A)) : nat :=
  match evs with
  | [] => 0
  | Call _ :: rest => Datatypes.S (calls_in rest)
  | Fire :: rest => calls_in rest
  end.

End Throttle.

(** ** [ChartManager.handleResize] of src/unnamed/part_000 (lines 879-892)

    The [resize] listener with its variable [resizeTimer]; timers are told
    apart by the identifiers [setTimeout] returns. *)

Module Debounce.

Record State := mkState {
  resizeTimer : option nat;    (** [undefined] at first *)
  pending : list nat;          (** the timers that have not fired, oldest first *)
  next_id : nat;               (** the identifier the next [setTimeout] returns *)
  intimacy : bool;             (** [this.charts.intimacy] is set *)
  anxiety : bool;              (** [this.charts.anxiety] is set *)
  resized : list string        (** the calls of [Plotly.Plots.resize], in order *)
}.

(** [handleResize()] has registered the listener *)
Definition handleResize (first_id : nat) (intimacy anxiety : bool) : State :=
  {| resizeTimer := None; pending := []; next_id := first_id;
     intimacy := intimacy; anxiety := anxiety; resized := [] |}.

(** [clearTimeout(id)] *)
Definition clearTimeout (id : option nat) (l : list nat) : list nat :=
  match id with
  | Some i => filter (fun j => j <> i) l
  | None => l
  end.

(** the listener *)
Definition on_resize (s : State) : State :=
  {| resizeTimer := Some (next_id s);
     pending := (clearTimeout (resizeTimer s) (pending s) ++ [next_id s])%list;
     next_id := S (next_id s);
     intimacy := intimacy s; anxiety := anxiety s; resized := resized s |}.

(** the callback of a timer *)
Definition callback (s : State) : State :=
  {| resizeTimer := resizeTimer s; pending := pending s; next_id := next_id s;
     intimacy := intimacy s; anxiety := anxiety s;
     resized := (resized s ++ (if intimacy s then ["intimacy-chart"] else [])
                           ++ (if anxiety s then ["anxiety-chart"] else []))%list |}.

Inductive Event :=
| Resize        (** a [resize] event *)
| Expire.       (** 250 ms have passed for the oldest pending timer *)

Definition step (ev : Event) (s : State) : State :=
  match ev with
  | Resize => on_resize s
  | Expire =>
      match pending s with
      | [] => s
      | _ :: rest =>
          callback {| resizeTimer := resizeTimer s; pending := rest; next_id := next_id s;
                      intimacy := intimacy s; anxiety := anxiety s;
                      resized := resized s |}
      end
  end.

Definition run (evs : list Event) (s : State) : State :=
  foldl (fun q ev => step ev q) s evs.

(** no timer is pending, or the one that [resizeTimer] names *)
Definition settled (s : State) : Prop :=
  pending s = [] \/ exists id, pending s = [id] /\ resizeTimer s = Some id.

End Debounce.

(** ** The anxiety chart of [ChartManager] (src/app.js, lines 842-1004)

    [Plotly] is seen through what a chart shows: the names of its traces, in
    order, and its height. *)

Module Charts.
Export Js(Done, Thrown).

Record Metric := mkMetric {
  key : string;
  name : string
}.

(** [this.anxietyMetrics] *)
Definition anxietyMetrics : list Metric :=
  [ {| key := "tradwife"; name := "Tradwife Searches" |};
    {| key := "measles"; name := "Measles Cases" |};
    {| key := "unemployment"; name := "Unemployment" |};
    {| key := "eggs"; name := "Egg Prices" |};
    {| key := "gold"; name := "Gold" |};
    {| key := "beef"; name := "Beef" |} ].

(** [String(n).padStart(width, pad)] for a pad of one character *)
Definition padStart (width : nat) (pad : ascii) (s : string) : string :=
  String.string_of_list_ascii (replicate (width - String.length s) pad) ++ s.

(** the label of index [i] in [months] *)
Definition month_label (i : nat) : string :=
  let m := i * 3 in
  pretty (2020 + m / 12) ++ "-" ++ padStart 2 "0"%char (pretty (m mod 12 + 1)).

(** [Array.from({ length: 24 }, ...)] *)
Definition months : list string := map month_label (seq 0 24).

(** a toggle button of [#anxiety-toggles] *)
Record Button := mkButton {
  active : bool;               (** the class [active] *)
  aria_pressed : string;
  backgroundColor : string;
  color : string
}.

Record Plot := mkPlot {
  traces : list string;
  height : nat
}.

Record Env := mkEnv {
  color_of : string -> string;   (** [metric.color], which [loadColors] read from
                                     [--c-<key>]; a colour the style accepts *)
  has_toggles : bool;            (** [#anxiety-toggles] exists *)
  newPlot_throws : bool          (** [Plotly.newPlot] throws *)
}.

Record State := mkState {
  activeMetrics : gmap string bool;
  buttons : list Button;              (** the children of [#anxiety-toggles] *)
  anxiety_chart : option Plot;        (** what [#anxiety-chart] shows *)
  charts_anxiety : bool;              (** [this.charts.anxiety] is set *)
  intimacy_chart : option nat;        (** the height of [#intimacy-chart] *)
  charts_intimacy : bool;
  errors : list string                (** [console.error] *)
}.

Definition with_anxiety (p : option Plot) (b : bool) (s : State) : State :=
  {| activeMetrics := activeMetrics s; buttons := buttons s; anxiety_chart := p;
     charts_anxiety := b; intimacy_chart := intimacy_chart s;
     charts_intimacy := charts_intimacy s; errors := errors s |}.

(** [isMobile ? 500 : isTablet ? 700 : 850] of [updateAnxietyChart] *)
Definition layout_height (innerWidth : nat) : nat :=
  if (innerWidth <? 480)%nat then 500 else if (innerWidth <? 768)%nat then 700 else 850.

(** [this.activeMetrics[m.key]] as a condition *)
Definition is_active (am : gmap string bool) (m : Metric) : bool :=
  default false (am !! key m).

(** [updateAnxietyChart(months, anxietyAllData)] *)
Definition updateAnxietyChart (env : Env) (innerWidth : nat) (s : State) : State :=
  let shown := name <$> filter (fun m => is_active (activeMetrics s) m) anxietyMetrics in
  if newPlot_throws env
  then {| activeMetrics := activeMetrics s; buttons := buttons s;
          anxiety_chart := anxiety_chart s; charts_anxiety := charts_anxiety s;
          intimacy_chart := intimacy_chart s; charts_intimacy := charts_intimacy s;
          errors := (errors s ++ ["Failed to update anxiety chart:"])%list |}
  else with_anxiety (Some {| traces := shown; height := layout_height innerWidth |}) true s.

(** the [click] listener of the button of metric [k] *)
Definition click (env : Env) (innerWidth : nat) (k : nat) (s : State) : State :=
  match buttons s !! k, anxietyMetrics !! k with
  | Some b, Some m =>
      let isActive := String.eqb (aria_pressed b) "true" in
      let b' := if negb isActive
                then {| active := true; aria_pressed := "true";
                        backgroundColor := color_of env (key m); color := "#fff" |}
                else {| active := false; aria_pressed := "false";
                        backgroundColor := "#e5e7eb"; color := "#4b5563" |} in
      updateAnxietyChart env innerWidth
        {| activeMetrics := <[key m := negb isActive]> (activeMetrics s);
           buttons := <[k := b']> (buttons s);
           anxiety_chart := anxiety_chart s; charts_anxiety := charts_anxiety s;
           intimacy_chart := intimacy_chart s; charts_intimacy := charts_intimacy s;
           errors := errors s |}
  | _, _ => s
  end.

(** [initAnxietyChart()]; without [#anxiety-toggles] the first
    [togglesDiv.appendChild(btn)] throws *)
Definition initAnxietyChart (env : Env) (innerWidth : nat) (s : State) : Js.outcome State :=
  let am := foldl (fun a m => <[key m := true]> a) (activeMetrics s) anxietyMetrics in
  let s1 := {| activeMetrics := am; buttons := buttons s;
               anxiety_chart := anxiety_chart s; charts_anxiety := charts_anxiety s;
               intimacy_chart := intimacy_chart s; charts_intimacy := charts_intimacy s;
               errors := errors s |} in
  if negb (has_toggles env)
  then Thrown "TypeError: togglesDiv is null" s1
  else
    Done (updateAnxietyChart env innerWidth
            {| activeMetrics := am;
               buttons := (buttons s
                           ++ map (fun m => {| active := true; aria_pressed := "true";
                                               backgroundColor := color_of env (key m);
                                               color := "#fff" |}) anxietyMetrics)%list;
               anxiety_chart := anxiety_chart s; charts_anxiety := charts_anxiety s;
               intimacy_chart := intimacy_chart s; charts_intimacy := charts_intimacy s;
               errors := errors s |}).

(** the [resize] listener of [handleResize()], with [window.Plotly] defined *)
Definition on_resize (innerWidth : nat) (s : State) : State :=
  let h1 := if (innerWidth <? 480)%nat then 520 else if (innerWidth <? 768)%nat then 700 else 950 in
  let h2 := if (innerWidth <? 480)%nat then 500 else if (innerWidth <? 768)%nat then 700 else 850 in
  {| activeMetrics := activeMetrics s; buttons := buttons s;
     anxiety_chart := if charts_anxiety s
                      then (fun p => {| traces := traces p; height := h2 |}) <$> anxiety_chart s
                      else anxiety_chart s;
     charts_anxiety := charts_anxiety s;
     intimacy_chart := if charts_intimacy s
                       then (fun _ => h1) <$> intimacy_chart s
                       else intimacy_chart s;
     charts_intimacy := charts_intimacy s; errors := errors s |}.

Inductive Event :=
| Click (k : nat) (innerWidth : nat)   (** a click on button [k], in a window this wide *)
| Resize (innerWidth : nat).

Definition step (env : Env) (ev : Event) (s : State) : State :=
  match ev with
  | Click k w => click env w k s
  | Resize w => on_resize w s
  end.

Definition run (env : Env) (evs : list Event) (s : State) : State :=
  foldl (fun q ev => step env ev q) s evs.

(** the width of the window at the last event that reached a listener: a
    [resize], or a click on a button that exists *)
Definition last_width (w0 : nat) (evs : list Event) : nat :=
  foldl (fun w ev =>
           match ev with
           | Click k w' => if (k <? length anxietyMetrics)%nat then w' else w
           | Resize w' => w'
           end) w0 evs.

(** a [ChartManager] before [initAnxietyChart()], with the intimacy chart as
    [initIntimacyChart()] left it *)
Definition fresh (intimacy : option nat) : State :=
  {| activeMetrics := ∅; buttons := []; anxiety_chart := None; charts_anxiety := false;
     intimacy_chart := intimacy; charts_intimacy := bool_decide (is_Some intimacy);
     errors := [] |}.

(** the button of metric [m], switched on or off *)
Definition button_of (env : Env) (m : Metric) (on : bool) : Button :=
  if on
  then {| active := true; aria_pressed := "true";
          backgroundColor := color_of env (key m); color := "#fff" |}
  else {| active := false; aria_pressed := "false";
          backgroundColor := "#e5e7eb"; color := "#4b5563" |}.

(** buttons, [activeMetrics] and chart agree: button [k] is pressed exactly
    when metric [k] is active, and the chart shows the active metrics at the
    height for a window of width [w] *)
Definition coherent (env : Env) (w : nat) (s : State) : Prop :=
  length (buttons s) = length anxietyMetrics
  /\ (forall k m, anxietyMetrics !! k = Some m ->
        exists a : bool, activeMetrics s !! key m = Some a
          /\ buttons s !! k = Some (button_of env m a))
  /\ anxiety_chart s
     = Some {| traces := name <$> filter (fun m => is_active (activeMetrics s) m)
                                    anxietyMetrics;
               height := layout_height w |}
  /\ charts_anxiety s = true.

End Charts.

(** ** The music toggle of [AudioEngine] (src/unnamed/part_000, lines
    171-258)

    [Tone] is seen through what the engine asks of it: [Tone.start()], the
    main loop and the transport; its calls return. *)

Module Music.
Export Js(Done, Thrown).

(** [#music-toggle] with its two [span]s, either of which may be missing *)
Record Toggle := mkToggle {
  aria_pressed : option string;
  icon : option string;     (** the text of [.music-toggle-icon] *)
  text : option string      (** the text of [.music-toggle-text] *)
}.

Record State := mkState {
  audioStarted : bool;
  musicEnabled : bool;
  loops_main : bool;        (** [this.loops.main] holds a loop *)
  transport : bool;         (** [Tone.Transport] is started *)
  bpm : option nat;         (** the tempo the engine has set *)
  Tone_start : nat;         (** calls of [Tone.start()] *)
  created : nat;            (** loops created *)
  disposed : nat;           (** loops disposed *)
  toggle : Toggle
}.

Definition with_toggle (t : Toggle) (s : State) : State :=
  {| audioStarted := audioStarted s; musicEnabled := musicEnabled s;
     loops_main := loops_main s; transport := transport s; bpm := bpm s;
     Tone_start := Tone_start s; created := created s; disposed := disposed s;
     toggle := t |}.

(** [startMusic()] *)
Definition startMusic (s : State) : State :=
  if loops_main s then s
  else {| audioStarted := audioStarted s; musicEnabled := musicEnabled s;
          loops_main := true; transport := true; bpm := Some 58;
          Tone_start := Tone_start s; created := S (created s);
          disposed := disposed s; toggle := toggle s |}.

(** [stopMusic()] *)
Definition stopMusic (s : State) : State :=
  {| audioStarted := audioStarted s; musicEnabled := musicEnabled s;
     loops_main := false; transport := false; bpm := bpm s;
     Tone_start := Tone_start s; created := created s;
     disposed := if loops_main s then S (disposed s) else disposed s;
     toggle := toggle s |}.

(** [icon.textContent = i; text.textContent = t], each through a reference
    that may be [null] *)
Definition label (i t : string) (s : State) : Js.outcome State :=
  match icon (toggle s) with
  | None => Thrown "TypeError: icon is null" s
  | Some _ =>
      let s1 := with_toggle {| aria_pressed := aria_pressed (toggle s);
                               icon := Some i; text := text (toggle s) |} s in
      match text (toggle s) with
      | None => Thrown "TypeError: text is null" s1
      | Some _ =>
          Done (with_toggle {| aria_pressed := aria_pressed (toggle s);
                               icon := Some i; text := Some t |} s)
      end
  end.

(** the [click] listener of [setupMusicToggle()] *)
Definition click (s : State) : Js.outcome State :=
  let s1 := if audioStarted s then s
            else {| audioStarted := true; musicEnabled := musicEnabled s;
                    loops_main := loops_main s; transport := transport s; bpm := bpm s;
                    Tone_start := S (Tone_start s); created := created s;
                    disposed := disposed s; toggle := toggle s |} in
  let enabled := negb (musicEnabled s1) in
  let s2 := {| audioStarted := audioStarted s1; musicEnabled := enabled;
               loops_main := loops_main s1; transport := transport s1; bpm := bpm s1;
               Tone_start := Tone_start s1; created := created s1;
               disposed := disposed s1;
               toggle := {| aria_pressed := Some (if enabled then "true" else "false");
                            icon := icon (toggle s1); text := text (toggle s1) |} |} in
  if enabled
  then label "🔊" "Music On" (startMusic s2)
  else label "🔇" "Music Off" (stopMusic s2).

(** a new [AudioEngine] whose [init()] found [#music-toggle] *)
Definition engine (t : Toggle) : State :=
  {| audioStarted := false; musicEnabled := false; loops_main := false;
     transport := false; bpm := None; Tone_start := 0; created := 0; disposed := 0;
     toggle := t |}.

(** [n] clicks; an exception ends a listener, not the page *)
Definition clicks (n : nat) (s : State) : State :=
  Nat.iter n (fun q => Js.state_of (click q)) s.

(** [cleanup()], as far as the music goes *)
Definition cleanup (s : State) : State := stopMusic s.

(** after [n] clicks the engine plays exactly when music is enabled *)
Definition in_tune (n : nat) (s : State) : Prop :=
  musicEnabled s = Nat.odd n
  /\ loops_main s = musicEnabled s
  /\ transport s = musicEnabled s
  /\ audioStarted s = negb (Nat.eqb n 0)
  /\ Tone_start s = Nat.min n 1
  /\ created s = disposed s + (if musicEnabled s then 1 else 0)
  /\ (0 < n -> aria_pressed (toggle s)
               = Some (if musicEnabled s then "true" else "false")).

End Music.

(** ** [App.init] (src/unnamed/part_000, lines 1034-1062)

    The methods of the other classes are seen through whether they return
    or throw; [setupTikTokEmbeds] is the function modelled above. *)

Module AppInit.
Import Page.

Inductive Call :=
| LoaderStart
| ThemeInit
| WaitForDependencies
| AudioInit
| ThreeInit
| CursorInit
| AnimationInit
| ChartInit
| SetupTikTokEmbeds
| LoaderComplete
| ConsoleError.

(** the statements of the [try] block *)
Definition try_block : list Call :=
  [LoaderStart; ThemeInit; WaitForDependencies; AudioInit; ThreeInit; CursorInit;
   AnimationInit; ChartInit; SetupTikTokEmbeds; LoaderComplete].

Record World := mkWorld {
  page : Page;
  calls : list Call    (** the calls made, in order *)
}.

(** one statement: the call is made; it throws when the method does, and
    [await] throws when the promise was rejected *)
Definition statement (throws : Call -> bool) (rejected : option string)
    (env : Part000.Env) (c : Call) (w : World) : Js.outcome World :=
  let w1 := {| page := page w; calls := (calls w ++ [c])%list |} in
  match c with
  | WaitForDependencies =>
      match rejected with
      | Some reason => Js.Thrown reason w1
      | None => Js.Done w1
      end
  | SetupTikTokEmbeds =>
      Js.Done {| page := Part000.setupTikTokEmbeds env (page w1); calls := calls w1 |}
  | ConsoleError => Js.Done w1
  | _ => if throws c then Js.Thrown "Error" w1 else Js.Done w1
  end.

Fixpoint block (throws : Call -> bool) (rejected : option string) (env : Part000.Env)
    (cs : list Call) (w : World) : Js.outcome World :=
  match cs with
  | [] => Js.Done w
  | c :: rest =>
      match statement throws rejected env c w with
      | Js.Done w' => block throws rejected env rest w'
      | Js.Thrown err w' => Js.Thrown err w'
      end
  end.

(** [init()], for a promise of [waitForDependencies()] that resolves
    ([None]) or is rejected with a reason; the result says whether the
    promise of [init()] is fulfilled or rejected *)
Definition init (throws : Call -> bool) (rejected : option string) (env : Part000.Env)
    (p : Page) : Js.outcome World :=
  match block throws rejected env try_block {| page := p; calls := [] |} with
  | Js.Done w => Js.Done w
  | Js.Thrown _ w => block throws rejected env [ConsoleError; LoaderComplete] w
  end.

(** how [waitForDependencies()] ended *)
Definition awaited (s : Dependency.State) : option string :=
  match Dependency.promise s with
  | Dependency.Rejected reason => Some reason
  | _ => None
  end.

(** the calls of the [try] block before [setupTikTokEmbeds()] that may fail *)
Definition before_setup : list Call :=
  [LoaderStart; ThemeInit; AudioInit; ThreeInit; CursorInit; AnimationInit; ChartInit].

Definition is_LoaderComplete (c : Call) : bool :=
  match c with
  | LoaderComplete => true
  | _ => false
  end.

Definition is_SetupTikTokEmbeds (c : Call) : bool :=
  match c with
  | SetupTikTokEmbeds => true
  | _ => false
  end.

End AppInit.

(** ** The second script of src/app.js (lines 1181-1401), statement by
    statement: what has been registered when it ends or fails *)

Module Script.
Export Js(Done, Thrown).

(** the elements the script looks up once, at the top level *)
Record Elements := mkElements {
  backToTop : bool;      (** [.back-to-top] *)
  ring : bool;           (** [.progress-ring-progress] *)
  musicBtn : bool;       (** [#music-toggle] *)
  volSlider : bool;      (** [#volume-slider] *)
  customCursor : bool    (** [#custom-cursor] *)
}.

Record Registered := mkRegistered {
  theme_applied : bool;          (** [data-theme] set and the radios checked *)
  loaderSim : bool;              (** the loader interval *)
  on_load : bool;                (** [window] [load] *)
  on_scroll : nat;               (** [scroll] listeners on the document *)
  ring_dashed : bool;            (** [ring.style.strokeDasharray] assigned *)
  on_backToTop_click : bool;
  on_music_click : bool;
  on_volume_input : bool;
  on_theme_change : bool;        (** [change] on every theme radio *)
  initTikTok_registered : bool;  (** [DOMContentLoaded] runs [initTikTok] *)
  cursor_listeners : bool
}.

Definition nothing : Registered :=
  {| theme_applied := false; loaderSim := false; on_load := false; on_scroll := 0;
     ring_dashed := false; on_backToTop_click := false; on_music_click := false;
     on_volume_input := false; on_theme_change := false;
     initTikTok_registered := false; cursor_listeners := false |}.

(** the top-level statements, in order; a [null] element throws where it is
    dereferenced *)
Definition script (els : Elements) : Js.outcome Registered :=
  let r1 := {| theme_applied := true; loaderSim := true; on_load := true; on_scroll := 1;
               ring_dashed := false; on_backToTop_click := false; on_music_click := false;
               on_volume_input := false; on_theme_change := false;
               initTikTok_registered := false; cursor_listeners := false |} in
  if negb (ring els) then Thrown "TypeError: ring is null" r1
  else
    let r2 := {| theme_applied := true; loaderSim := true; on_load := true; on_scroll := 2;
                 ring_dashed := true; on_backToTop_click := false; on_music_click := false;
                 on_volume_input := false; on_theme_change := false;
                 initTikTok_registered := false; cursor_listeners := false |} in
    if negb (backToTop els) then Thrown "TypeError: backToTop is null" r2
    else if negb (musicBtn els)
    then Thrown "TypeError: musicBtn is null"
           {| theme_applied := true; loaderSim := true; on_load := true; on_scroll := 2;
              ring_dashed := true; on_backToTop_click := true; on_music_click := false;
              on_volume_input := false; on_theme_change := false;
              initTikTok_registered := false; cursor_listeners := false |}
    else if negb (volSlider els)
    then Thrown "TypeError: volSlider is null"
           {| theme_applied := true; loaderSim := true; on_load := true; on_scroll := 2;
              ring_dashed := true; on_backToTop_click := true; on_music_click := true;
              on_volume_input := false; on_theme_change := false;
              initTikTok_registered := false; cursor_listeners := false |}
    else
      Done {| theme_applied := true; loaderSim := true; on_load := true; on_scroll := 2;
              ring_dashed := true; on_backToTop_click := true; on_music_click := true;
              on_volume_input := true; on_theme_change := true;
              initTikTok_registered := true;
              cursor_listeners := customCursor els |}.

(** the cards after [DOMContentLoaded], when the script ran before it *)
Definition cards_after (els : Elements) (env : Cards.Env) (p : Cards.Page) : Cards.Page :=
  if initTikTok_registered (Js.state_of (script els))
  then Js.state_of (Cards.initTikTok env p)
  else p.

End Script.

(** * Facts about the string helpers *)

Module JsFacts.
Import Js.

Lemma split_nonempty sep s : split sep s <> [].
Proof.
  destruct s as [|c r]; simpl; [discriminate|].
  destruct (Ascii.eqb c sep); [discriminate|].
  destruct (split sep r); discriminate.
Qed.

Lemma is_empty_true s : is_empty s = true <-> s = EmptyString.
Proof. destruct s; simpl; split; congruence. Qed.

Lemma is_empty_false s : is_empty s = false <-> s <> EmptyString.
Proof. destruct s; simpl; split; congruence. Qed.

Lemma append_nil_r (s : string) : s ++ EmptyString = s.
Proof. induction s; simpl; congruence. Qed.

Lemma append_assoc (a b c : string) : (a ++ b) ++ c = a ++ (b ++ c).
Proof. induction a; simpl; congruence. Qed.

Lemma take_digits_app d rest :
  all_chars is_digit d = true -> d <> EmptyString ->
  take_digits (d ++ rest) <> EmptyString.
Proof.
  destruct d as [|c d]; [congruence|]. simpl.
  intros H _. apply andb_true_iff in H as [-> _]. discriminate.
Qed.

Lemma take_digits_digits s : all_chars is_digit (take_digits s) = true.
Proof.
  induction s as [|c r IH]; simpl; [reflexivity|].
  destruct (is_digit c) eqn:E; simpl; [rewrite E, IH|]; reflexivity.
Qed.

Lemma strip_prefix_app p s : strip_prefix p (p ++ s) = Some s.
Proof.
  induction p as [|a p IH]; simpl; [reflexivity|].
  rewrite Ascii.eqb_refl. exact IH.
Qed.

Lemma match_video_cons c r :
  match_video (String c r) =
  match strip_prefix "video/" (String c r) with
  | Some rest =>
      match take_digits rest with
      | EmptyString => match_video r
      | d => Some d
      end
  | None => match_video r
  end.
Proof. reflexivity. Qed.

(** The matcher finds an identifier in every URL that holds one. *)
Lemma match_video_complete url :
  contains_video_id url -> exists v, match_video url = Some v /\ v <> EmptyString.
Proof.
  intros (pre & d & rest & -> & Hne & Hd).
  induction pre as [|c pre IH].
  - change (EmptyString ++ "video/" ++ d ++ rest) with (String "v" ("ideo/" ++ d ++ rest)).
    rewrite match_video_cons.
    change (String "v" ("ideo/" ++ d ++ rest)) with ("video/" ++ (d ++ rest)).
    rewrite strip_prefix_app.
    pose proof (take_digits_app d rest Hd Hne) as Ht.
    destruct (take_digits (d ++ rest)) eqn:E; [congruence|].
    eexists; split; [reflexivity|discriminate].
  - change (String c pre ++ "video/" ++ d ++ rest)
      with (String c (pre ++ "video/" ++ d ++ rest)).
    rewrite match_video_cons.
    destruct (strip_prefix "video/" (String c (pre ++ "video/" ++ d ++ rest))) as [r|];
      [|exact IH].
    destruct (take_digits r) eqn:E; [exact IH|].
    eexists; split; [reflexivity|discriminate].
Qed.

(** What the matcher returns is a non-empty run of digits. *)
Lemma match_video_digits url v :
  match_video url = Some v -> v <> EmptyString /\ all_chars is_digit v = true.
Proof.
  induction url as [|c r IH]; [discriminate|].
  rewrite match_video_cons.
  destruct (strip_prefix "video/" (String c r)) as [rest|]; [|exact IH].
  pose proof (take_digits_digits rest) as Hd.
  destruct (take_digits rest) eqn:E; [exact IH|].
  intros [= <-]. split; [discriminate|exact Hd].
Qed.

Lemma strip_prefix_Some p s r : strip_prefix p s = Some r -> s = p ++ r.
Proof.
  revert s. induction p as [|a p IH]; intros [|b s]; simpl; try congruence.
  destruct (Ascii.eqb_spec a b) as [->|]; [|discriminate].
  intros H. rewrite (IH _ H). reflexivity.
Qed.

Lemma take_digits_prefix s : exists rest, s = take_digits s ++ rest.
Proof.
  induction s as [|c r [rest IH]]; simpl; [exists EmptyString; reflexivity|].
  destruct (is_digit c); [exists rest; simpl; congruence|exists (String c r); reflexivity].
Qed.

(** A match is an occurrence of the pattern. *)
Lemma match_video_sound url v : match_video url = Some v -> contains_video_id url.
Proof.
  induction url as [|c r IH]; [discriminate|].
  rewrite match_video_cons.
  assert (contains_video_id r -> contains_video_id (String c r)) as Hshift.
  { intros (pre & d & rest & -> & Hd). exists (String c pre), d, rest. split; [reflexivity|exact Hd]. }
  destruct (strip_prefix "video/" (String c r)) as [rest|] eqn:Ep; [|intros H; exact (Hshift (IH H))].
  pose proof (take_digits_digits rest) as Hd.
  destruct (take_digits_prefix rest) as [rest' Hr].
  destruct (take_digits rest) as [|a d] eqn:Et; [intros H; exact (Hshift (IH H))|].
  intros _. exists EmptyString, (String a d), rest'.
  split; [|split; [discriminate|exact Hd]].
  rewrite (strip_prefix_Some _ _ _ Ep), Hr. reflexivity.
Qed.

Lemma match_video_None url : ~ contains_video_id url -> match_video url = None.
Proof.
  intros H. destruct (match_video url) as [v|] eqn:E; [|reflexivity].
  exfalso. exact (H (match_video_sound _ _ E)).
Qed.

Lemma digits_no_sep sep d :
  is_digit sep = false -> all_chars is_digit d = true ->
  all_chars (fun c => negb (Ascii.eqb c sep)) d = true.
Proof.
  intros Hsep. induction d as [|c r IH]; [reflexivity|]. simpl.
  intros [Hc Hr]%andb_true_iff. rewrite (IH Hr), andb_true_r.
  destruct (Ascii.eqb_spec c sep) as [->|]; [congruence|reflexivity].
Qed.

Lemma all_chars_app p a b :
  all_chars p (a ++ b) = all_chars p a && all_chars p b.
Proof. induction a as [|c a IH]; simpl; [reflexivity|]. rewrite IH, andb_assoc. reflexivity. Qed.

(** [extractVideoId] is the part of the last segment before its first ['?']. *)
Lemma extractVideoId_last_segment url :
  extractVideoId url = match split "?" (last_segment url) with
                       | h :: _ => h
                       | [] => EmptyString
                       end.
Proof.
  unfold extractVideoId, last_segment.
  destruct (last (split "/" url)); reflexivity.
Qed.

Lemma last_cons_nonempty {A} (x : A) l : l <> [] -> last (x :: l) = last l.
Proof. destruct l; [congruence|reflexivity]. Qed.

Lemma all_chars_split_self sep s :
  all_chars (fun c => negb (Ascii.eqb c sep)) s = true -> split sep s = [s].
Proof.
  induction s as [|c r IH]; simpl; [reflexivity|].
  intros H. apply andb_true_iff in H as [Hc Hr].
  apply negb_true_iff in Hc. rewrite Hc, (IH Hr). reflexivity.
Qed.

Lemma split_app_sep_length sep a b :
  2 <= length (split sep (a ++ String sep b)).
Proof.
  induction a as [|c a IH]; simpl.
  - rewrite Ascii.eqb_refl. simpl.
    pose proof (split_nonempty sep b). destruct (split sep b); simpl; [congruence|lia].
  - destruct (Ascii.eqb c sep); simpl; [lia|].
    destruct (split sep (a ++ String sep b)); simpl in *; lia.
Qed.

Lemma last_split_app_sep sep a b :
  last (split sep (a ++ String sep b)) = last (split sep b).
Proof.
  induction a as [|c a IH]; simpl.
  - rewrite Ascii.eqb_refl. apply last_cons_nonempty, split_nonempty.
  - destruct (Ascii.eqb c sep).
    + rewrite last_cons_nonempty by apply split_nonempty. exact IH.
    + pose proof (split_app_sep_length sep a b) as Hl.
      destruct (split sep (a ++ String sep b)) as [|h [|h' t]]; simpl in Hl; try lia.
      exact IH.
Qed.

(** A URL that ends in ['/'] and an identifier free of ['/'] and ['?']
    yields that identifier; a query string after it is cut off. *)
Lemma extractVideoId_suffix pre d q :
  all_chars (fun c => negb (Ascii.eqb c "/")) (d ++ q) = true ->
  all_chars (fun c => negb (Ascii.eqb c "?")) d = true ->
  (q = EmptyString \/ exists q', q = String "?" q') ->
  extractVideoId (pre ++ "/" ++ d ++ q) = d.
Proof.
  intros Hs Hq Hcut. unfold extractVideoId.
  change (pre ++ "/" ++ d ++ q) with (pre ++ String "/" (d ++ q)).
  rewrite last_split_app_sep, (all_chars_split_self _ _ Hs). simpl.
  destruct Hcut as [-> | [q' ->]].
  - rewrite append_nil_r, (all_chars_split_self _ _ Hq). reflexivity.
  - clear Hs. induction d as [|c d IH]; simpl; [reflexivity|].
    simpl in Hq. apply andb_true_iff in Hq as [Hc Hd].
    apply negb_true_iff in Hc. rewrite Hc.
    specialize (IH Hd).
    destruct (split "?" (d ++ String "?" q')); simpl in *; congruence.
Qed.

Lemma split_no_sep sep s :
  Forall (fun x => all_chars (fun c => negb (Ascii.eqb c sep)) x = true) (split sep s).
Proof.
  induction s as [|c r IH]; simpl; [repeat constructor|].
  destruct (Ascii.eqb c sep) eqn:E; [constructor; [reflexivity|exact IH]|].
  destruct (split sep r) as [|h t]; [repeat constructor; simpl; rewrite E; reflexivity|].
  inversion IH; subst. constructor; [simpl; rewrite E; simpl; assumption|assumption].
Qed.

Lemma split_keeps p sep s :
  all_chars p s = true -> Forall (fun x => all_chars p x = true) (split sep s).
Proof.
  induction s as [|c r IH]; simpl; [repeat constructor|].
  intros H. apply andb_true_iff in H as [Hc Hr]. specialize (IH Hr).
  destruct (Ascii.eqb c sep); [constructor; [reflexivity|exact IH]|].
  destruct (split sep r) as [|h t]; [repeat constructor; simpl; rewrite Hc; reflexivity|].
  inversion IH; subst. constructor; [simpl; rewrite Hc; simpl; assumption|assumption].
Qed.

(** The identifier [load] extracts holds neither ['/'] nor ['?']. *)
Lemma extractVideoId_clean url :
  all_chars (fun c => negb (Ascii.eqb c "/")) (extractVideoId url) = true
  /\ all_chars (fun c => negb (Ascii.eqb c "?")) (extractVideoId url) = true.
Proof.
  unfold extractVideoId.
  destruct (last (split "/" url)) as [seg|] eqn:E; [|split; reflexivity].
  assert (all_chars (fun c => negb (Ascii.eqb c "/")) seg = true) as Hseg.
  { apply last_Some in E as [l' E].
    pose proof (split_no_sep "/" url) as H. rewrite E in H.
    apply Forall_app in H as [_ H]. inversion H; assumption. }
  pose proof (split_keeps _ "?" seg Hseg) as H1.
  pose proof (split_no_sep "?" seg) as H2.
  destruct (split "?" seg); [split; reflexivity|].
  inversion H1; inversion H2; subst. split; assumption.
Qed.

End JsFacts.

(** * Facts about the URL model *)

Module UrlFacts.
Import Js Url JsFacts.

(** what the parser tests on a byte, all false on an unreserved one *)
Lemma unreserved_plain c :
  unreserved c = true ->
  (nat_of_ascii c <=? 32)%nat = false
  /\ code_in c [9; 10; 13] = false
  /\ Ascii.eqb c "#" = false
  /\ Ascii.eqb c "\" = false
  /\ path_set c = false
  /\ Ascii.eqb c "." = false
  /\ Ascii.eqb c "%" = false.
Proof.
  destruct c as [[] [] [] [] [] [] [] []]; vm_compute; intros H;
    first [discriminate H | repeat split].
Qed.

Lemma all_chars_cons p c r :
  all_chars p (String c r) = true <-> p c = true /\ all_chars p r = true.
Proof. apply andb_true_iff. Qed.

Lemma strip_cons c r :
  strip_trailing_c0_space (String c r) =
  match strip_trailing_c0_space r with
  | EmptyString => if (nat_of_ascii c <=? 32)%nat then EmptyString else String c EmptyString
  | r' => String c r'
  end.
Proof. reflexivity. Qed.

Lemma remove_tab_newline_cons c r :
  remove_tab_newline (String c r) =
  if code_in c [9; 10; 13] then remove_tab_newline r
  else String c (remove_tab_newline r).
Proof. reflexivity. Qed.

Lemma cut_fragment_cons c r :
  cut_fragment (String c r) =
  if Ascii.eqb c "#" then (EmptyString, Some r)
  else let '(p, f) := cut_fragment r in (String c p, f).
Proof. reflexivity. Qed.

Lemma percent_encode_cons set c r :
  percent_encode set (String c r) =
  (if set c then percent_encode_byte c else String c EmptyString)
    ++ percent_encode set r.
Proof. reflexivity. Qed.

Lemma unreserved_strip id :
  all_chars unreserved id = true -> strip_trailing_c0_space id = id.
Proof.
  induction id as [|c r IH]; [reflexivity|].
  intros [Hc Hr]%all_chars_cons. rewrite strip_cons, (IH Hr).
  destruct (unreserved_plain c Hc) as (-> & _).
  destruct r; reflexivity.
Qed.

Lemma unreserved_no_tab id :
  all_chars unreserved id = true -> remove_tab_newline id = id.
Proof.
  induction id as [|c r IH]; [reflexivity|].
  intros [Hc Hr]%all_chars_cons. rewrite remove_tab_newline_cons.
  destruct (unreserved_plain c Hc) as (_ & -> & _).
  rewrite (IH Hr). reflexivity.
Qed.

Lemma unreserved_no_fragment id :
  all_chars unreserved id = true -> cut_fragment id = (id, None).
Proof.
  induction id as [|c r IH]; [reflexivity|].
  intros [Hc Hr]%all_chars_cons. rewrite cut_fragment_cons.
  destruct (unreserved_plain c Hc) as (_ & _ & -> & _).
  rewrite (IH Hr). reflexivity.
Qed.

Lemma unreserved_one_segment id :
  all_chars unreserved id = true -> split "\" id = [id].
Proof.
  intros Hid. apply all_chars_split_self.
  induction id as [|c r IH]; [reflexivity|].
  apply all_chars_cons in Hid as [Hc Hr]. apply all_chars_cons.
  destruct (unreserved_plain c Hc) as (_ & _ & _ & -> & _).
  split; [reflexivity|exact (IH Hr)].
Qed.

Lemma unreserved_not_encoded id :
  all_chars unreserved id = true -> percent_encode path_set id = id.
Proof.
  induction id as [|c r IH]; [reflexivity|].
  intros [Hc Hr]%all_chars_cons. rewrite percent_encode_cons.
  destruct (unreserved_plain c Hc) as (_ & _ & _ & _ & -> & _).
  rewrite (IH Hr). reflexivity.
Qed.

Lemma unreserved_not_dots id :
  all_chars unreserved id = true -> single_dot id = false /\ double_dot id = false.
Proof.
  destruct id as [|c r]; [split; reflexivity|].
  intros [Hc _]%all_chars_cons.
  destruct (unreserved_plain c Hc) as (_ & _ & _ & _ & _ & Hdot & Hpct).
  apply Ascii.eqb_neq in Hdot, Hpct.
  split; apply bool_decide_eq_false; intros Hin;
    repeat (apply elem_of_cons in Hin as [Hin|Hin]; [congruence|]);
    inversion Hin.
Qed.

(** On an identifier of unreserved bytes the parser only appends a segment. *)
Lemma embed_v2_unreserved id :
  all_chars unreserved id = true ->
  embed_v2 id = {| origin := "https://www.tiktok.com";
                   pathname := ["embed"; "v2"; id];
                   searchParams := [];
                   hash := None |}.
Proof.
  intros Hid. unfold embed_v2.
  rewrite (unreserved_strip _ Hid), (unreserved_no_tab _ Hid),
    (unreserved_no_fragment _ Hid), (unreserved_one_segment _ Hid).
  simpl. rewrite (unreserved_not_encoded _ Hid).
  destruct (unreserved_not_dots _ Hid) as [-> ->]. reflexivity.
Qed.

Lemma digits_unreserved d : all_chars is_digit d = true -> all_chars unreserved d = true.
Proof.
  induction d as [|c r IH]; [reflexivity|].
  intros [Hc Hr]%all_chars_cons. apply all_chars_cons.
  split; [unfold unreserved; rewrite Hc; reflexivity|exact (IH Hr)].
Qed.

End UrlFacts.

(** * The iframe URL of the two [load] methods *)

Module EmbedUrlFacts.
Import Js Url JsFacts UrlFacts.

Lemma pretty_zero : pretty 0 = "0".
Proof. vm_compute. reflexivity. Qed.

Lemma pretty_one : pretty 1 = "1".
Proof. vm_compute. reflexivity. Qed.

Lemma embedUrl_unreserved_002 id :
  all_chars unreserved id = true ->
  toString (Part002.embedUrl id)
  = "https://www.tiktok.com/embed/v2/" ++ id
      ++ "?autoplay=1&muted=1&controls=1&rel=0&loop=0".
Proof.
  intros Hid. unfold Part002.embedUrl, Part002.LOOP, Part002.REL, Part002.CONTROLS,
    Part002.MUTED, Part002.AUTOPLAY.
  rewrite pretty_zero, pretty_one, (embed_v2_unreserved _ Hid).
  unfold toString. simpl. rewrite append_nil_r. reflexivity.
Qed.

Lemma embedUrl_unreserved_000 id :
  all_chars unreserved id = true ->
  toString (Part000.embedUrl id)
  = "https://www.tiktok.com/embed/v2/" ++ id ++ "?autoplay=1&muted=1".
Proof.
  intros Hid. unfold Part000.embedUrl.
  rewrite (embed_v2_unreserved _ Hid).
  unfold toString. simpl. rewrite append_nil_r. reflexivity.
Qed.

End EmbedUrlFacts.

(** * Facts about the document model *)

Module DomFacts.
Import Dom.

Lemma Node_ind' (P : Node -> Prop) :
  (forall a kids, Forall P kids -> P (Elem a kids)) ->
  (forall s, P (Text s)) ->
  (forall f, P (FrameRef f)) ->
  forall n, P n.
Proof.
  intros He Ht Hf. fix IH 1. intros [a kids|s|f]; [apply He|apply Ht|apply Hf].
  induction kids as [|k r IHr]; constructor; [apply IH|exact IHr].
Qed.

Lemma has_class_query cls n : has_class cls n = true -> query_node cls n = Some n.
Proof. destruct n as [a kids| |]; simpl; [|discriminate..]. intros ->. reflexivity. Qed.

Lemma frames_collector : collector frames_node.
Proof. exists (fun _ => []). reflexivity. Qed.

Lemma hrefs_collector : collector hrefs_node.
Proof.
  exists (fun a => if String.eqb (tag a) "a"
                   then match get_assoc "href" (attrs a) with Some h => [h] | None => [] end
                   else []).
  reflexivity.
Qed.

(** what a hit of [update_node] or [update_first] amounts to *)
Definition hit (cls : string) (f : Node -> Node) (m : Node)
    (found : option Node) (h_of : forall B, (Node -> list B) -> list B * list B) : Prop :=
  has_class cls m = true
  /\ (has_class cls (f m) = true -> found = Some (f m))
  /\ (forall B (h : Node -> list B), collector h ->
        swapped f m h (fst (h_of B h)) (snd (h_of B h))).

Lemma update_node_spec cls f n :
  match query_node cls n with
  | None => update_node cls f n = None
  | Some m =>
      exists n', update_node cls f n = Some n'
        /\ hit cls f m (query_node cls n') (fun B h => (h n, h n'))
  end.
Proof.
  induction n as [a kids IH|s|x] using Node_ind'; simpl; [|reflexivity..].
  destruct (bool_decide (cls ∈ classes a)) eqn:Ha.
  - exists (f (Elem a kids)). split; [reflexivity|]. split; [simpl; exact Ha|].
    split; [apply has_class_query|].
    intros B h _. exists [], []. simpl. rewrite !app_nil_r. split; reflexivity.
  - assert (match first_some (query_node cls) kids with
            | None => update_first (update_node cls f) kids = None
            | Some m =>
                exists kids', update_first (update_node cls f) kids = Some kids'
                  /\ hit cls f m (first_some (query_node cls) kids')
                       (fun B h => (concat (map h kids), concat (map h kids')))
            end) as Hk.
    { induction IH as [|k r Hk _ IHr]; simpl; [reflexivity|].
      destruct (query_node cls k) as [m|] eqn:Eq.
      - destruct Hk as (k' & -> & Hm & Hq & Hc). exists (k' :: r).
        split; [reflexivity|]. split; [exact Hm|]. split.
        + intros Hf. simpl. rewrite (Hq Hf). reflexivity.
        + intros B h Hh. destruct (Hc B h Hh) as (l1 & l2 & E1 & E2). simpl in *.
          exists l1, (l2 ++ concat (map h r))%list. rewrite E1, E2, <- !app_assoc.
          split; reflexivity.
      - rewrite Hk. destruct (first_some (query_node cls) r) as [m|] eqn:Er.
        + destruct IHr as (r' & -> & Hm & Hq & Hc). exists (k :: r').
          split; [reflexivity|]. split; [exact Hm|]. split.
          * intros Hf. simpl. rewrite Eq. exact (Hq Hf).
          * intros B h Hh. destruct (Hc B h Hh) as (l1 & l2 & E1 & E2). simpl in *.
            exists (h k ++ l1)%list, l2. rewrite E1, E2, <- !app_assoc. split; reflexivity.
        + rewrite IHr. reflexivity. }
    destruct (first_some (query_node cls) kids) as [m|].
    + destruct Hk as (kids' & -> & Hm & Hq & Hc). exists (Elem a kids').
      split; [reflexivity|]. split; [exact Hm|]. split.
      * intros Hf. simpl. rewrite Ha. exact (Hq Hf).
      * intros B h [h0 Hh]. destruct (Hc B h (ex_intro _ h0 Hh)) as (l1 & l2 & E1 & E2).
        simpl in *. exists (h0 a ++ l1)%list, l2. rewrite !Hh, E1, E2, <- !app_assoc.
        split; reflexivity.
    + rewrite Hk. reflexivity.
Qed.

Lemma update_first_spec cls f forest :
  match query cls forest with
  | None => update_first (update_node cls f) forest = None
  | Some m =>
      exists forest', update_first (update_node cls f) forest = Some forest'
        /\ hit cls f m (query cls forest')
             (fun B h => (concat (map h forest), concat (map h forest')))
  end.
Proof.
  unfold query. induction forest as [|k r IHr]; simpl; [reflexivity|].
  pose proof (update_node_spec cls f k) as Hk.
  destruct (query_node cls k) as [m|] eqn:Eq.
  - destruct Hk as (k' & -> & Hm & Hq & Hc). exists (k' :: r).
    split; [reflexivity|]. split; [exact Hm|]. split.
    + intros Hf. simpl. rewrite (Hq Hf). reflexivity.
    + intros B h Hh. destruct (Hc B h Hh) as (l1 & l2 & E1 & E2). simpl in *.
      exists l1, (l2 ++ concat (map h r))%list. rewrite E1, E2, <- !app_assoc.
      split; reflexivity.
  - rewrite Hk. destruct (first_some (query_node cls) r) as [m|] eqn:Er.
    + destruct IHr as (r' & -> & Hm & Hq & Hc). exists (k :: r').
      split; [reflexivity|]. split; [exact Hm|]. split.
      * intros Hf. simpl. rewrite Eq. exact (Hq Hf).
      * intros B h Hh. destruct (Hc B h Hh) as (l1 & l2 & E1 & E2). simpl in *.
        exists (h k ++ l1)%list, l2. rewrite E1, E2, <- !app_assoc. split; reflexivity.
    + rewrite IHr. reflexivity.
Qed.

(** no element of the class: the write through [null] never happens *)
Lemma update_miss cls f forest :
  query cls forest = None -> update cls f forest = forest.
Proof.
  intros H. pose proof (update_first_spec cls f forest) as S. rewrite H in S.
  unfold update. rewrite S. reflexivity.
Qed.

(** the first element of the class becomes [f m]; everything else stays *)
Lemma update_hit cls f forest m :
  query cls forest = Some m ->
  has_class cls m = true
  /\ (has_class cls (f m) = true -> query cls (update cls f forest) = Some (f m))
  /\ (forall B (h : Node -> list B), collector h ->
        swapped f m h (concat (map h forest)) (concat (map h (update cls f forest)))).
Proof.
  intros H. pose proof (update_first_spec cls f forest) as S. rewrite H in S.
  destruct S as (forest' & E & S). unfold update. rewrite E. exact S.
Qed.

Lemma has_class_elem cls m :
  has_class cls m = true -> exists a kids, m = Elem a kids /\ cls ∈ classes a.
Proof.
  destruct m as [a kids| |]; simpl; [|discriminate..].
  intros H. exists a, kids. split; [reflexivity|]. exact (bool_decide_eq_true_1 _ H).
Qed.

Lemma query_elem cls forest m :
  query cls forest = Some m -> exists a kids, m = Elem a kids /\ cls ∈ classes a.
Proof.
  intros H. apply (has_class_elem cls). exact (proj1 (update_hit cls id forest m H)).
Qed.

(** a write to the attributes or listeners of one element moves no iframe *)
Lemma frames_in_update_attrs cls g forest :
  frames_in (update cls (map_attrs g) forest) = frames_in forest.
Proof.
  destruct (query cls forest) as [m|] eqn:E.
  - destruct (update_hit cls (map_attrs g) forest m E) as (_ & _ & Hc).
    destruct (Hc _ frames_node frames_collector) as (l1 & l2 & E1 & E2).
    unfold frames_in. rewrite E1, E2. destruct m; reflexivity.
  - rewrite (update_miss _ _ _ E). reflexivity.
Qed.

(** the share of a node found by [query] is part of the whole *)
Lemma query_share {B} (h : Node -> list B) cls forest m :
  collector h -> query cls forest = Some m ->
  exists l1 l2, concat (map h forest) = (l1 ++ h m ++ l2)%list.
Proof.
  intros Hh E. destruct (update_hit cls id forest m E) as (_ & _ & Hc).
  destruct (Hc _ h Hh) as (l1 & l2 & E1 & _). eauto.
Qed.

Lemma frames_in_nil_query cls forest m :
  frames_in forest = [] -> query cls forest = Some m -> frames_node m = [].
Proof.
  intros H E. destruct (query_share frames_node cls forest m frames_collector E)
    as (l1 & l2 & E1).
  unfold frames_in in H. rewrite E1 in H.
  apply app_eq_nil in H as [_ H]. apply app_eq_nil in H as [H _]. exact H.
Qed.

(** a write that keeps the class list of an element keeps what [query]
    finds for any class, up to that write *)
Lemma query_update_attrs c1 c2 g forest :
  (forall a, classes (g a) = classes a) ->
  is_Some (query c2 (update c1 (map_attrs g) forest)) <-> is_Some (query c2 forest).
Proof.
  intros Hg.
  assert (forall n n', update_node c1 (map_attrs g) n = Some n' ->
            (is_Some (query_node c2 n') <-> is_Some (query_node c2 n))) as Hn.
  { induction n as [a kids IH|s|x] using Node_ind'; simpl; [|discriminate..].
    intros n'. destruct (bool_decide (c1 ∈ classes a)).
    - intros [= <-]. simpl. rewrite Hg.
      destruct (bool_decide (c2 ∈ classes a)); [split; eauto|reflexivity].
    - destruct (update_first (update_node c1 (map_attrs g)) kids) as [kids'|] eqn:Ek;
        [|discriminate].
      intros [= <-]. simpl.
      destruct (bool_decide (c2 ∈ classes a)); [split; eauto|].
      revert kids' Ek. induction IH as [|k r Hk _ IHr]; simpl; [discriminate|].
      intros kids'. destruct (update_node c1 (map_attrs g) k) as [k'|] eqn:Ek'.
      + intros [= <-]. simpl. specialize (Hk k' eq_refl).
        destruct (query_node c2 k'), (query_node c2 k);
          try (split; eauto; fail);
          [destruct Hk as [Hk _]; destruct (Hk ltac:(eauto)) as [? [=]]
          |destruct Hk as [_ Hk]; destruct (Hk ltac:(eauto)) as [? [=]]].
      + destruct (update_first (update_node c1 (map_attrs g)) r) as [r'|]; [|discriminate].
        intros [= <-]. simpl. destruct (query_node c2 k); [split; eauto|].
        apply IHr. reflexivity. }
  unfold update, query.
  induction forest as [|k r IHr]; simpl; [reflexivity|].
  destruct (update_node c1 (map_attrs g) k) as [k'|] eqn:Ek; simpl.
  - specialize (Hn k k' Ek).
    destruct (query_node c2 k'), (query_node c2 k);
      try (split; eauto; fail);
      [destruct Hn as [Hn _]; destruct (Hn ltac:(eauto)) as [? [=]]
      |destruct Hn as [_ Hn]; destruct (Hn ltac:(eauto)) as [? [=]]].
  - destruct (update_first (update_node c1 (map_attrs g)) r) as [r'|]; simpl in *.
    + destruct (query_node c2 k); [split; eauto|exact IHr].
    + reflexivity.
Qed.

Lemma get_remove_assoc name l : get_assoc name (remove_assoc name l) = None.
Proof.
  induction l as [|[k v] r IH]; simpl; [reflexivity|].
  unfold remove_assoc in *. rewrite filter_cons. simpl.
  destruct (String.eqb k name) eqn:E; simpl; [exact IH|].
  rewrite E. exact IH.
Qed.

End DomFacts.

(** * The [TikTokEmbed] class of part_002 *)

Module Part002Facts.
Import Dom Page Part002 JsFacts DomFacts.

Lemma init_embeds e p : embeds (init e p) = embeds p.
Proof.
  unfold init. destruct (embeds p !! e) as [E|]; [|reflexivity].
  destruct (containers p !! container E); reflexivity.
Qed.

Lemma init_frames e p : frames (init e p) = frames p.
Proof.
  unfold init. destruct (embeds p !! e) as [E|]; [|reflexivity].
  destruct (containers p !! container E); reflexivity.
Qed.

Lemma init_rest e p :
  console (init e p) = console p /\ observed (init e p) = observed p
  /\ timers (init e p) = timers p /\ length (containers (init e p)) = length (containers p).
Proof.
  unfold init. destruct (embeds p !! e) as [E|]; [|repeat split].
  destruct (containers p !! container E); simpl; repeat split.
  apply length_insert.
Qed.

(** [init()] moves no iframe. *)
Lemma init_frames_of e c p : frames_of c (init e p) = frames_of c p.
Proof.
  unfold init. destruct (embeds p !! e) as [E|]; [|reflexivity].
  destruct (containers p !! container E) as [C|] eqn:EC; [|reflexivity].
  unfold frames_of. simpl.
  destruct (decide (c = container E)) as [->|Hne].
  - rewrite list_lookup_insert_eq by (eapply lookup_lt_Some; eassumption).
    rewrite EC. simpl. rewrite frames_in_update_attrs.
    destruct (Js.truthy (posterSrc E)); [apply frames_in_update_attrs|reflexivity].
  - rewrite list_lookup_insert_ne by congruence. reflexivity.
Qed.

(** [init()] keeps every [data-*] attribute, press card and expando. *)
Lemma init_container e c p :
  (dataset <$> containers (init e p) !! c) = (dataset <$> containers p !! c)
  /\ (press_card <$> containers (init e p) !! c) = (press_card <$> containers p !! c)
  /\ (tiktokEmbed <$> containers (init e p) !! c) = (tiktokEmbed <$> containers p !! c).
Proof.
  unfold init. destruct (embeds p !! e) as [E|]; [|repeat split].
  destruct (containers p !! container E) as [C|] eqn:EC; [|repeat split].
  simpl. destruct (decide (c = container E)) as [->|Hne].
  - rewrite list_lookup_insert_eq by (eapply lookup_lt_Some; eassumption).
    rewrite EC. repeat split.
  - rewrite list_lookup_insert_ne by congruence. repeat split.
Qed.

(** What a first [load()] with an extractable identifier does. *)
Lemma load_unhydrated e p E u :
  embeds p !! e = Some E -> isLoaded E = false -> url E = Some u ->
  Js.extractVideoId u <> EmptyString ->
  let f := length (frames p) in
  load e p =
  Done (with_embeds
          (<[e := with_isLoaded true (with_iframe (Some f) E)]> (embeds p))
          (with_containers
             (alter (with_children [frameWrapper f]) (container E) (containers p))
             (with_frames (frames p ++ [new_iframe e E (Js.extractVideoId u)]) p))).
Proof.
  intros HE Hl Hu Hid. unfold load. rewrite HE, Hl, Hu.
  apply is_empty_false in Hid. rewrite Hid. reflexivity.
Qed.

Lemma load_hydrated e p E :
  embeds p !! e = Some E -> isLoaded E = true -> load e p = Done p.
Proof. intros HE Hl. unfold load. rewrite HE, Hl. reflexivity. Qed.

Lemma load_unextractable e p E u :
  embeds p !! e = Some E -> isLoaded E = false -> url E = Some u ->
  Js.extractVideoId u = EmptyString ->
  load e p = Done (log (Warn "Invalid TikTok URL:" u) p).
Proof.
  intros HE Hl Hu Hid. unfold load. rewrite HE, Hl, Hu, Hid. reflexivity.
Qed.

Lemma unload_unhydrated e p E :
  embeds p !! e = Some E -> isLoaded E = false -> unload e p = Done p.
Proof. intros HE Hl. unfold unload. rewrite HE, Hl. reflexivity. Qed.

Lemma length_cleared E p : length (cleared E p) = length (frames p).
Proof. unfold cleared. destruct (iframe E); [apply length_alter|reflexivity]. Qed.

(** What [unload()] does to a hydrated object. *)
Lemma unload_hydrated e p E :
  embeds p !! e = Some E -> isLoaded E = true ->
  unload e p =
  Done (init e
          (with_embeds
             (<[e := with_isLoaded false (with_iframe None E)]> (embeds p))
             (with_containers
                (alter (with_children (placed (length (frames p)) (poster_markup p E)))
                       (container E) (containers p))
                (with_frames (cleared E p ++ made (poster_markup p E)) p)))).
Proof.
  intros HE Hl. unfold unload. rewrite HE, Hl. simpl. unfold cleared.
  destruct p, (iframe E); simpl; rewrite ?length_alter; reflexivity.
Qed.

(** plain strings stand in the markup as they are *)
Lemma poster_markup_plain p E :
  Js.plain (title E) = true -> Js.plain (Js.interpolate (posterSrc E)) = true ->
  poster_markup p E = {| forest := poster_nodes E; made := [] |}.
Proof. intros Ht Hs. unfold poster_markup. rewrite Ht, Hs. reflexivity. Qed.

Lemma with_frames_same p : with_frames (frames p) p = p.
Proof. destruct p. reflexivity. Qed.

(** With a plain title and poster source [unload()] writes the elements of
    its template and adds no iframe to the store. *)
Lemma unload_plain e p E :
  embeds p !! e = Some E -> isLoaded E = true ->
  Js.plain (title E) = true -> Js.plain (Js.interpolate (posterSrc E)) = true ->
  unload e p =
  Done (init e
          (with_embeds
             (<[e := with_isLoaded false (with_iframe None E)]> (embeds p))
             (with_containers
                (alter (with_children (poster_nodes E)) (container E) (containers p))
                (with_frames (cleared E p) p)))).
Proof.
  intros HE Hl Ht Hs. rewrite (unload_hydrated _ _ _ HE Hl).
  rewrite (poster_markup_plain p E Ht Hs). simpl made. rewrite app_nil_r.
  reflexivity.
Qed.

Lemma frames_of_alter_children c k cs q :
  containers q = alter (with_children k) c cs -> c < length cs ->
  frames_of c q = frames_in k.
Proof.
  intros Hq Hc. unfold frames_of. rewrite Hq.
  destruct (lookup_lt_is_Some_2 _ _ Hc) as [C HC].
  rewrite list_lookup_alter_eq, HC. reflexivity.
Qed.

Lemma one_or_none_call e c p :
  plain_poster e p -> one_or_none e p -> one_or_none e (call e c p).
Proof.
  intros (E0 & HE0 & Ht & Hs) (E & HE & Hc & Hinv).
  assert (E0 = E) as -> by congruence.
  destruct c; simpl.
  - (* load *)
    destruct (isLoaded E) eqn:Hl.
    { rewrite (load_hydrated _ _ _ HE Hl). exists E. rewrite Hl. auto. }
    destruct (url E) as [u|] eqn:Hu.
    2:{ unfold load. rewrite HE, Hl, Hu. exists E. rewrite Hl. auto. }
    destruct (Js.is_empty (Js.extractVideoId u)) eqn:Hid.
    { apply is_empty_true in Hid. rewrite (load_unextractable _ _ _ _ HE Hl Hu Hid).
      exists E. rewrite Hl. auto. }
    apply is_empty_false in Hid. rewrite (load_unhydrated _ _ _ _ HE Hl Hu Hid).
    eexists. simpl. split; [apply list_lookup_insert_eq; eapply lookup_lt_Some; eassumption|].
    simpl. rewrite length_alter. split; [exact Hc|].
    exists (length (frames p)), u. split; [reflexivity|]. split.
    { erewrite (frames_of_alter_children _ _ (containers p)); [|reflexivity|exact Hc].
      reflexivity. }
    rewrite length_app. simpl. split; [lia|]. split; [exact Hu|exact Hid].
  - (* unload *)
    destruct (isLoaded E) eqn:Hl.
    2:{ rewrite (unload_unhydrated _ _ _ HE Hl). exists E. rewrite Hl. auto. }
    rewrite (unload_plain _ _ _ HE Hl Ht Hs). simpl.
    match goal with |- one_or_none e (init e ?q) => set (q0 := q) end.
    eexists. rewrite init_embeds.
    split; [apply list_lookup_insert_eq; eapply lookup_lt_Some; eassumption|].
    destruct (init_rest e q0) as (_ & _ & _ & ->).
    simpl. rewrite length_alter. split; [exact Hc|]. split; [reflexivity|].
    rewrite init_frames_of.
    erewrite (frames_of_alter_children _ _ (containers p)); [|reflexivity|exact Hc].
    reflexivity.
Qed.

(** What a call keeps of every object: its container and the strings it
    was constructed with. *)
Lemma call_keeps_fields e' c p e E :
  embeds p !! e = Some E ->
  exists E', embeds (call e' c p) !! e = Some E'
    /\ container E' = container E /\ url E' = url E
    /\ title E' = title E /\ posterSrc E' = posterSrc E
    /\ (e <> e' -> E' = E).
Proof.
  intros HE.
  assert (forall E1 b f,
            embeds p !! e' = Some E1 ->
            exists E', <[e' := with_isLoaded b (with_iframe f E1)]> (embeds p) !! e = Some E'
              /\ container E' = container E /\ url E' = url E
              /\ title E' = title E /\ posterSrc E' = posterSrc E
              /\ (e <> e' -> E' = E)) as Hins.
  { intros E1 b f HE1. destruct (decide (e = e')) as [->|Hne].
    - rewrite list_lookup_insert_eq by (eapply lookup_lt_Some; exact HE1).
      assert (E1 = E) as -> by congruence.
      eexists. split; [reflexivity|]. repeat split; try reflexivity. congruence.
    - rewrite list_lookup_insert_ne by congruence.
      exists E. repeat split; auto. }
  assert (exists E', embeds p !! e = Some E'
            /\ container E' = container E /\ url E' = url E
            /\ title E' = title E /\ posterSrc E' = posterSrc E
            /\ (e <> e' -> E' = E)) as Hsame
    by (exists E; repeat split; auto).
  destruct c; simpl.
  - unfold load. destruct (embeds p !! e') as [E1|] eqn:HE1; [|exact Hsame].
    destruct (isLoaded E1); [exact Hsame|].
    destruct (url E1) as [u|]; [|exact Hsame].
    destruct (Js.is_empty (Js.extractVideoId u)); [exact Hsame|].
    simpl. apply Hins. reflexivity.
  - destruct (embeds p !! e') as [E1|] eqn:HE1.
    2:{ unfold unload. rewrite HE1. exact Hsame. }
    destruct (isLoaded E1) eqn:Hl1.
    2:{ rewrite (unload_unhydrated _ _ _ HE1 Hl1). exact Hsame. }
    rewrite (unload_hydrated _ _ _ HE1 Hl1). simpl. rewrite init_embeds. simpl.
    apply Hins. reflexivity.
Qed.

Lemma call_one_object_each e c p :
  one_object_each p -> one_object_each (call e c p).
Proof.
  unfold one_object_each. intros H.
  assert (container <$> embeds (call e c p) = container <$> embeds p) as ->; [|exact H].
  apply list_eq. intros i. rewrite !list_lookup_fmap.
  destruct (embeds p !! i) as [E|] eqn:HE.
  - destruct (call_keeps_fields e c p i E HE) as (E' & HE' & Hc & _).
    rewrite HE'. simpl. rewrite Hc. reflexivity.
  - assert (length (embeds (call e c p)) = length (embeds p)) as Hlen.
    { destruct c; simpl.
      - unfold load. repeat case_match; simpl; rewrite ?length_insert; reflexivity.
      - unfold unload. repeat case_match; simpl;
          rewrite ?init_embeds; simpl; rewrite ?length_insert; reflexivity. }
    rewrite (lookup_ge_None_2 (embeds (call e c p)) i); [reflexivity|].
    rewrite Hlen. apply lookup_ge_None. exact HE.
Qed.

(** its own container is all a call changes of the containers *)
Lemma call_other_container e c p E c0 :
  embeds p !! e = Some E -> c0 <> container E ->
  containers (call e c p) !! c0 = containers p !! c0.
Proof.
  intros HE Hne.
  assert (forall q, embeds q !! e = Some (with_isLoaded false (with_iframe None E)) ->
            containers (init e q) !! c0 = containers q !! c0) as Hinit.
  { intros q Hq. unfold init. rewrite Hq. simpl.
    destruct (containers q !! container E); [|reflexivity].
    simpl. apply list_lookup_insert_ne. congruence. }
  destruct c; simpl.
  - unfold load. rewrite HE. repeat case_match; simpl; try reflexivity.
    apply list_lookup_alter_ne. congruence.
  - destruct (isLoaded E) eqn:Hl.
    2:{ rewrite (unload_unhydrated _ _ _ HE Hl). reflexivity. }
    rewrite (unload_hydrated _ _ _ HE Hl). simpl. rewrite Hinit.
    + simpl. apply list_lookup_alter_ne. congruence.
    + simpl. apply list_lookup_insert_eq. eapply lookup_lt_Some. exact HE.
Qed.

(** a call never takes an iframe out of the store *)
Lemma call_frames_grow e c p :
  length (frames p) <= length (frames (call e c p))
  /\ length (containers (call e c p)) = length (containers p).
Proof.
  destruct c; simpl.
  - unfold load. repeat case_match; simpl;
      rewrite ?length_app, ?length_alter; split; (lia || reflexivity).
  - destruct (embeds p !! e) as [E|] eqn:HE.
    2:{ unfold unload. rewrite HE. split; (lia || reflexivity). }
    destruct (isLoaded E) eqn:Hl.
    2:{ rewrite (unload_unhydrated _ _ _ HE Hl). split; (lia || reflexivity). }
    rewrite (unload_hydrated _ _ _ HE Hl). simpl.
    match goal with |- context [init e ?q] => destruct (init_rest e q) as (_ & _ & _ & ->) end.
    rewrite init_frames. simpl. rewrite length_app, length_cleared, length_alter.
    split; (lia || reflexivity).
Qed.

(** A call on another object, of another container, leaves the invariant
    of object [e] as it is. *)
Lemma one_or_none_other e e' c p E E' :
  embeds p !! e = Some E -> embeds p !! e' = Some E' ->
  e <> e' -> container E <> container E' ->
  one_or_none e p -> one_or_none e (call e' c p).
Proof.
  intros HE HE' Hne Hcne (E0 & HE0 & Hc & Hinv).
  assert (E0 = E) as -> by congruence.
  destruct (call_keeps_fields e' c p e E HE) as (E1 & HE1 & _ & _ & _ & _ & Hsame).
  rewrite (Hsame Hne) in HE1.
  destruct (call_frames_grow e' c p) as [Hgrow Hlen].
  exists E. split; [exact HE1|]. rewrite Hlen. split; [exact Hc|].
  assert (frames_of (container E) (call e' c p) = frames_of (container E) p) as Hfo.
  { unfold frames_of. rewrite (call_other_container e' c p E' _ HE' Hcne). reflexivity. }
  rewrite Hfo. destruct (isLoaded E); [|exact Hinv].
  destruct Hinv as (f & u & H1 & H2 & H3 & H4). exists f, u.
  split; [exact H1|]. split; [exact H2|]. split; [lia|exact H4].
Qed.

Lemma call_plain_poster e' c p e :
  plain_poster e p -> plain_poster e (call e' c p).
Proof.
  intros (E & HE & Ht & Hs).
  destruct (call_keeps_fields e' c p e E HE) as (E1 & HE1 & _ & _ & Ht1 & Hs1 & _).
  exists E1. rewrite Ht1, Hs1. auto.
Qed.

(** The invariant of an object holds along every sequence of [load()] and
    [unload()] calls on the objects of a page where no two objects share a
    container. *)
Lemma one_or_none_calls_on e cs p :
  one_object_each p -> plain_poster e p ->
  one_or_none e p -> one_or_none e (calls_on cs p).
Proof.
  unfold calls_on. revert p. induction cs as [|[e' c] cs IH]; intros p Hd Hp H; simpl;
    [exact H|].
  apply IH; [apply call_one_object_each, Hd|apply call_plain_poster, Hp|].
  destruct (decide (e = e')) as [<-|Hne]; [apply one_or_none_call; assumption|].
  destruct Hp as (E & HE & _).
  destruct (embeds p !! e') as [E'|] eqn:HE'.
  - apply (one_or_none_other e e' c p E E' HE HE' Hne); [|exact H].
    intros Heq. apply Hne.
    apply (NoDup_lookup (container <$> embeds p) e e' (container E) Hd);
      rewrite list_lookup_fmap; [rewrite HE|rewrite HE'; simpl; rewrite Heq];
      reflexivity.
  - assert (call e' c p = p) as ->; [|exact H].
    destruct c; simpl; [unfold load|unfold unload]; rewrite HE'; reflexivity.
Qed.

(** The invariant holds along every sequence of [load()] and [unload()]
    on the object itself. *)
Lemma one_or_none_calls e cs p :
  plain_poster e p -> one_or_none e p -> one_or_none e (calls e cs p).
Proof.
  unfold calls. revert p. induction cs as [|c cs IH]; intros p Hp H; simpl; [exact H|].
  apply IH; [apply call_plain_poster, Hp|apply one_or_none_call; assumption].
Qed.

Lemma construct_embed c p C :
  containers p !! c = Some C ->
  fst (construct c p) = length (embeds p)
  /\ embeds (snd (construct c p)) =
     (embeds p ++ [{| container := c; url := tiktokUrl (dataset C);
                      title := Js.or_else (data_title (dataset C)) "TikTok video";
                      posterSrc := poster (dataset C);
                      isLoaded := false; iframe := None |}])%list.
Proof.
  intros HC. unfold construct. rewrite HC. simpl. rewrite init_embeds. split; reflexivity.
Qed.

(** A freshly constructed object on a container without iframes satisfies it. *)
Lemma one_or_none_construct c p C :
  containers p !! c = Some C -> frames_in (children C) = [] ->
  one_or_none (fst (construct c p)) (snd (construct c p)).
Proof.
  intros HC Hf. destruct (construct_embed c p C HC) as [He Hes].
  eexists. rewrite He, Hes. split.
  { rewrite lookup_app_r by lia. rewrite Nat.sub_diag. reflexivity. }
  unfold construct. rewrite HC. simpl.
  match goal with |- context [init ?e ?q] => destruct (init_rest e q) as (_ & _ & _ & ->) end.
  split; [eapply lookup_lt_Some; exact HC|]. split; [reflexivity|].
  rewrite init_frames_of. unfold frames_of. simpl. rewrite HC. exact Hf.
Qed.

End Part002Facts.

(** * [hydrateTikTok] and [initTikTok] of src/app.js *)

Module CardsFacts.
Import Dom Cards JsFacts DomFacts.

Lemma with_attr_classes name value a : classes (with_attr name value a) = classes a.
Proof. reflexivity. Qed.

Lemma hydrateTikTok_known env c p :
  c ∈ hydratedTikToks p -> hydrateTikTok env c p = Done p.
Proof. intros H. unfold hydrateTikTok. rewrite (bool_decide_eq_true_2 _ H). reflexivity. Qed.

(** Membership in [hydratedTikToks] is recorded on every path. *)
Lemma hydrateTikTok_marks env c p :
  c ∈ hydratedTikToks (Js.state_of (hydrateTikTok env c p)).
Proof.
  unfold hydrateTikTok. case_bool_decide as Hin; [exact Hin|].
  repeat (case_match; simpl); set_solver.
Qed.

(** A call for another card leaves a recorded card alone. *)
Lemma hydrateTikTok_other env c c' p :
  c ∈ hydratedTikToks p ->
  c ∈ hydratedTikToks (Js.state_of (hydrateTikTok env c' p))
  /\ cards (Js.state_of (hydrateTikTok env c' p)) !! c = cards p !! c.
Proof.
  intros Hc. unfold hydrateTikTok. case_bool_decide as Hin; [split; [exact Hc|reflexivity]|].
  assert (c' <> c) as Hne by (intros ->; contradiction).
  repeat (case_match; simpl);
    (split; [set_solver|]);
    rewrite ?list_lookup_alter_ne by exact Hne; reflexivity.
Qed.

Lemma card_children_lookup c k p C :
  cards p !! c = Some C ->
  cards (with_card_children c k p) !! c = Some (Dom.with_children k C).
Proof.
  intros HC. unfold with_card_children. simpl.
  rewrite list_lookup_alter_eq, HC. reflexivity.
Qed.

(** The error branch: no [video/<digits>] in the source URL. *)
Lemma hydrateTikTok_error env c p C :
  c ∉ hydratedTikToks p -> cards p !! c = Some C ->
  Js.match_video (Js.or_else (tiktokUrl (dataset C)) "") = None ->
  is_Some (query "ttk__poster-img" (children C)) ->
  is_Some (query "ttk__error" (children C)) ->
  let fr := fallback_markup p (Js.or_else (tiktokUrl (dataset C)) "") in
  exists p' C' a,
    hydrateTikTok env c p = Done p'
    /\ c ∈ hydratedTikToks p'
    /\ frames p' = (frames p ++ made fr)%list
    /\ cards p' !! c = Some C'
    /\ query "ttk__error" (children C') = Some (Elem a (placed (length (frames p)) fr))
    /\ get_assoc "hidden" (attrs a) = None
    /\ (forall h, h ∈ hrefs_in (placed (length (frames p)) fr) -> h ∈ hrefs_in (children C')).
Proof.
  intros Hin HC Hv Himg Herr fr.
  set (url := Js.or_else (tiktokUrl (dataset C)) "") in *.
  set (k1 := update "ttk__poster-img"
               (map_attrs (with_attr "src" (Js.or_else (poster (dataset C)) "")))
               (children C)).
  set (fix_err := fun n => set_children (placed (length (frames p)) fr)
                            (map_attrs (without_attr "hidden") n)).
  assert (is_Some (query "ttk__error" k1)) as [n1 Hn1]
    by (apply query_update_attrs; [reflexivity|exact Herr]).
  destruct (query_elem _ _ _ Hn1) as (a1 & kids1 & -> & Hcls).
  destruct (update_hit "ttk__error" fix_err k1 _ Hn1) as (_ & Hq & Hsw).
  exists (with_card_children c (update "ttk__error" fix_err k1)
            (with_frames (frames p ++ made fr)
               (with_card_children c k1
                  (with_hydratedTikToks ({[c]} ∪ hydratedTikToks p) p)))),
    (Dom.with_children (update "ttk__error" fix_err k1) (Dom.with_children k1 C)),
    (without_attr "hidden" a1).
  split.
  { unfold hydrateTikTok. rewrite (bool_decide_eq_false_2 _ Hin). simpl. rewrite HC.
    fold url. rewrite Hv, (bool_decide_eq_true_2 _ Himg), (bool_decide_eq_true_2 _ Herr).
    reflexivity. }
  split; [simpl; set_solver|]. split; [reflexivity|]. split.
  { unfold with_card_children at 1. simpl.
    rewrite list_lookup_alter_eq, list_lookup_alter_eq, HC. reflexivity. }
  split.
  { simpl. apply Hq. simpl. apply bool_decide_eq_true_2. exact Hcls. }
  split; [apply get_remove_assoc|].
  intros h Hh.
  destruct (Hsw _ hrefs_node hrefs_collector) as (l1 & l2 & _ & E2).
  simpl. unfold hrefs_in. rewrite E2.
  apply elem_of_app. right. apply elem_of_app. left.
  simpl. apply elem_of_app. right. exact Hh.
Qed.

(** a plain URL stands in the markup of the error branch as it is *)
Lemma fallback_markup_plain p url :
  Js.plain url = true ->
  fallback_markup p url = {| forest := fallback_nodes url; made := [] |}.
Proof. intros H. unfold fallback_markup. rewrite H. reflexivity. Qed.

(** The success branch: the card ends with exactly the iframe just built. *)
Lemma hydrateTikTok_success env c p C v :
  c ∉ hydratedTikToks p -> cards p !! c = Some C ->
  Js.match_video (Js.or_else (tiktokUrl (dataset C)) "") = Some v ->
  is_Some (query "ttk__poster-img" (children C)) ->
  is_Some (query "ttk__poster" (children C)) ->
  is_Some (query "ttk__frame" (children C)) ->
  frames_in (children C) = [] ->
  has_IntersectionObserver env = true ->
  exists p',
    hydrateTikTok env c p = Done p'
    /\ c ∈ hydratedTikToks p'
    /\ frames p' = (frames p ++ [buildIframe v])%list
    /\ frames_of c p' = [length (frames p)].
Proof.
  intros Hin HC Hv Himg Hbtn Hfr Hnone Hio.
  set (k1 := update "ttk__poster-img"
               (map_attrs (with_attr "src" (Js.or_else (poster (dataset C)) "")))
               (children C)).
  set (k2 := update "ttk__poster" (map_attrs (with_attr "hidden" "")) k1).
  set (put := fun n => append_child (FrameRef (length (frames p)))
                         (map_attrs (without_attr "hidden") n)).
  assert (is_Some (query "ttk__frame" k2)) as [n2 Hn2].
  { apply query_update_attrs; [reflexivity|].
    apply query_update_attrs; [reflexivity|exact Hfr]. }
  assert (frames_in k2 = []) as Hk2.
  { unfold k2, k1. rewrite !frames_in_update_attrs. exact Hnone. }
  destruct (update_hit "ttk__frame" put k2 _ Hn2) as (_ & _ & Hsw).
  destruct (Hsw _ frames_node frames_collector) as (l1 & l2 & E1 & E2).
  fold (frames_in k2) in E1. rewrite Hk2 in E1. symmetry in E1.
  apply app_eq_nil in E1 as [-> E1]. apply app_eq_nil in E1 as [Hn2f ->].
  eexists. split.
  { unfold hydrateTikTok. rewrite (bool_decide_eq_false_2 _ Hin). simpl. rewrite HC.
    rewrite Hv, (bool_decide_eq_true_2 _ Himg), (bool_decide_eq_true_2 _ Hbtn),
      (bool_decide_eq_true_2 _ Hfr), Hio.
    reflexivity. }
  split; [simpl; set_solver|]. split; [reflexivity|].
  unfold frames_of. simpl.
  rewrite !list_lookup_alter_eq, HC. simpl.
  fold k1. fold k2. fold put. unfold frames_in. rewrite E2. simpl. rewrite app_nil_r.
  destruct n2 as [a2 kids2| |]; simpl in *.
  - rewrite map_app, concat_app, Hn2f. reflexivity.
  - destruct (query_elem _ _ _ Hn2) as (? & ? & [=] & _).
  - destruct (query_elem _ _ _ Hn2) as (? & ? & [=] & _).
Qed.

Lemma run_click_keeps env c l p :
  c ∈ hydratedTikToks p ->
  c ∈ hydratedTikToks (run_click env l p) /\ cards (run_click env l p) !! c = cards p !! c.
Proof.
  intros Hc. destruct l as [e|c']; simpl; [split; [exact Hc|reflexivity]|].
  apply hydrateTikTok_other, Hc.
Qed.

Lemma on_intersect_keeps env c entries p :
  c ∈ hydratedTikToks p ->
  c ∈ hydratedTikToks (Js.state_of (on_intersect env entries p))
  /\ cards (Js.state_of (on_intersect env entries p)) !! c = cards p !! c.
Proof.
  revert p. induction entries as [|[c' b] rest IH]; intros p Hc; simpl;
    [split; [exact Hc|reflexivity]|].
  destruct (b && negb (prefersReduced env)); [|apply IH, Hc].
  destruct (hydrateTikTok_other env c c' p Hc) as [H1 H2].
  destruct (hydrateTikTok env c' p) as [p'|err p']; simpl in *.
  - destruct (IH p' H1) as [H3 H4]. split; [exact H3|congruence].
  - split; assumption.
Qed.

(** No event takes a card out of [hydratedTikToks] or touches its markup. *)
Lemma step_keeps env c ev p :
  c ∈ hydratedTikToks p ->
  c ∈ hydratedTikToks (step env ev p) /\ cards (step env ev p) !! c = cards p !! c.
Proof.
  intros Hc. destruct ev as [c'|entries|k b now|]; simpl.
  - unfold click. destruct (cards p !! c') as [C'|]; [|split; [exact Hc|reflexivity]].
    destruct (query "ttk__poster" (children C')) as [[a kids| |]|];
      try (split; [exact Hc|reflexivity]).
    generalize (on_click a). intros ls. revert p Hc.
    induction ls as [|l ls IH]; intros p Hc; simpl; [split; [exact Hc|reflexivity]|].
    destruct (run_click_keeps env c l p Hc) as [H1 H2].
    destruct (IH _ H1) as [H3 H4]. split; [exact H3|congruence].
  - apply on_intersect_keeps, Hc.
  - unfold on_frame_entry. repeat case_match; simpl; split; first [exact Hc|reflexivity].
  - generalize (animation_frames p). intros l. revert p Hc.
    induction l as [|x l IH]; intros p Hc; simpl; [split; [exact Hc|reflexivity]|].
    apply (IH (with_frames _ p)). exact Hc.
Qed.

Lemma run_keeps env c evs p :
  c ∈ hydratedTikToks p ->
  c ∈ hydratedTikToks (run env evs p) /\ cards (run env evs p) !! c = cards p !! c.
Proof.
  unfold run. revert p. induction evs as [|ev evs IH]; intros p Hc; simpl;
    [split; [exact Hc|reflexivity]|].
  destruct (step_keeps env c ev p Hc) as [H1 H2].
  destruct (IH _ H1) as [H3 H4]. split; [exact H3|congruence].
Qed.

End CardsFacts.

(** * The [TikTokEmbed] class of part_000 *)

Module Part000Facts.
Import Dom Page Part000 JsFacts DomFacts.

Lemma load_unhydrated_000 e p E u :
  embeds p !! e = Some E -> isLoaded E = false -> url E = Some u ->
  Js.extractVideoId u <> EmptyString ->
  let f := length (frames p) in
  load e p =
  Done (with_embeds
          (<[e := with_isLoaded true (with_iframe (Some f) E)]> (embeds p))
          (with_containers
             (alter (with_children [frameWrapper f]) (container E) (containers p))
             (with_frames (frames p ++ [new_iframe e E (Js.extractVideoId u)]) p))).
Proof.
  intros HE Hl Hu Hid. unfold load. rewrite HE, Hl, Hu.
  apply is_empty_false in Hid. rewrite Hid. reflexivity.
Qed.

End Part000Facts.

(** * Claims about one Placeholder *)

Module Placeholder.
Import Dom Page JsFacts DomFacts UrlFacts EmbedUrlFacts.

(** [init()] on a known object and container. *)
Lemma init_children e p E C :
  embeds p !! e = Some E -> containers p !! container E = Some C ->
  containers (Part002.init e p) !! container E
  = Some (with_children
            (update "ttk__poster" (map_attrs (with_click (ClickLoad e)))
               (if Js.truthy (posterSrc E)
                then update "ttk__poster-img"
                       (map_attrs (with_attr "src" (Js.interpolate (posterSrc E))))
                       (children C)
                else children C)) C).
Proof.
  intros HE HC. unfold Part002.init. rewrite HE, HC. simpl.
  apply list_lookup_insert_eq. eapply lookup_lt_Some. exact HC.
Qed.

(** The poster template already carries the poster source [init()] assigns. *)
Lemma poster_nodes_src E :
  (if Js.truthy (posterSrc E)
   then update "ttk__poster-img"
          (map_attrs (with_attr "src" (Js.interpolate (posterSrc E))))
          (Part002.poster_nodes E)
   else Part002.poster_nodes E) = Part002.poster_nodes E.
Proof. destruct (Js.truthy (posterSrc E)); reflexivity. Qed.

(** the poster button [unload()] leaves, with the click listener of [init()] *)
Lemma poster_nodes_click e E :
  update "ttk__poster" (map_attrs (with_click (ClickLoad e))) (Part002.poster_nodes E)
  = [Elem {| tag := "button"; classes := ["ttk__poster"];
             attrs := [("type", "button");
                       ("aria-label", "Play TikTok video: " ++ title E)];
             on_click := [ClickLoad e] |}
       [elem "img" ["ttk__poster-img"]
          [("src", Js.interpolate (posterSrc E));
           ("alt", "TikTok video preview: " ++ title E);
           ("loading", "lazy"); ("decoding", "async")] [];
        elem "span" ["ttk__play"] [("aria-hidden", "true")] [Text "▶"]]].
Proof. reflexivity. Qed.

(** On a page whose poster is written the way [unload()] writes it, the
    container shows after [new TikTokEmbed(container)] what it shows again
    after [unload()]. *)
Lemma construct_shows_poster c p C :
  containers p !! c = Some C ->
  children C
  = Part002.poster_nodes
      {| container := c; url := tiktokUrl (dataset C);
         title := Js.or_else (data_title (dataset C)) "TikTok video";
         posterSrc := poster (dataset C); isLoaded := false; iframe := None |} ->
  (children <$> containers (snd (Part002.construct c p)) !! c)
  = Some (update "ttk__poster" (map_attrs (with_click (ClickLoad (length (embeds p)))))
            (children C)).
Proof.
  intros HC Hk. unfold Part002.construct. rewrite HC. simpl.
  set (E := {| container := c; url := tiktokUrl (dataset C);
               title := Js.or_else (data_title (dataset C)) "TikTok video";
               posterSrc := poster (dataset C); isLoaded := false; iframe := None |}) in *.
  assert (embeds (with_embeds (embeds p ++ [E]) p) !! length (embeds p) = Some E) as HE.
  { simpl. rewrite lookup_app_r, Nat.sub_diag by lia. reflexivity. }
  pose proof (init_children _ _ E C HE HC) as H.
  change (container E) with c in H. change (posterSrc E) with (poster (dataset C)) in H.
  rewrite H. simpl. rewrite Hk.
  change (poster (dataset C)) with (posterSrc E).
  rewrite poster_nodes_src. reflexivity.
Qed.

(** C4 as amended.  On a hydrated Placeholder [unload()] clears the source
    of the live iframe, drops the reference to it and returns to the
    unhydrated state; [load()] then hydrates again with an iframe that was
    not in the store before, the only one of the container, and the old
    iframe keeps its empty source.  What [unload()] writes into the
    container is its own template, and not the markup the page had: with a
    title and a poster source that hold no double quote, [&], NUL or
    carriage return, the container holds the button [.ttk__poster] of the
    template, labelled with the title, with the click listener of [init()],
    the image [.ttk__poster-img] with the poster source, and the
    [.ttk__play] span, no iframe, and the store has gained none.  On a
    Placeholder that is not hydrated [unload()] changes nothing. *)
Theorem unload_load_round_trip e p E :
  embeds p !! e = Some E ->
  (isLoaded E = false -> Part002.unload e p = Done p)
  /\ (isLoaded E = true ->
      forall u f i C,
        url E = Some u -> Js.extractVideoId u <> EmptyString ->
        iframe E = Some f -> frames p !! f = Some i ->
        containers p !! container E = Some C ->
        exists p1 p2,
          Part002.unload e p = Done p1
          /\ embeds p1 !! e = Some (with_isLoaded false (with_iframe None E))
          /\ frames p1 !! f = Some (with_src "" i)
          /\ Part002.load e p1 = Done p2
          /\ embeds p2 !! e
             = Some (with_isLoaded true (with_iframe (Some (length (frames p1))) E))
          /\ length (frames p) <= length (frames p1)
          /\ frames_of (container E) p2 = [length (frames p1)]
          /\ frames p2 !! length (frames p1)
             = Some (Part002.new_iframe e E (Js.extractVideoId u))
          /\ frames p2 !! f = Some (with_src "" i)
          /\ (Js.plain (title E) = true ->
              Js.plain (Js.interpolate (posterSrc E)) = true ->
              length (frames p1) = length (frames p)
              /\ frames_of (container E) p1 = []
              /\ (children <$> containers p1 !! container E)
                 = Some
                     [Elem {| tag := "button"; classes := ["ttk__poster"];
                              attrs := [("type", "button");
                                        ("aria-label", "Play TikTok video: " ++ title E)];
                              on_click := [ClickLoad e] |}
                        [elem "img" ["ttk__poster-img"]
                           [("src", Js.interpolate (posterSrc E));
                            ("alt", "TikTok video preview: " ++ title E);
                            ("loading", "lazy"); ("decoding", "async")] [];
                         elem "span" ["ttk__play"] [("aria-hidden", "true")]
                           [Text "▶"]]])).
Proof.
  intros HE. split; [apply Part002Facts.unload_unhydrated; exact HE|].
  intros Hl u f i C Hu Hid Hf Hi HC.
  pose proof (lookup_lt_Some _ _ _ HE) as He.
  pose proof (lookup_lt_Some _ _ _ HC) as Hc.
  pose proof (lookup_lt_Some _ _ _ Hi) as Hfl.
  set (E1 := with_isLoaded false (with_iframe None E)).
  set (fr := Part002.poster_markup p E).
  set (kids := placed (length (frames p)) fr).
  set (q := with_embeds (<[e := E1]> (embeds p))
              (with_containers
                 (alter (with_children kids) (container E) (containers p))
                 (with_frames (alter (with_src "") f (frames p) ++ made fr) p))).
  assert (Part002.unload e p = Done (Part002.init e q)) as Hun.
  { rewrite (Part002Facts.unload_hydrated _ _ _ HE Hl).
    unfold Part002.cleared. rewrite Hf. reflexivity. }
  assert (embeds (Part002.init e q) !! e = Some E1) as HE1.
  { rewrite Part002Facts.init_embeds. apply list_lookup_insert_eq. exact He. }
  assert (frames (Part002.init e q) = (alter (with_src "") f (frames p) ++ made fr)%list)
    as Hfr by apply Part002Facts.init_frames.
  assert (length (frames (Part002.init e q)) = length (frames p) + length (made fr))
    as Hlen by (rewrite Hfr, length_app, length_alter; reflexivity).
  assert (containers q !! container E1 = Some (with_children kids C)) as HCq.
  { simpl. rewrite list_lookup_alter_eq, HC. reflexivity. }
  assert (embeds q !! e = Some E1) as HEq
    by (apply list_lookup_insert_eq; exact He).
  pose proof (init_children e q E1 _ HEq HCq) as Hkids.
  change (posterSrc E1) with (posterSrc E) in Hkids. simpl children in Hkids.
  change (container E1) with (container E) in Hkids.
  exists (Part002.init e q). eexists.
  split; [exact Hun|]. split; [exact HE1|]. split.
  { rewrite Hfr, lookup_app_l by (rewrite length_alter; exact Hfl).
    rewrite list_lookup_alter_eq, Hi. reflexivity. }
  split.
  { apply (Part002Facts.load_unhydrated _ _ E1 u HE1); [reflexivity|exact Hu|exact Hid]. }
  cbn [embeds containers frames with_embeds with_containers with_frames].
  rewrite Part002Facts.init_embeds.
  split; [apply list_lookup_insert_eq; simpl; rewrite length_insert; exact He|].
  split; [lia|]. split.
  { erewrite (Part002Facts.frames_of_alter_children _ _ (containers (Part002.init e q)));
      [|reflexivity|].
    - reflexivity.
    - destruct (Part002Facts.init_rest e q) as (_ & _ & _ & ->). simpl.
      rewrite length_alter. exact Hc. }
  split.
  { rewrite lookup_app_r by lia. rewrite Nat.sub_diag. reflexivity. }
  split.
  { rewrite lookup_app_l by lia.
    rewrite Hfr, lookup_app_l by (rewrite length_alter; exact Hfl).
    rewrite list_lookup_alter_eq, Hi. reflexivity. }
  intros Ht Hs.
  pose proof (Part002Facts.poster_markup_plain p E Ht Hs) as Hplain.
  assert (kids = Part002.poster_nodes E) as Hk
    by (unfold kids, fr; rewrite Hplain; reflexivity).
  rewrite Hk, poster_nodes_src, poster_nodes_click in Hkids.
  split; [rewrite Hlen; unfold fr; rewrite Hplain; simpl; lia|].
  split; [unfold frames_of; rewrite Hkids; reflexivity|].
  rewrite Hkids. reflexivity.
Qed.

Lemma unload_load_round_trip_witness :
  exists p1 p2,
    Part002.unload 0 (Examples.loaded_page "https://example.com/video/123456") = Done p1
    /\ frames_of 0 p1 = []
    /\ (src <$> frames p1 !! 0) = Some EmptyString
    /\ Part002.load 0 p1 = Done p2
    /\ frames_of 0 p2 = [1].
Proof.
  edestruct (unload_load_round_trip 0
               (Examples.loaded_page "https://example.com/video/123456")) as [_ H];
    [reflexivity|].
  edestruct (H eq_refl "https://example.com/video/123456" 0)
    as (p1 & p2 & H1 & _ & H3 & H4 & _ & _ & H7 & _ & _ & H10);
    [reflexivity|discriminate|reflexivity|reflexivity|reflexivity|].
  destruct (H10 eq_refl eq_refl) as (Hn & Hnone & _).
  exists p1, p2. rewrite H3. rewrite Hn in H7. repeat split; assumption.
Defined.

(** C4 as stated fails where it says that [unload()] restores the original
    poster markup.  On the sample page the poster button has no label and
    its image no alternative text; after [load()] and [unload()] the
    Placeholder is unhydrated again, but the container holds the template
    of [unload()], with a label and an alternative text made from the
    title, which is neither the markup of the page nor what the container
    held before [load()]. *)
Lemma unload_writes_its_own_poster :
  let u := "https://example.com/video/123456" in
  let before := Examples.embed_page u in
  let after := page_of (Part002.unload 0 (Examples.loaded_page u)) in
  (isLoaded <$> embeds after !! 0) = Some false
  /\ (children <$> containers before !! 0)
     = Some [Elem {| tag := "button"; classes := ["ttk__poster"];
                     attrs := [("type", "button")]; on_click := [ClickLoad 0] |}
               [elem "img" ["ttk__poster-img"] [("src", "p.jpg")] [];
                elem "span" ["ttk__play"] [] [Text "▶"]]]
  /\ (children <$> containers after !! 0)
     = Some [Elem {| tag := "button"; classes := ["ttk__poster"];
                     attrs := [("type", "button");
                               ("aria-label", "Play TikTok video: TikTok video")];
                     on_click := [ClickLoad 0] |}
               [elem "img" ["ttk__poster-img"]
                  [("src", "p.jpg"); ("alt", "TikTok video preview: TikTok video");
                   ("loading", "lazy"); ("decoding", "async")] [];
                elem "span" ["ttk__play"] [("aria-hidden", "true")] [Text "▶"]]]
  /\ (children <$> containers after !! 0) <> (children <$> containers before !! 0)
  /\ (children <$> containers after !! 0) <> Some (children (Examples.container_of u)).
Proof. vm_compute. repeat split; discriminate. Qed.

(** C3. [load()] is idempotent: on a hydrated Placeholder a further call
    returns at once and leaves the whole page as it is, so no embed element
    is added and neither the state nor the container changes.  The inline
    script's [hydrate()] behaves the same once [dataset.hydrated] is ['1']. *)
Theorem load_idempotent :
  (forall e p E,
      embeds p !! e = Some E -> isLoaded E = true -> Part002.load e p = Done p)
  /\ (forall videoId s,
         Inline.hydrated s = Some "1" -> Inline.hydrate videoId s = s).
Proof.
  split.
  - exact Part002Facts.load_hydrated.
  - intros videoId s H. unfold Inline.hydrate.
    rewrite (bool_decide_eq_true_2 _ H). reflexivity.
Qed.

Lemma load_idempotent_witness :
  Part002.load 0 (Examples.loaded_page "https://example.com/video/123456")
  = Done (Examples.loaded_page "https://example.com/video/123456")
  /\ Inline.hydrate "123456"
       (Inline.hydrate "123456" (Examples.inline_card "https://example.com/video/123456"))
     = Inline.hydrate "123456" (Examples.inline_card "https://example.com/video/123456").
Proof.
  split.
  - eapply (proj1 load_idempotent); reflexivity.
  - apply (proj2 load_idempotent). reflexivity.
Defined.

(** C9 as amended.  Both [TikTokEmbed.load] methods take as VideoId the part
    of the last ['/']-separated segment that precedes its first ['?'].
    Whenever that part is non-empty, numeric or not, [load()] reaches the
    hydrated state and leaves one iframe in the container, whose [src] is
    the serialised [https://www.tiktok.com/embed/v2/<part>] with the query
    parameters of the file; for a part made of letters, digits, [-] and [_]
    the part stands verbatim after [/embed/v2/]. *)
Theorem last_segment_part_accepted e p E u :
  embeds p !! e = Some E -> isLoaded E = false -> url E = Some u ->
  container E < length (containers p) ->
  Js.extractVideoId u <> EmptyString ->
  let id := Js.extractVideoId u in
  let f := length (frames p) in
  id = match Js.split "?" (Js.last_segment u) with
       | h :: _ => h
       | [] => EmptyString
       end
  /\ (exists p',
         Part002.load e p = Done p'
         /\ (isLoaded <$> embeds p' !! e) = Some true
         /\ frames_of (container E) p' = [f]
         /\ (src <$> frames p' !! f) = Some (Url.toString (Part002.embedUrl id))
         /\ (Js.all_chars Url.unreserved id = true ->
             (src <$> frames p' !! f)
             = Some ("https://www.tiktok.com/embed/v2/" ++ id
                       ++ "?autoplay=1&muted=1&controls=1&rel=0&loop=0")))
  /\ (exists p',
         Part000.load e p = Done p'
         /\ (isLoaded <$> embeds p' !! e) = Some true
         /\ frames_of (container E) p' = [f]
         /\ (src <$> frames p' !! f) = Some (Url.toString (Part000.embedUrl id))
         /\ (Js.all_chars Url.unreserved id = true ->
             (src <$> frames p' !! f)
             = Some ("https://www.tiktok.com/embed/v2/" ++ id ++ "?autoplay=1&muted=1"))).
Proof.
  intros HE Hl Hu Hc Hid id f.
  pose proof (lookup_lt_Some _ _ _ HE) as He.
  split; [apply extractVideoId_last_segment|]. split.
  - eexists. split; [apply (Part002Facts.load_unhydrated _ _ _ _ HE Hl Hu Hid)|].
    cbn [frames embeds containers with_embeds with_containers with_frames].
    rewrite list_lookup_insert_eq by exact He.
    split; [reflexivity|]. split.
    { erewrite (Part002Facts.frames_of_alter_children _ _ (containers p));
        [|reflexivity|exact Hc]. reflexivity. }
    rewrite lookup_app_r, Nat.sub_diag by lia.
    assert ((src <$> [Part002.new_iframe e E (Js.extractVideoId u)] !! 0)
            = Some (Url.toString (Part002.embedUrl id))) as Hsrc by reflexivity.
    split; [exact Hsrc|].
    intros Hsafe. rewrite Hsrc, (embedUrl_unreserved_002 _ Hsafe). reflexivity.
  - eexists. split; [apply (Part000Facts.load_unhydrated_000 _ _ _ _ HE Hl Hu Hid)|].
    cbn [frames embeds containers with_embeds with_containers with_frames].
    rewrite list_lookup_insert_eq by exact He.
    split; [reflexivity|]. split.
    { erewrite (Part002Facts.frames_of_alter_children _ _ (containers p));
        [|reflexivity|exact Hc]. reflexivity. }
    rewrite lookup_app_r, Nat.sub_diag by lia.
    assert ((src <$> [Part000.new_iframe e E (Js.extractVideoId u)] !! 0)
            = Some (Url.toString (Part000.embedUrl id))) as Hsrc by reflexivity.
    split; [exact Hsrc|].
    intros Hsafe. rewrite Hsrc, (embedUrl_unreserved_000 _ Hsafe). reflexivity.
Qed.

Lemma last_segment_part_accepted_witness :
  exists p',
    Part002.load 0 (Examples.embed_page "not-a-url") = Done p'
    /\ (isLoaded <$> embeds p' !! 0) = Some true
    /\ frames_of 0 p' = [0]
    /\ (src <$> frames p' !! 0)
       = Some "https://www.tiktok.com/embed/v2/not-a-url?autoplay=1&muted=1&controls=1&rel=0&loop=0".
Proof.
  edestruct (last_segment_part_accepted 0 (Examples.embed_page "not-a-url"))
    as (_ & (p' & H1 & H2 & H3 & _ & H5) & _);
    [reflexivity|reflexivity|reflexivity|simpl; lia|discriminate|].
  exists p'. repeat split; try assumption. apply H5. reflexivity.
Defined.

(** C9 as stated fails: the last segment [?x=1] is not empty, yet [load()]
    finds no identifier in it, warns and leaves the Placeholder unhydrated. *)
Lemma query_only_segment_rejected :
  Js.last_segment "https://www.tiktok.com/@u/video/1/?x=1" = "?x=1"
  /\ Part002.load 0 (Examples.embed_page "https://www.tiktok.com/@u/video/1/?x=1")
     = Done (log (Warn "Invalid TikTok URL:" "https://www.tiktok.com/@u/video/1/?x=1")
               (Examples.embed_page "https://www.tiktok.com/@u/video/1/?x=1"))
  /\ (isLoaded <$> embeds (Examples.embed_page "https://www.tiktok.com/@u/video/1/?x=1") !! 0)
     = Some false
  /\ Part000.load 0 (Examples.embed_page0 "https://www.tiktok.com/@u/video/1/?x=1")
     = Done (log (Warn "Invalid TikTok URL:" "https://www.tiktok.com/@u/video/1/?x=1")
               (Examples.embed_page0 "https://www.tiktok.com/@u/video/1/?x=1")).
Proof. repeat split; vm_compute; reflexivity. Qed.


Lemma video_123456_contained :
  Js.contains_video_id "https://example.com/video/123456".
Proof.
  exists "https://example.com/", "123456", EmptyString. repeat split. discriminate.
Qed.

Lemma not_a_url_lacks_id : ~ Js.contains_video_id "not-a-url".
Proof.
  intros H. destruct (match_video_complete _ H) as (v & Hv & _). discriminate Hv.
Qed.

(** C1 as amended.  [TikTokEmbed.load] hydrates, and leaves exactly one
    iframe in the container, whenever its own extraction yields a non-empty
    identifier: the part of the last ['/']-separated segment before its first
    ['?'], which is the numeric identifier when the URL ends in [/<digits>],
    or in [/<digits>?<query>] with no ['/'] in the query.  [hydrateTikTok]
    does so for every card whose URL holds [video/<digits>] anywhere.  The
    invariant: an object constructed on a container that holds no iframe
    satisfies it, and on a page where no two objects share a container an
    object whose title and poster source hold no double quote, [&], NUL or
    carriage return keeps it along every sequence of [load()] and
    [unload()] calls on the objects of the page: hydrated, its container
    holds exactly the iframe it refers to; unhydrated, it refers to none
    and its container holds none. *)
Theorem hydration_leaves_one_embed :
  (forall e p E u,
      embeds p !! e = Some E -> isLoaded E = false -> url E = Some u ->
      container E < length (containers p) ->
      Js.extractVideoId u <> EmptyString ->
      exists p',
        Part002.load e p = Done p'
        /\ (isLoaded <$> embeds p' !! e) = Some true
        /\ (iframe <$> embeds p' !! e) = Some (Some (length (frames p)))
        /\ frames_of (container E) p' = [length (frames p)])
  /\ (forall pre d q,
         Js.all_chars Js.is_digit d = true -> d <> EmptyString ->
         (q = EmptyString
          \/ exists q', q = String "?" q'
                        /\ Js.all_chars (fun c => negb (Ascii.eqb c "/")) q' = true) ->
         Js.extractVideoId (pre ++ "/" ++ d ++ q) = d)
  /\ (forall c p C,
         containers p !! c = Some C -> frames_in (children C) = [] ->
         Part002.one_or_none (fst (Part002.construct c p)) (snd (Part002.construct c p)))
  /\ (forall e cs p,
         Part002.one_object_each p -> Part002.plain_poster e p ->
         Part002.one_or_none e p -> Part002.one_or_none e (Part002.calls_on cs p))
  /\ (forall env c p C,
         c ∉ Cards.hydratedTikToks p -> Cards.cards p !! c = Some C ->
         Js.contains_video_id (Js.or_else (tiktokUrl (dataset C)) "") ->
         is_Some (query "ttk__poster-img" (children C)) ->
         is_Some (query "ttk__poster" (children C)) ->
         is_Some (query "ttk__frame" (children C)) ->
         frames_in (children C) = [] ->
         Cards.has_IntersectionObserver env = true ->
         exists p' v,
           Cards.hydrateTikTok env c p = Done p'
           /\ c ∈ Cards.hydratedTikToks p'
           /\ Cards.frames p' = (Cards.frames p ++ [Cards.buildIframe v])%list
           /\ Cards.frames_of c p' = [length (Cards.frames p)]).
Proof.
  split; [|split; [|split; [|split]]].
  - intros e p E u HE Hl Hu Hc Hid.
    pose proof (lookup_lt_Some _ _ _ HE) as He.
    eexists. split; [apply (Part002Facts.load_unhydrated _ _ _ _ HE Hl Hu Hid)|].
    cbn [frames embeds containers with_embeds with_containers with_frames].
    rewrite list_lookup_insert_eq by exact He.
    split; [reflexivity|]. split; [reflexivity|].
    erewrite (Part002Facts.frames_of_alter_children _ _ (containers p));
      [|reflexivity|exact Hc]. reflexivity.
  - intros pre d q Hd Hne Hq. apply extractVideoId_suffix.
    + rewrite all_chars_app, (digits_no_sep "/" d eq_refl Hd). simpl.
      destruct Hq as [->|(q' & -> & Hq')]; [reflexivity|exact Hq'].
    + exact (digits_no_sep "?" d eq_refl Hd).
    + destruct Hq as [->|(q' & -> & _)]; eauto.
  - exact Part002Facts.one_or_none_construct.
  - intros e cs p. apply Part002Facts.one_or_none_calls_on.
  - intros env c p C Hin HC Hid Himg Hbtn Hfr Hnone Hio.
    destruct (match_video_complete _ Hid) as (v & Hv & _).
    destruct (CardsFacts.hydrateTikTok_success env c p C v Hin HC Hv Himg Hbtn Hfr Hnone Hio)
      as (p' & H). exists p', v. exact H.
Qed.

Lemma hydration_leaves_one_embed_witness :
  (exists p',
      Part002.load 0 (Examples.embed_page "https://example.com/video/123456") = Done p'
      /\ (isLoaded <$> embeds p' !! 0) = Some true
      /\ frames_of 0 p' = [0])
  /\ Part002.one_or_none 0
       (Part002.calls_on
          [(0, Part002.CallLoad); (0, Part002.CallUnload); (0, Part002.CallLoad)]
          (Examples.embed_page "https://example.com/video/123456"))
  /\ (exists p',
         Cards.hydrateTikTok Examples.modern 0
           (Examples.cards_page "https://example.com/video/123456") = Done p'
         /\ Cards.frames_of 0 p' = [0]).
Proof.
  destruct hydration_leaves_one_embed as (H1 & _ & H3 & H4 & H5).
  split; [|split].
  - edestruct (H1 0 (Examples.embed_page "https://example.com/video/123456"))
      as (p' & Ha & Hb & _ & Hd);
      [reflexivity|reflexivity|reflexivity|simpl; lia|discriminate|].
    exists p'. repeat split; assumption.
  - apply H4.
    + apply NoDup_singleton.
    + eexists. split; [reflexivity|]. split; reflexivity.
    + apply (H3 0 (Examples.page_of_url "https://example.com/video/123456")
                (Examples.container_of "https://example.com/video/123456"));
        reflexivity.
  - edestruct (H5 Examples.modern 0
                 (Examples.cards_page "https://example.com/video/123456"))
      as (p' & v & Ha & _ & _ & Hd);
      [set_solver|reflexivity|exact video_123456_contained
      |simpl; eauto|simpl; eauto|simpl; eauto|reflexivity|reflexivity|].
    exists p'. split; assumption.
Defined.

(** C1 as stated fails for [TikTokEmbed.load]: the URL holds the numeric
    identifier 123456, but a ['/'] follows it, the last segment is empty and
    [load()] only warns; the Placeholder stays unhydrated with no iframe. *)
Lemma trailing_slash_stays_unhydrated :
  Js.match_video "https://www.tiktok.com/@u/video/123456/" = Some "123456"
  /\ Part002.load 0 (Examples.embed_page "https://www.tiktok.com/@u/video/123456/")
     = Done (log (Warn "Invalid TikTok URL:" "https://www.tiktok.com/@u/video/123456/")
               (Examples.embed_page "https://www.tiktok.com/@u/video/123456/"))
  /\ (isLoaded <$>
        embeds (Examples.loaded_page "https://www.tiktok.com/@u/video/123456/") !! 0)
     = Some false
  /\ frames_of 0 (Examples.loaded_page "https://www.tiktok.com/@u/video/123456/") = [].
Proof. repeat split; vm_compute; reflexivity. Qed.

(** C2 as amended.  [hydrateTikTok], on a card whose URL holds no
    [video/<digits>] (such as [not-a-url]), records the card, reveals the
    error element and fills it with the markup of its template; when the
    URL holds no double quote, [&], NUL or carriage return, that is the
    fallback paragraph and a link whose [href] is the source URL, and no
    iframe is added.
    [TikTokEmbed.load] has no such branch: when its extraction yields the
    empty identifier it logs a warning and returns with the page otherwise
    unchanged, the Placeholder still unhydrated. *)
Theorem unextractable_url_outcomes :
  (forall env c p C,
      c ∉ Cards.hydratedTikToks p -> Cards.cards p !! c = Some C ->
      ~ Js.contains_video_id (Js.or_else (tiktokUrl (dataset C)) "") ->
      is_Some (query "ttk__poster-img" (children C)) ->
      is_Some (query "ttk__error" (children C)) ->
      let url := Js.or_else (tiktokUrl (dataset C)) "" in
      exists p' C' a,
        Cards.hydrateTikTok env c p = Done p'
        /\ c ∈ Cards.hydratedTikToks p'
        /\ Cards.cards p' !! c = Some C'
        /\ query "ttk__error" (children C')
           = Some (Elem a (placed (length (Cards.frames p)) (Cards.fallback_markup p url)))
        /\ get_assoc "hidden" (attrs a) = None
        /\ (Js.plain url = true ->
            Cards.frames p' = Cards.frames p
            /\ query "ttk__error" (children C')
               = Some (Elem a
                         [elem "p" [] [] [Text "Couldn’t load video."];
                          elem "a" []
                            [("href", url); ("target", "_blank"); ("rel", "noopener")]
                            [Text "Open on TikTok"]])
            /\ url ∈ hrefs_in (children C')))
  /\ (forall e p E u,
         embeds p !! e = Some E -> isLoaded E = false -> url E = Some u ->
         Js.extractVideoId u = EmptyString ->
         Part002.load e p = Done (log (Warn "Invalid TikTok URL:" u) p)
         /\ Part000.load e p = Done (log (Warn "Invalid TikTok URL:" u) p)).
Proof.
  split.
  - intros env c p C Hin HC Hid Himg Herr url.
    destruct (CardsFacts.hydrateTikTok_error env c p C Hin HC
                (match_video_None _ Hid) Himg Herr)
      as (p' & C' & a & H1 & H2 & H3 & H4 & H5 & H6 & H7).
    exists p', C', a. fold url in H3, H5, H7.
    split; [exact H1|]. split; [exact H2|]. split; [exact H4|].
    split; [exact H5|]. split; [exact H6|].
    intros Hp. rewrite (CardsFacts.fallback_markup_plain p url Hp) in H3, H5, H7.
    split; [rewrite H3; apply app_nil_r|]. split; [exact H5|].
    apply H7. simpl. set_solver.
  - intros e p E u HE Hl Hu Hid. split.
    + apply (Part002Facts.load_unextractable _ _ _ _ HE Hl Hu Hid).
    + unfold Part000.load. rewrite HE, Hl, Hu, Hid. reflexivity.
Qed.

Lemma unextractable_url_outcomes_witness :
  (exists p' C',
      Cards.hydrateTikTok Examples.modern 0 (Examples.cards_page "not-a-url") = Done p'
      /\ Cards.cards p' !! 0 = Some C'
      /\ "not-a-url" ∈ hrefs_in (children C'))
  /\ Part002.load 0 (Examples.embed_page "https://www.tiktok.com/@u/video/123456/")
     = Done (log (Warn "Invalid TikTok URL:" "https://www.tiktok.com/@u/video/123456/")
               (Examples.embed_page "https://www.tiktok.com/@u/video/123456/")).
Proof.
  destruct unextractable_url_outcomes as (H1 & H2). split.
  - edestruct (H1 Examples.modern 0 (Examples.cards_page "not-a-url"))
      as (p' & C' & a & Ha & _ & Hd & _ & _ & Hg);
      [set_solver|reflexivity|exact not_a_url_lacks_id|simpl; eauto|simpl; eauto|].
    destruct (Hg eq_refl) as (_ & _ & Hh).
    exists p', C'. repeat split; assumption.
  - edestruct (H2 0 (Examples.embed_page "https://www.tiktok.com/@u/video/123456/"))
      as [Ha _]; [reflexivity|reflexivity|reflexivity|reflexivity|exact Ha].
Defined.

(** C2 as stated fails for [TikTokEmbed.load]: [not-a-url] has no ['/'], so
    the whole string is the identifier; [load()] hydrates the Placeholder and
    the container holds an iframe and no link. *)
Lemma not_a_url_is_hydrated :
  Js.match_video "not-a-url" = None
  /\ Part002.load 0 (Examples.embed_page "not-a-url")
     = Done (Examples.loaded_page "not-a-url")
  /\ (isLoaded <$> embeds (Examples.loaded_page "not-a-url") !! 0) = Some true
  /\ frames_of 0 (Examples.loaded_page "not-a-url") = [0]
  /\ (hrefs_in ∘ children <$> containers (Examples.loaded_page "not-a-url") !! 0)
     = Some []
  /\ (src <$> frames (Examples.loaded_page "not-a-url") !! 0)
     = Some "https://www.tiktok.com/embed/v2/not-a-url?autoplay=1&muted=1&controls=1&rel=0&loop=0".
Proof. repeat split; vm_compute; reflexivity. Qed.


(** For a numeric identifier the iframe of [load()] points at
    [/embed/v2/<videoId>] with the five query parameters of part_002. *)
Lemma embed_src_numeric e E d :
  Js.all_chars Js.is_digit d = true ->
  src (Part002.new_iframe e E d)
  = "https://www.tiktok.com/embed/v2/" ++ d ++ "?autoplay=1&muted=1&controls=1&rel=0&loop=0".
Proof.
  intros Hd. apply (embedUrl_unreserved_002 d), digits_unreserved, Hd.
Qed.

(** C6 at [source="https://example.com/video/123456"].  [TikTokEmbed.load]
    and the inline script put the identifier directly after [/embed/v2/];
    [buildIframe], which [hydrateTikTok] uses, puts [video/] in between. *)
Theorem embed_urls_for_123456 :
  (src <$> frames (Examples.loaded_page "https://example.com/video/123456") !! 0)
  = Some "https://www.tiktok.com/embed/v2/123456?autoplay=1&muted=1&controls=1&rel=0&loop=0"
  /\ src (Inline.new_iframe "123456") = "https://www.tiktok.com/embed/v2/123456"
  /\ Js.match_video "https://example.com/video/123456" = Some "123456"
  /\ src (Cards.buildIframe "123456")
     = "https://www.tiktok.com/embed/v2/video/123456?lang=en-US&autoplay=1&controls=1&muted=1"
  /\ (src <$>
        Cards.frames
          (Js.state_of
             (Cards.hydrateTikTok Examples.modern 0
                (Examples.cards_page "https://example.com/video/123456"))) !! 0)
     = Some "https://www.tiktok.com/embed/v2/video/123456?lang=en-US&autoplay=1&controls=1&muted=1".
Proof. repeat split; vm_compute; reflexivity. Qed.

(** Without a [.press-card] around the container [handleLoadError()] throws
    before it writes anything. *)
Lemma handleLoadError_without_press_card e p E C :
  embeds p !! e = Some E -> containers p !! container E = Some C ->
  press_card C = None ->
  Part002.handleLoadError e p = Thrown "TypeError: closest(...) is null" p.
Proof.
  intros HE HC Hp. unfold Part002.handleLoadError. rewrite HE, HC, Hp. reflexivity.
Qed.

(** Inside a [.press-card] the error listener of [load()] warns, shows the
    press link of the card if there is one, replaces the content of the
    container by the error box and tracks the event; the object keeps its
    fields and the listener is gone.  For a URL that holds no double quote,
    [&], NUL or carriage return the box holds the text "Video unavailable"
    and a link to the URL, and no iframe. *)
Lemma handleLoadError_in_press_card f p i e videoId E C pc :
  frames p !! f = Some i -> on_error i = [ErrorOnce e videoId] ->
  embeds p !! e = Some E -> containers p !! container E = Some C ->
  press_card C = Some pc ->
  Js.plain (Js.interpolate (url E)) = true ->
  let p' := Part002.step (Part002.FrameError f) p in
  containers p' !! container E
  = Some (with_children
            [Part002.errorMsg
               [elem "p" [] [] [Text "Video unavailable"];
                elem "a" [] [("href", Js.interpolate (url E)); ("target", "_blank");
                             ("rel", "noopener")]
                  [Text "Watch on TikTok →"]]]
            (with_press_card
               (Some {| press_link := (fun _ => "block") <$> press_link pc |}) C))
  /\ frames_of (container E) p' = []
  /\ embeds p' = embeds p
  /\ console p'
     = (console p ++ [Warn "TikTok embed failed to load:" videoId]
          ++ [Track "video_load_error" (Some videoId)])%list
  /\ (on_error <$> frames p' !! f) = Some [].
Proof.
  intros Hi Herr HE HC Hpc Hplain p'.
  pose proof (lookup_lt_Some _ _ _ HC) as Hc.
  pose proof (lookup_lt_Some _ _ _ Hi) as Hf.
  assert (p' = Part002.trackEvent "video_load_error" (Some videoId)
                 (with_containers
                    (<[container E :=
                         with_children [Part002.errorMsg (Part002.error_nodes E)]
                           (with_press_card
                              (Some {| press_link := (fun _ => "block") <$> press_link pc |})
                              C)]> (containers p))
                    (with_frames (<[f := with_on_error [] i]> (frames p) ++ [])
                       (log (Warn "TikTok embed failed to load:" videoId)
                          (with_frames (<[f := with_on_error [] i]> (frames p)) p))))) as ->.
  { unfold p', Part002.step. rewrite Hi, Herr. simpl.
    unfold Part002.handleLoadError. simpl. rewrite HE, HC, Hpc.
    unfold Part002.error_markup. rewrite Hplain. reflexivity. }
  simpl. rewrite app_nil_r, !list_lookup_insert_eq by assumption.
  repeat split.
  - unfold frames_of. simpl. rewrite list_lookup_insert_eq by assumption. reflexivity.
  - rewrite <- app_assoc. reflexivity.
Qed.

(** C8 at a Placeholder whose container lies in no [.press-card].  The
    iframe of [load()] reports an error: the listener warns, then
    [handleLoadError()] throws at [closest('.press-card').querySelector],
    before it has written anything.  The container keeps the failed iframe
    and holds no link, the object stays hydrated, and the error event is not
    tracked.  The same Placeholder inside a [.press-card] gets the fallback
    box with the link to its URL, and so does, with or without a press card,
    the Placeholder of part_000, whose [handleLoadError()] does not look for
    a press link. *)
Theorem load_error_outside_press_card :
  let u := "https://example.com/video/123456" in
  let lone := Part002.step (Part002.FrameError 0) (Examples.lone_loaded_page u) in
  let carded := Part002.step (Part002.FrameError 0) (Examples.loaded_page u) in
  let old := Part000.step (Part000.FrameError 0) (Examples.lone_loaded_page0 u) in
  Part002.handleLoadError 0 (Examples.lone_loaded_page u)
  = Thrown "TypeError: closest(...) is null" (Examples.lone_loaded_page u)
  /\ (children <$> containers lone !! 0) = Some [Part002.frameWrapper 0]
  /\ (hrefs_in ∘ children <$> containers lone !! 0) = Some []
  /\ (text_in ∘ children <$> containers lone !! 0) = Some []
  /\ (isLoaded <$> embeds lone !! 0) = Some true
  /\ console lone = [Warn "TikTok embed failed to load:" "123456"]
  /\ (hrefs_in ∘ children <$> containers carded !! 0) = Some [u]
  /\ (text_in ∘ children <$> containers carded !! 0)
     = Some ["Video unavailable"; "Watch on TikTok →"]
  /\ console carded = [Warn "TikTok embed failed to load:" "123456";
                       Track "video_load_error" (Some "123456")]
  /\ (hrefs_in ∘ children <$> containers old !! 0) = Some [u]
  /\ (text_in ∘ children <$> containers old !! 0)
     = Some ["Video unavailable"; "Watch on TikTok →"].
Proof. vm_compute. repeat split. Qed.

(** C10.  [hydrateTikTok] puts the card into [hydratedTikToks] before it
    looks at the URL: whatever the first call did (hydrate, show the error
    branch, or throw on a missing element), the card is in the set
    afterwards, a further call returns at once, and no click, observer
    callback or animation frame ever takes the card out of the set or
    changes its markup again. *)
Theorem hydrateTikTok_marks_first env c p :
  let p' := Js.state_of (Cards.hydrateTikTok env c p) in
  c ∈ Cards.hydratedTikToks p'
  /\ Cards.hydrateTikTok env c p' = Done p'
  /\ (forall evs,
         c ∈ Cards.hydratedTikToks (Cards.run env evs p')
         /\ Cards.cards (Cards.run env evs p') !! c = Cards.cards p' !! c
         /\ Cards.hydrateTikTok env c (Cards.run env evs p')
            = Done (Cards.run env evs p')).
Proof.
  intros p'. pose proof (CardsFacts.hydrateTikTok_marks env c p) as Hin.
  split; [exact Hin|]. split; [apply CardsFacts.hydrateTikTok_known, Hin|].
  intros evs. destruct (CardsFacts.run_keeps env c evs p' Hin) as [H1 H2].
  split; [exact H1|]. split; [exact H2|].
  apply CardsFacts.hydrateTikTok_known, H1.
Qed.

(** The error branch at [not-a-url]: a click on the poster after the failed
    hydration changes nothing. *)
Example error_branch_click_is_noop :
  let p' := Js.state_of (Cards.hydrateTikTok Examples.modern 0
                           (Js.state_of (Cards.initTikTok Examples.modern
                              (Examples.cards_page "not-a-url")))) in
  Cards.run Examples.modern [Cards.Click 0; Cards.Intersect [(0, true)]] p' = p'.
Proof. vm_compute. reflexivity. Qed.

(** Along calls of [load()] and [unload()] a hydrated object has all that
    [unload_load_round_trip] asks of it. *)
Lemma hydrated_ready e p E :
  Part002.one_or_none e p -> embeds p !! e = Some E -> isLoaded E = true ->
  exists u f i C,
    url E = Some u /\ Js.extractVideoId u <> EmptyString
    /\ iframe E = Some f /\ frames p !! f = Some i
    /\ containers p !! container E = Some C.
Proof.
  intros (E' & HE' & Hc & Hinv) HE Hl. rewrite HE in HE'. injection HE' as <-.
  rewrite Hl in Hinv. destruct Hinv as (f & u & Hf & _ & Hlt & Hu & Hid).
  destruct (lookup_lt_is_Some_2 _ _ Hlt) as [i Hi].
  destruct (lookup_lt_is_Some_2 _ _ Hc) as [C HC].
  exists u, f, i, C. auto.
Qed.

End Placeholder.

(** * Setting up the Placeholders of a page *)

Module SetupFacts.
Import Dom Page JsFacts DomFacts Part002Facts.

Lemma construct_same : Part000.construct = Part002.construct.
Proof. reflexivity. Qed.

Lemma construct_rest c p :
  frames (snd (Part002.construct c p)) = frames p
  /\ console (snd (Part002.construct c p)) = console p
  /\ observed (snd (Part002.construct c p)) = observed p
  /\ timers (snd (Part002.construct c p)) = timers p
  /\ length (containers (snd (Part002.construct c p))) = length (containers p)
  /\ (forall c', (dataset <$> containers (snd (Part002.construct c p)) !! c')
                 = (dataset <$> containers p !! c')).
Proof.
  unfold Part002.construct. destruct (containers p !! c) as [C|]; simpl; [|repeat split].
  match goal with |- context [Part002.init ?e ?q] =>
    destruct (init_rest e q) as (-> & -> & -> & ->);
    pose proof (init_frames e q) as ->;
    pose proof (fun c' => proj1 (init_container e c' q)) as Hd
  end.
  repeat split. exact Hd.
Qed.

Lemma built_start p : embeds p = [] -> built 0 p p.
Proof.
  intros He. unfold built. rewrite He. repeat split. intros c C Hc. lia.
Qed.

(** One more container gets its object. *)
Lemma built_construct k p q :
  built k p q -> k < length (containers p) ->
  fst (Part002.construct k q) = k /\ built (S k) p (snd (Part002.construct k q)).
Proof.
  intros (Hlen & Hds & Hk & Hes & Hfr) Hlt.
  destruct (lookup_lt_is_Some_2 (containers q) k) as [Cq HCq]; [lia|].
  destruct (construct_embed k q Cq HCq) as [Hfst Hembeds].
  destruct (construct_rest k q) as (Hf & _ & _ & _ & Hl & Hd).
  split; [rewrite Hfst; exact Hk|].
  unfold built. rewrite Hl, Hf, Hembeds, length_app. simpl.
  split; [exact Hlen|]. split; [intros c; rewrite Hd; apply Hds|].
  split; [lia|]. split; [|exact Hfr].
  intros c C Hc HC. destruct (decide (c = k)) as [->|Hne].
  - eexists. rewrite lookup_app_r, Hk, Nat.sub_diag by lia.
    split; [reflexivity|]. simpl. repeat split.
    specialize (Hds k). rewrite HCq, HC in Hds. simpl in Hds. congruence.
  - destruct (Hes c C ltac:(lia) HC) as (E & HE & H).
    exists E. rewrite lookup_app_l by (eapply lookup_lt_Some; exact HE).
    split; assumption.
Qed.

(** what a wrapper around [construct] may change without affecting [built] *)
Lemma built_ext k p q q' :
  built k p q ->
  length (containers q') = length (containers q) ->
  (forall c, (dataset <$> containers q' !! c) = (dataset <$> containers q !! c)) ->
  embeds q' = embeds q -> frames q' = frames q ->
  built k p q'.
Proof.
  intros (Hlen & Hds & Hk & Hes & Hfr) H1 H2 H3 H4.
  unfold built. rewrite H1, H3, H4. repeat split; try assumption.
  intros c. rewrite H2. apply Hds.
Qed.

(** [containers.forEach(container => new TikTokEmbed(container))] *)
Lemma built_forEach_construct p k :
  embeds p = [] -> k <= length (containers p) ->
  exists q, foldl (fun q c => snd (Part002.construct c q)) p (seq 0 k) = q
    /\ built k p q /\ observed q = observed p /\ timers q = timers p
    /\ console q = console p.
Proof.
  intros He. induction k as [|k IH]; intros Hk.
  - eexists. split; [reflexivity|]. split; [apply built_start, He|repeat split].
  - rewrite seq_S, foldl_app.
    destruct (IH ltac:(lia)) as (q & -> & Hb & Ho & Ht & Hc).
    destruct (built_construct _ _ _ Hb ltac:(lia)) as [_ Hb'].
    destruct (construct_rest k q) as (_ & Hc' & Ho' & Ht' & _).
    eexists. split; [reflexivity|]. simpl.
    split; [exact Hb'|]. rewrite Ho', Ht', Hc'. repeat split; assumption.
Qed.

(** the loop of the branch without [IntersectionObserver] *)
Lemma built_forEach_timer p k :
  embeds p = [] -> k <= length (containers p) ->
  exists q, foldl (fun q c =>
                     let '(e, q1) := Part002.construct c q in
                     with_timers (timers q1 ++ [e]) q1) p (seq 0 k) = q
    /\ built k p q /\ observed q = observed p
    /\ timers q = (timers p ++ seq 0 k)%list.
Proof.
  intros He. induction k as [|k IH]; intros Hk.
  - eexists. split; [reflexivity|]. split; [apply built_start, He|].
    simpl. rewrite app_nil_r. split; reflexivity.
  - rewrite seq_S, foldl_app.
    destruct (IH ltac:(lia)) as (q & -> & Hb & Ho & Ht).
    destruct (built_construct _ _ _ Hb ltac:(lia)) as [Hfst Hb'].
    destruct (construct_rest k q) as (_ & _ & Ho' & Ht' & _).
    eexists. split; [reflexivity|]. simpl.
    destruct (Part002.construct k q) as [e q1]. simpl in *. subst e.
    split; [apply (built_ext _ _ _ _ Hb'); reflexivity|].
    rewrite Ho', Ht', Ho, Ht, <- app_assoc. split; reflexivity.
Qed.

End SetupFacts.

(** * Claims about the lazy-loading set-up *)

Module Lifecycle.
Import Dom Page JsFacts DomFacts Part002Facts SetupFacts.

Lemma load_embeds_other e e0 p :
  e <> e0 -> embeds (page_of (Part002.load e0 p)) !! e = embeds p !! e.
Proof.
  intros Hne. unfold Part002.load. repeat case_match; simpl; try reflexivity.
  apply list_lookup_insert_ne. congruence.
Qed.

Lemma load_keeps e p :
  timers (page_of (Part002.load e p)) = timers p
  /\ observed (page_of (Part002.load e p)) = observed p.
Proof. unfold Part002.load. repeat case_match; simpl; split; reflexivity. Qed.

Lemma load_embed_self e p E :
  embeds p !! e = Some E ->
  exists E', embeds (page_of (Part002.load e p)) !! e = Some E'
    /\ container E' = container E /\ url E' = url E
    /\ (isLoaded E = true -> isLoaded E' = true)
    /\ (forall u, url E = Some u -> Js.extractVideoId u <> EmptyString ->
          isLoaded E' = true).
Proof.
  intros HE. pose proof (lookup_lt_Some _ _ _ HE) as He.
  unfold Part002.load. rewrite HE.
  destruct (isLoaded E) eqn:Hl; simpl; [exists E; repeat split; auto|].
  destruct (url E) as [u|] eqn:Hu; simpl.
  2:{ exists E. repeat split; auto; intros; congruence. }
  destruct (Js.is_empty (Js.extractVideoId u)) eqn:Hid; simpl.
  - exists E. repeat split; auto; [intros; congruence|].
    intros u' [= <-] Hne. apply is_empty_true in Hid. contradiction.
  - eexists. rewrite list_lookup_insert_eq by exact He.
    split; [reflexivity|]. simpl. repeat split; auto.
Qed.

Lemma load_keeps_hydrated e0 e c p :
  hydrated_at e c p -> hydrated_at e c (page_of (Part002.load e0 p)).
Proof.
  intros (E & HE & Hc & Hl). destruct (decide (e = e0)) as [->|Hne].
  - destruct (load_embed_self e0 p E HE) as (E' & HE' & Hc' & _ & Hl' & _).
    exists E'. split; [exact HE'|]. split; [congruence|auto].
  - exists E. rewrite (load_embeds_other _ _ _ Hne). auto.
Qed.

Lemma load_keeps_loadable e0 e c u p :
  loadable e c u p -> loadable e c u (page_of (Part002.load e0 p)).
Proof.
  intros (E & HE & Hc & Hu). destruct (decide (e = e0)) as [->|Hne].
  - destruct (load_embed_self e0 p E HE) as (E' & HE' & Hc' & Hu' & _).
    exists E'. split; [exact HE'|]. split; congruence.
  - exists E. rewrite (load_embeds_other _ _ _ Hne). auto.
Qed.

Lemma load_hydrates e c u p :
  loadable e c u p -> Js.extractVideoId u <> EmptyString ->
  hydrated_at e c (page_of (Part002.load e p)).
Proof.
  intros (E & HE & Hc & Hu) Hid.
  destruct (load_embed_self e p E HE) as (E' & HE' & Hc' & _ & _ & Hl).
  exists E'. split; [exact HE'|]. split; [congruence|]. exact (Hl u Hu Hid).
Qed.

Lemma timeouts_keep_hydrated n e c p :
  hydrated_at e c p ->
  hydrated_at e c (Part002.run (replicate n Part002.Timeout) p).
Proof.
  unfold Part002.run. revert p. induction n as [|n IH]; intros p H; simpl; [exact H|].
  apply IH. destruct (timers p) as [|e0 rest]; [exact H|].
  apply load_keeps_hydrated. exact H.
Qed.

(** When the timers have fired, every object in the queue that has an
    extractable identifier is hydrated. *)
Lemma timeouts_hydrate ts : forall p e c u,
  timers p = ts -> e ∈ ts -> loadable e c u p ->
  Js.extractVideoId u <> EmptyString ->
  hydrated_at e c (Part002.run (replicate (length ts) Part002.Timeout) p).
Proof.
  induction ts as [|e0 rest IH]; intros p e c u Ht Hin Hload Hid.
  - inversion Hin.
  - simpl. unfold Part002.run. simpl. rewrite Ht.
    fold (Part002.run (replicate (length rest) Part002.Timeout)
            (page_of (Part002.load e0 (with_timers rest p)))).
    destruct (decide (e = e0)) as [->|Hne].
    + apply timeouts_keep_hydrated.
      apply (load_hydrates e0 c u (with_timers rest p)); assumption.
    + apply (IH _ e c u).
      * rewrite (proj1 (load_keeps e0 (with_timers rest p))). reflexivity.
      * apply elem_of_cons in Hin as [?|?]; [contradiction|assumption].
      * apply (load_keeps_loadable e0 e c u (with_timers rest p)). exact Hload.
      * exact Hid.
Qed.

Lemma nothing_delivered_002 entries p :
  observed p = [] -> Part002.delivered entries p = [].
Proof.
  intros Ho. unfold Part002.delivered. rewrite Ho.
  induction entries as [|en r IH]; [reflexivity|].
  rewrite filter_cons. rewrite bool_decide_eq_false_2 by (intros H; inversion H).
  exact IH.
Qed.

Lemma nothing_delivered_000 entries p :
  observed p = [] -> Part000.delivered entries p = [].
Proof. apply nothing_delivered_002. Qed.

(** With no observer, no timer and no iframe only a click changes the page. *)
Lemma quiet_run_002 evs p :
  observed p = [] -> timers p = [] -> frames p = [] ->
  forallb (fun ev => negb (Part002.is_click ev)) evs = true ->
  Part002.run evs p = p.
Proof.
  intros Ho Ht Hf. unfold Part002.run.
  induction evs as [|ev evs IH]; [reflexivity|]. simpl.
  intros [Hev Hevs]%andb_true_iff.
  assert (Part002.step ev p = p) as ->; [|exact (IH Hevs)].
  destruct ev as [c|entries| |f|f]; simpl in *; try discriminate.
  - rewrite (nothing_delivered_002 _ _ Ho). reflexivity.
  - rewrite Ht. reflexivity.
  - rewrite Hf. reflexivity.
  - rewrite Hf. reflexivity.
Qed.

Lemma quiet_run_000 evs p :
  observed p = [] -> frames p = [] ->
  forallb (fun ev => negb (Part000.is_click ev)) evs = true ->
  Part000.run evs p = p.
Proof.
  intros Ho Hf. unfold Part000.run.
  induction evs as [|ev evs IH]; [reflexivity|]. simpl.
  intros [Hev Hevs]%andb_true_iff.
  assert (Part000.step ev p = p) as ->; [|exact (IH Hevs)].
  destruct ev as [c|entries|f]; simpl in *; try discriminate.
  - rewrite (nothing_delivered_000 _ _ Ho). reflexivity.
  - rewrite Hf. reflexivity.
Qed.

Lemma built_unloaded p q :
  built (length (containers p)) p q -> Forall (fun E => isLoaded E = false) (embeds q).
Proof.
  intros (_ & _ & Hk & Hes & _). apply Forall_lookup. intros i E HE.
  pose proof (lookup_lt_Some _ _ _ HE) as Hi. rewrite Hk in Hi.
  destruct (lookup_lt_is_Some_2 _ _ Hi) as [C HC].
  destruct (Hes i C Hi HC) as (E' & HE' & _ & _ & Hl). congruence.
Qed.

Lemma seq_nil_length {A} (l : list A) : seq 0 (length l) = [] -> length l = 0.
Proof. destruct l; [reflexivity|discriminate]. Qed.


Lemma pristine_sample u : pristine (Examples.page_of_url u).
Proof. repeat split. repeat constructor. Qed.

(** C5 as amended.  [setupLazyLoading] treats the two cases differently.
    Without [IntersectionObserver] (and without the reduced-motion
    preference) it observes nothing and gives every Placeholder a timer
    that calls [load()]: once the timers have fired, every Placeholder with
    an extractable identifier is hydrated, with no visibility event and no
    user action.  With the reduced-motion preference it only constructs the
    Placeholders: none is hydrated, and nothing but a click changes the page
    afterwards.  [setupTikTokEmbeds] only constructs the Placeholders in both
    cases. *)
Theorem auto_load_only_without_observer :
  (forall env p,
      pristine p ->
      Part002.SUPPORTS_INTERSECTION_OBSERVER env = false ->
      Part002.PREFERS_REDUCED_MOTION env = false ->
      observed (Part002.setupLazyLoading env p) = []
      /\ timers (Part002.setupLazyLoading env p) = seq 0 (length (containers p))
      /\ forall c C u,
           containers p !! c = Some C -> tiktokUrl (dataset C) = Some u ->
           Js.extractVideoId u <> EmptyString ->
           hydrated_at c c
             (Part002.run (replicate (length (containers p)) Part002.Timeout)
                (Part002.setupLazyLoading env p)))
  /\ (forall env p,
         pristine p ->
         Part002.PREFERS_REDUCED_MOTION env = true ->
         length (embeds (Part002.setupLazyLoading env p)) = length (containers p)
         /\ Forall (fun E => isLoaded E = false) (embeds (Part002.setupLazyLoading env p))
         /\ forall evs,
              forallb (fun ev => negb (Part002.is_click ev)) evs = true ->
              Part002.run evs (Part002.setupLazyLoading env p)
              = Part002.setupLazyLoading env p)
  /\ (forall env p,
         pristine p ->
         Part000.PREFERS_REDUCED_MOTION env
           || negb (Part000.SUPPORTS_INTERSECTION_OBSERVER env) = true ->
         length (embeds (Part000.setupTikTokEmbeds env p)) = length (containers p)
         /\ Forall (fun E => isLoaded E = false) (embeds (Part000.setupTikTokEmbeds env p))
         /\ forall evs,
              forallb (fun ev => negb (Part000.is_click ev)) evs = true ->
              Part000.run evs (Part000.setupTikTokEmbeds env p)
              = Part000.setupTikTokEmbeds env p).
Proof.
  split; [|split].
  - intros env p (He & Hf & Ho & Ht & _) Hio Hrm.
    unfold Part002.setupLazyLoading. case_bool_decide as Hn.
    + apply seq_nil_length in Hn. rewrite Hn. repeat split; try assumption.
      intros c C u HC. apply lookup_lt_Some in HC. lia.
    + rewrite Hrm, Hio.
      destruct (built_forEach_timer p (length (containers p)) He (le_n _))
        as (q & -> & Hb & Hoq & Htq).
      rewrite Ht in Htq. simpl in Htq.
      split; [congruence|]. split; [exact Htq|].
      intros c C u HC Hu Hid.
      pose proof (lookup_lt_Some _ _ _ HC) as Hc.
      destruct Hb as (_ & _ & _ & Hes & _).
      destruct (Hes c C Hc HC) as (E & HE & HcE & HuE & _).
      assert (c ∈ seq 0 (length (containers p))) as Hin by (apply elem_of_seq; lia).
      assert (loadable c c u q) as Hload
        by (exists E; split; [exact HE|]; split; [exact HcE|congruence]).
      pose proof (timeouts_hydrate _ q c c u Htq Hin Hload Hid) as H.
      rewrite length_seq in H. exact H.
  - intros env p (He & Hf & Ho & Ht & _) Hrm.
    unfold Part002.setupLazyLoading. case_bool_decide as Hn.
    + apply seq_nil_length in Hn. rewrite He, Hn.
      split; [reflexivity|]. split; [constructor|].
      intros evs. apply quiet_run_002; assumption.
    + rewrite Hrm.
      destruct (built_forEach_construct
                  (log (Log "Reduced motion preference detected, skipping auto-load") p)
                  (length (containers p)) He (le_n _))
        as (q & -> & Hb & Hoq & Htq & _).
      split; [exact (proj1 (proj2 (proj2 Hb)))|].
      split; [exact (built_unloaded _ q Hb)|].
      intros evs. apply quiet_run_002.
      * rewrite Hoq. exact Ho.
      * rewrite Htq. exact Ht.
      * rewrite (proj2 (proj2 (proj2 (proj2 Hb)))). exact Hf.
  - intros env p (He & Hf & Ho & Ht & _) Hcase.
    unfold Part000.setupTikTokEmbeds. case_bool_decide as Hn.
    + apply seq_nil_length in Hn. rewrite He, Hn.
      split; [reflexivity|]. split; [constructor|].
      intros evs. apply quiet_run_000; assumption.
    + rewrite Hcase. rewrite construct_same.
      destruct (built_forEach_construct p (length (containers p)) He (le_n _))
        as (q & -> & Hb & Hoq & Htq & _).
      split; [exact (proj1 (proj2 (proj2 Hb)))|].
      split; [exact (built_unloaded _ q Hb)|].
      intros evs. apply quiet_run_000.
      * rewrite Hoq. exact Ho.
      * rewrite (proj2 (proj2 (proj2 (proj2 Hb)))). exact Hf.
Qed.

Lemma auto_load_only_without_observer_witness :
  hydrated_at 0 0
    (Part002.run [Part002.Timeout]
       (Part002.setupLazyLoading
          {| Part002.SUPPORTS_INTERSECTION_OBSERVER := false;
             Part002.PREFERS_REDUCED_MOTION := false |}
          (Examples.page_of_url "https://example.com/video/123456")))
  /\ Part002.run [Part002.Intersect [(0, true)]; Part002.Timeout]
       (Part002.setupLazyLoading
          {| Part002.SUPPORTS_INTERSECTION_OBSERVER := true;
             Part002.PREFERS_REDUCED_MOTION := true |}
          (Examples.page_of_url "https://example.com/video/123456"))
     = Part002.setupLazyLoading
         {| Part002.SUPPORTS_INTERSECTION_OBSERVER := true;
            Part002.PREFERS_REDUCED_MOTION := true |}
         (Examples.page_of_url "https://example.com/video/123456")
  /\ Part000.run [Part000.Intersect [(0, true)]]
       (Part000.setupTikTokEmbeds
          {| Part000.SUPPORTS_INTERSECTION_OBSERVER := false;
             Part000.PREFERS_REDUCED_MOTION := false |}
          (Examples.page_of_url "https://example.com/video/123456"))
     = Part000.setupTikTokEmbeds
         {| Part000.SUPPORTS_INTERSECTION_OBSERVER := false;
            Part000.PREFERS_REDUCED_MOTION := false |}
         (Examples.page_of_url "https://example.com/video/123456").
Proof.
  destruct auto_load_only_without_observer as (H1 & H2 & H3).
  split; [|split].
  - edestruct (H1 {| Part002.SUPPORTS_INTERSECTION_OBSERVER := false;
                     Part002.PREFERS_REDUCED_MOTION := false |}
                  (Examples.page_of_url "https://example.com/video/123456"))
      as (_ & _ & H); [apply pristine_sample|reflexivity|reflexivity|].
    apply (H 0 (Examples.container_of "https://example.com/video/123456")
             "https://example.com/video/123456"); [reflexivity|reflexivity|discriminate].
  - edestruct (H2 {| Part002.SUPPORTS_INTERSECTION_OBSERVER := true;
                     Part002.PREFERS_REDUCED_MOTION := true |}
                  (Examples.page_of_url "https://example.com/video/123456"))
      as (_ & _ & H); [apply pristine_sample|reflexivity|].
    apply H. reflexivity.
  - edestruct (H3 {| Part000.SUPPORTS_INTERSECTION_OBSERVER := false;
                     Part000.PREFERS_REDUCED_MOTION := false |}
                  (Examples.page_of_url "https://example.com/video/123456"))
      as (_ & _ & H); [apply pristine_sample|reflexivity|].
    apply H. reflexivity.
Defined.

(** C5 as stated fails.  With the reduced-motion preference set,
    [setupLazyLoading] logs that it skips auto-loading; visibility events and
    timer ticks leave the Placeholder unhydrated.  [setupTikTokEmbeds] does
    not load either, whether the preference is set or the observer is
    missing. *)
Lemma reduced_motion_skips_auto_load :
  let reduced := {| Part002.SUPPORTS_INTERSECTION_OBSERVER := true;
                    Part002.PREFERS_REDUCED_MOTION := true |} in
  let old := {| Part000.SUPPORTS_INTERSECTION_OBSERVER := false;
                Part000.PREFERS_REDUCED_MOTION := false |} in
  let p := Part002.run [Part002.Intersect [(0, true)]; Part002.Timeout; Part002.Timeout]
             (Part002.setupLazyLoading reduced
                (Examples.page_of_url "https://example.com/video/123456")) in
  let p0 := Part000.run [Part000.Intersect [(0, true)]; Part000.Intersect [(0, false)]]
              (Part000.setupTikTokEmbeds old
                 (Examples.page_of_url "https://example.com/video/123456")) in
  Js.extractVideoId "https://example.com/video/123456" = "123456"
  /\ (isLoaded <$> embeds p !! 0) = Some false
  /\ frames_of 0 p = []
  /\ console p = [Log "Reduced motion preference detected, skipping auto-load"]
  /\ (isLoaded <$> embeds p0 !! 0) = Some false
  /\ frames_of 0 p0 = [].
Proof. repeat split; vm_compute; reflexivity. Qed.


Lemma foldl_preserves {A S B : Type} (obs : S -> B) (f : S -> A -> S) l :
  (forall s a, obs (f s a) = obs s) -> forall s, obs (foldl f s l) = obs s.
Proof.
  intros Hf. induction l as [|a l IH]; intros s; simpl; [reflexivity|].
  rewrite IH. apply Hf.
Qed.

Lemma on_intersect_observed_002 entries : forall p,
  observed (page_of (Part002.on_intersect entries p)) = observed p.
Proof.
  induction entries as [|[c b] rest IH]; intros p; simpl; [reflexivity|].
  destruct (Part002.embed_at c p) as [[e E]|]; [|reflexivity].
  destruct b; [|apply IH].
  destruct (negb (isLoaded E)); [|apply IH].
  pose proof (proj2 (load_keeps e p)) as Hl.
  destruct (Part002.load e p) as [p'|err p']; simpl in *; [|exact Hl].
  rewrite IH. exact Hl.
Qed.

Lemma handleLoadError_observed e p :
  observed (page_of (Part002.handleLoadError e p)) = observed p.
Proof. unfold Part002.handleLoadError. repeat case_match; reflexivity. Qed.

(** No event of part_002 changes what the observer observes. *)
Lemma step_observed_002 ev p : observed (Part002.step ev p) = observed p.
Proof.
  destruct ev as [c|entries| |f|f]; simpl.
  - unfold Part002.click. repeat case_match; try reflexivity.
    apply (foldl_preserves observed). intros s [e|c']; simpl; [|reflexivity].
    pose proof (proj2 (load_keeps e s)) as Hl.
    destruct (Part002.load e s); simpl in *; exact Hl.
  - apply on_intersect_observed_002.
  - destruct (timers p) as [|e rest]; [reflexivity|].
    apply (proj2 (load_keeps e (with_timers rest p))).
  - destruct (frames p !! f) as [i|]; [|reflexivity].
    rewrite (foldl_preserves observed); [reflexivity|].
    intros s [e v|e v|e v|]; simpl; try reflexivity.
    pose proof (handleLoadError_observed e (log (Warn "TikTok embed failed to load:" v) s))
      as Hh.
    destruct (Part002.handleLoadError e _); simpl in *; exact Hh.
  - destruct (frames p !! f) as [i|]; [|reflexivity].
    rewrite (foldl_preserves observed); [reflexivity|].
    intros s [e v|e v|e v|]; reflexivity.
Qed.

Lemma load_observed_000 e p :
  observed (page_of (Part000.load e p)) = observed p.
Proof. unfold Part000.load. repeat case_match; reflexivity. Qed.

Lemma on_intersect_observed_000 entries : forall p x,
  x ∈ observed (Part000.on_intersect entries p) -> x ∈ observed p.
Proof.
  induction entries as [|[c b] rest IH]; intros p x; simpl; [auto|].
  destruct (containers p !! c) as [C|]; [|apply IH].
  destruct (b && negb (bool_decide (is_Some (tiktokEmbed C)))); [|apply IH].
  rewrite construct_same.
  destruct (construct_rest c p) as (_ & _ & Ho & _).
  destruct (Part002.construct c p) as [e p1]. simpl in Ho.
  intros H. apply IH in H. simpl in H.
  apply list_elem_of_filter in H as [_ H]. rewrite Ho in H. exact H.
Qed.

(** No event of part_000 adds a target to the observer. *)
Lemma step_observed_000 ev p x :
  x ∈ observed (Part000.step ev p) -> x ∈ observed p.
Proof.
  destruct ev as [c|entries|f]; simpl.
  - unfold Part000.click. repeat case_match; auto.
    rewrite (foldl_preserves observed); [auto|].
    intros s [e|c']; simpl; [apply load_observed_000|reflexivity].
  - apply on_intersect_observed_000.
  - destruct (frames p !! f) as [i|]; [|auto].
    rewrite (foldl_preserves observed); [auto|].
    intros s [e v|e v|e v|]; simpl; try reflexivity.
    unfold Part000.handleLoadError. simpl. destruct (embeds s !! e); reflexivity.
Qed.

Lemma run_observed_000 evs : forall p x,
  x ∈ observed (Part000.run evs p) -> x ∈ observed p.
Proof.
  unfold Part000.run. induction evs as [|ev evs IH]; intros p x; simpl; [auto|].
  intros H. apply IH in H. exact (step_observed_000 _ _ _ H).
Qed.

Lemma not_delivered_000 c entries p :
  c ∉ observed p -> Forall (fun en : nat * bool => fst en = c) entries ->
  Part000.delivered entries p = [].
Proof.
  intros Hc. unfold Part000.delivered.
  induction 1 as [|en r Hen _ IH]; [reflexivity|].
  rewrite filter_cons, bool_decide_eq_false_2 by (rewrite Hen; exact Hc).
  exact IH.
Qed.

(** C7 as amended.  Only [setupTikTokEmbeds] observes one-shot: it observes
    every container, and the first intersecting entry of a container
    constructs its [TikTokEmbed] (without loading it) and unobserves the
    container, which is never observed again, so that no later entry for
    it reaches the callback.  [setupLazyLoading] never unobserves: no event
    changes the set of observed containers, and a later entry for a
    hydrated Placeholder reaches the callback, which then does nothing. *)
Theorem observer_unsubscribes_in_part000_only :
  (forall env p,
      Part000.SUPPORTS_INTERSECTION_OBSERVER env = true ->
      Part000.PREFERS_REDUCED_MOTION env = false ->
      containers p <> [] ->
      observed (Part000.setupTikTokEmbeds env p)
      = (observed p ++ seq 0 (length (containers p)))%list)
  /\ (forall c p C,
         containers p !! c = Some C -> tiktokEmbed C = None -> c ∈ observed p ->
         let p' := Part000.step (Part000.Intersect [(c, true)]) p in
         (tiktokEmbed <$> containers p' !! c) = Some (Some (length (embeds p)))
         /\ (isLoaded <$> embeds p' !! length (embeds p)) = Some false
         /\ frames p' = frames p
         /\ (c ∉ observed p')
         /\ (forall evs, c ∉ observed (Part000.run evs p'))
         /\ (forall evs entries,
               Forall (fun en : nat * bool => fst en = c) entries ->
               Part000.step (Part000.Intersect entries) (Part000.run evs p')
               = Part000.run evs p'))
  /\ (forall ev p, observed (Part002.step ev p) = observed p)
  /\ (forall c b e E p,
         Part002.embed_at c p = Some (e, E) -> isLoaded E = true ->
         Part002.on_intersect [(c, b)] p = Done p).
Proof.
  split; [|split; [|split]].
  - intros env p Hio Hrm Hne. unfold Part000.setupTikTokEmbeds.
    rewrite Hio, Hrm. simpl.
    rewrite bool_decide_eq_false_2; [reflexivity|].
    destruct (containers p); [congruence|discriminate].
  - intros c p C HC Hnone Hobs p'.
    pose proof (lookup_lt_Some _ _ _ HC) as Hc.
    destruct (construct_embed c p C HC) as [Hfst Hembeds].
    destruct (construct_rest c p) as (Hfr & _ & Ho & _ & Hlen & _).
    assert (p' = let '(e, p1) := Part002.construct c p in
                 let p2 := with_containers
                             (alter (with_tiktokEmbed (Some e)) c (containers p1)) p1 in
                 with_observed (filter (fun t => negb (Nat.eqb t c)) (observed p2)) p2)
      as Hp'.
    { unfold p'. simpl. unfold Part000.delivered. rewrite filter_cons. simpl.
      rewrite (bool_decide_eq_true_2 _ Hobs). simpl. rewrite HC, Hnone. simpl.
      rewrite construct_same. destruct (Part002.construct c p); reflexivity. }
    destruct (Part002.construct c p) as [e p1]. simpl in *. subst e.
    assert (c ∉ observed p') as Hgone.
    { rewrite Hp'. simpl. intros [H _]%list_elem_of_filter.
      rewrite Nat.eqb_refl in H. exact H. }
    assert (forall evs, c ∉ observed (Part000.run evs p')) as Hnever
      by (intros evs H; exact (Hgone (run_observed_000 _ _ _ H))).
    rewrite Hp' at 1 2 3. simpl.
    split.
    { destruct (lookup_lt_is_Some_2 (containers p1) c ltac:(lia)) as [C1 HC1].
      rewrite list_lookup_alter_eq, HC1. reflexivity. }
    split.
    { rewrite Hembeds, lookup_app_r, Nat.sub_diag by lia. reflexivity. }
    split; [exact Hfr|]. split; [exact Hgone|]. split; [exact Hnever|].
    intros evs entries Hall. simpl.
    rewrite (not_delivered_000 c entries _ (Hnever evs) Hall). reflexivity.
  - exact step_observed_002.
  - intros c b e E p Hat Hl. simpl. rewrite Hat, Hl. destruct b; reflexivity.
Qed.

Lemma observer_unsubscribes_in_part000_only_witness :
  let env := {| Part000.SUPPORTS_INTERSECTION_OBSERVER := true;
                Part000.PREFERS_REDUCED_MOTION := false |} in
  let p := Part000.setupTikTokEmbeds env
             (Examples.page_of_url "https://example.com/video/123456") in
  observed p = [0]
  /\ (0 ∉ observed (Part000.step (Part000.Intersect [(0, true)]) p))
  /\ Part002.on_intersect [(0, false)]
       (Part002.run [Part002.Intersect [(0, true)]]
          (Part002.setupLazyLoading
             {| Part002.SUPPORTS_INTERSECTION_OBSERVER := true;
                Part002.PREFERS_REDUCED_MOTION := false |}
             (Examples.page_of_url "https://example.com/video/123456")))
     = Done (Part002.run [Part002.Intersect [(0, true)]]
               (Part002.setupLazyLoading
                  {| Part002.SUPPORTS_INTERSECTION_OBSERVER := true;
                     Part002.PREFERS_REDUCED_MOTION := false |}
                  (Examples.page_of_url "https://example.com/video/123456"))).
Proof.
  destruct observer_unsubscribes_in_part000_only as (H1 & H2 & _ & H4).
  intros env p. split; [|split].
  - apply (H1 env (Examples.page_of_url "https://example.com/video/123456"));
      [reflexivity|reflexivity|discriminate].
  - edestruct (H2 0 p) as (_ & _ & _ & H & _);
      [reflexivity|reflexivity|apply list_elem_of_here|exact H].
  - eapply H4; reflexivity.
Defined.

(** C7 as stated fails for [setupLazyLoading].  After the first intersecting
    entry has hydrated the Placeholder the container is still observed and
    entries for it are still delivered; once the Placeholder has been
    unloaded, the next intersecting entry hydrates it again with a second
    iframe. *)
Lemma lazy_loading_keeps_observing :
  let env := {| Part002.SUPPORTS_INTERSECTION_OBSERVER := true;
                Part002.PREFERS_REDUCED_MOTION := false |} in
  let p1 := Part002.run [Part002.Intersect [(0, true)]]
              (Part002.setupLazyLoading env
                 (Examples.page_of_url "https://example.com/video/123456")) in
  let p2 := page_of (Part002.unload 0 p1) in
  let p3 := Part002.step (Part002.Intersect [(0, true)]) p2 in
  (isLoaded <$> embeds p1 !! 0) = Some true
  /\ observed p1 = [0]
  /\ Part002.delivered [(0, true)] p1 = [(0, true)]
  /\ (isLoaded <$> embeds p2 !! 0) = Some false
  /\ (isLoaded <$> embeds p3 !! 0) = Some true
  /\ frames_of 0 p3 = [1]
  /\ length (frames p3) = 2.
Proof. repeat split; vm_compute; reflexivity. Qed.

End Lifecycle.

(** * Listeners and attribute writes *)

Module ListenerFacts.
Import Dom DomFacts Setup.

Lemma same_clicks_refl (o : option Node) : same_clicks o o.
Proof. destruct o; reflexivity || exact I. Qed.

Lemma first_some_same_clicks c1 c2 f kids kids' :
  Forall (fun n => forall n', update_node c1 f n = Some n' ->
                     same_clicks (query_node c2 n') (query_node c2 n)) kids ->
  update_first (update_node c1 f) kids = Some kids' ->
  same_clicks (first_some (query_node c2) kids') (first_some (query_node c2) kids).
Proof.
  intros IH. revert kids'. induction IH as [|k r Hk _ IHr]; simpl; [discriminate|].
  intros kids'. destruct (update_node c1 f k) as [k'|] eqn:Ek'.
  - intros [= <-]. simpl. specialize (Hk k' eq_refl).
    unfold same_clicks in *.
    destruct (query_node c2 k'), (query_node c2 k); try contradiction;
      [exact Hk|apply same_clicks_refl].
  - destruct (update_first (update_node c1 f) r) as [r'|]; [|discriminate].
    intros [= <-]. simpl. destruct (query_node c2 k); [reflexivity|].
    apply IHr. reflexivity.
Qed.

(** A write that keeps the classes and the listeners of an element keeps the
    click listeners [querySelector] finds, for any class. *)
Lemma listeners_at_update_attrs c1 c2 g forest :
  (forall a, classes (g a) = classes a) ->
  (forall a, on_click (g a) = on_click a) ->
  listeners_at c2 (update c1 (map_attrs g) forest) = listeners_at c2 forest.
Proof.
  intros Hg Hl.
  assert (forall n n', update_node c1 (map_attrs g) n = Some n' ->
            same_clicks (query_node c2 n') (query_node c2 n)) as Hn.
  { induction n as [a kids IH|s|x] using Node_ind'; simpl; [|discriminate..].
    intros n'. destruct (bool_decide (c1 ∈ classes a)).
    - intros [= <-]. simpl. rewrite Hg.
      destruct (bool_decide (c2 ∈ classes a)); [simpl; apply Hl|apply same_clicks_refl].
    - destruct (update_first (update_node c1 (map_attrs g)) kids) as [kids'|] eqn:Ek;
        [|discriminate].
      intros [= <-]. simpl.
      destruct (bool_decide (c2 ∈ classes a)); [reflexivity|].
      eapply first_some_same_clicks; eassumption. }
  unfold listeners_at, update, query.
  destruct (update_first (update_node c1 (map_attrs g)) forest) as [forest'|] eqn:Ef;
    simpl; [|reflexivity].
  assert (same_clicks (first_some (query_node c2) forest')
                      (first_some (query_node c2) forest)) as H.
  { eapply first_some_same_clicks; [|exact Ef]. apply Forall_forall. intros n _. apply Hn. }
  unfold same_clicks in H.
  destruct (first_some (query_node c2) forest'), (first_some (query_node c2) forest);
    try contradiction; [exact H|reflexivity].
Qed.

(** [addEventListener('click', l)] on the first element of class [cls] *)
Lemma listeners_at_with_click cls l forest :
  listeners_at cls (update cls (map_attrs (with_click l)) forest)
  = match query cls forest with
    | Some _ => (listeners_at cls forest ++ [l])%list
    | None => []
    end.
Proof.
  unfold listeners_at. destruct (query cls forest) as [m|] eqn:E.
  - destruct (update_hit cls (map_attrs (with_click l)) forest m E) as (Hc & Hq & _).
    destruct (has_class_elem cls m Hc) as (a & kids & -> & Ha).
    rewrite Hq; [reflexivity|]. simpl. apply bool_decide_eq_true_2. exact Ha.
  - rewrite (update_miss _ _ _ E), E. reflexivity.
Qed.

(** After [init()] of object [e], the poster button runs what it ran before
    and then [load()] of [e]. *)
Lemma listeners_hooked e C :
  listeners_at "ttk__poster" (hooked e C)
  = match query "ttk__poster" (children C) with
    | Some _ => (listeners_at "ttk__poster" (children C) ++ [ClickLoad e])%list
    | None => []
    end.
Proof.
  unfold hooked. rewrite listeners_at_with_click.
  destruct (Js.truthy (poster (dataset C))); [|reflexivity].
  rewrite listeners_at_update_attrs by reflexivity.
  pose proof (query_update_attrs "ttk__poster-img" "ttk__poster"
                (with_attr "src" (Js.interpolate (poster (dataset C)))) (children C)
                ltac:(reflexivity)) as [H1 H2].
  destruct (query "ttk__poster" (children C)) as [m|].
  - destruct (H2 ltac:(eauto)) as [m' ->]. reflexivity.
  - destruct (query "ttk__poster" (update _ _ _)) as [m'|]; [|reflexivity].
    destruct (H1 ltac:(eauto)) as [? [=]].
Qed.

End ListenerFacts.

(** * [setupLazyLoading] on a page that may have been set up before *)

Module SetupAgain.
Import Dom Page JsFacts DomFacts Part002Facts SetupFacts ListenerFacts Setup.

Lemma construct_eq c p C :
  containers p !! c = Some C ->
  Part002.construct c p
  = (length (embeds p),
     with_containers
       (<[c := with_children (hooked (length (embeds p)) C) C]> (containers p))
       (with_embeds (embeds p ++ [fresh c C]) p)).
Proof.
  intros HC. unfold Part002.construct. rewrite HC. cbv zeta. f_equal.
  unfold Part002.init. cbn [embeds with_embeds containers].
  rewrite lookup_app_r, Nat.sub_diag by lia. cbn [lookup list_lookup container].
  rewrite HC. reflexivity.
Qed.

Lemma alter_insert_same {A} (f : A -> A) (x : A) c (l : list A) :
  alter f c (<[c := x]> l) = <[c := f x]> l.
Proof.
  apply list_eq. intros i. destruct (decide (i = c)) as [->|Hne].
  - rewrite list_lookup_alter_eq.
    destruct (decide (c < length l)) as [Hlt|Hge].
    + rewrite !list_lookup_insert_eq by exact Hlt. reflexivity.
    + rewrite !lookup_ge_None_2 by (rewrite length_insert; lia). reflexivity.
  - rewrite list_lookup_alter_ne, !list_lookup_insert_ne by congruence. reflexivity.
Qed.

Lemma round_reduced :
  round (fun _ C => tiktokEmbed C) (fun q c => snd (Part002.construct c q)).
Proof. intros q c C HC. rewrite (construct_eq _ _ _ HC). repeat split. Qed.

Lemma round_observer :
  round (fun e _ => Some e)
    (fun q c =>
       let '(e, q1) := Part002.construct c q in
       let q2 := with_containers
                   (alter (with_tiktokEmbed (Some e)) c (containers q1)) q1 in
       with_observed (observed q2 ++ [c]) q2).
Proof.
  intros q c C HC. rewrite (construct_eq _ _ _ HC). cbn.
  rewrite alter_insert_same. repeat split.
Qed.

Lemma round_timer :
  round (fun _ C => tiktokEmbed C)
    (fun q c =>
       let '(e, q1) := Part002.construct c q in
       with_timers (timers q1 ++ [e]) q1).
Proof. intros q c C HC. rewrite (construct_eq _ _ _ HC). repeat split. Qed.

Lemma rebuilt_fold tf body p :
  round tf body ->
  forall k, k <= length (containers p) -> rebuilt tf k p (foldl body p (seq 0 k)).
Proof.
  intros Hr. induction k as [|k IH]; intros Hk.
  - simpl. unfold rebuilt. rewrite take_0. simpl. rewrite app_nil_r.
    repeat split; intros; lia.
  - rewrite seq_S, foldl_app. simpl.
    destruct (IH ltac:(lia)) as (Hlen & Hc & Hrest & He & Hf).
    set (q := foldl body p (seq 0 k)) in *.
    destruct (lookup_lt_is_Some_2 (containers p) k ltac:(lia)) as [C HC].
    assert (containers q !! k = Some C) as HCq by (rewrite Hrest by lia; exact HC).
    destruct (Hr q k C HCq) as (Hc' & He' & Hf').
    assert (length (embeds q) = length (embeds p) + k) as Hlq.
    { rewrite He, length_app, length_imap, length_take. lia. }
    unfold rebuilt. rewrite Hc', He', Hf', length_insert, Hlq.
    split; [exact Hlen|]. split; [|split; [|split; [|exact Hf]]].
    + intros c C' Hlt HC'. destruct (decide (c = k)) as [->|Hne].
      * rewrite list_lookup_insert_eq by (rewrite Hlen; lia). congruence.
      * rewrite list_lookup_insert_ne by congruence. apply Hc; [lia|exact HC'].
    + intros c Hle. rewrite list_lookup_insert_ne by lia. apply Hrest. lia.
    + rewrite He, <- app_assoc. f_equal.
      rewrite (take_S_r _ _ _ HC), imap_app. simpl.
      rewrite length_take, Nat.min_l, Nat.add_0_r by lia. reflexivity.
Qed.

Lemma fold_reduced_rest p k :
  let q := foldl (fun q c => snd (Part002.construct c q)) p (seq 0 k) in
  observed q = observed p /\ timers q = timers p /\ console q = console p.
Proof.
  induction k as [|k IH]; [repeat split|].
  rewrite seq_S, foldl_app. simpl in *. destruct IH as (Ho & Ht & Hc).
  match goal with |- context [Part002.construct k ?q] =>
    destruct (construct_rest k q) as (_ & Hc' & Ho' & Ht' & _) end.
  rewrite Ho', Ht', Hc'. repeat split; assumption.
Qed.

Lemma fold_observer_rest p k :
  let q := foldl (fun q c =>
             let '(e, q1) := Part002.construct c q in
             let q2 := with_containers
                         (alter (with_tiktokEmbed (Some e)) c (containers q1)) q1 in
             with_observed (observed q2 ++ [c]) q2) p (seq 0 k) in
  observed q = (observed p ++ seq 0 k)%list /\ timers q = timers p
  /\ console q = console p.
Proof.
  induction k as [|k IH]; [simpl; rewrite app_nil_r; repeat split|].
  rewrite seq_S, foldl_app. simpl in *. destruct IH as (Ho & Ht & Hc).
  match goal with |- context [Part002.construct k ?q] =>
    destruct (construct_rest k q) as (_ & Hc' & Ho' & Ht' & _);
    destruct (Part002.construct k q) as [e q1] end.
  simpl in *. rewrite Ho', Ht', Hc', Ho, <- app_assoc. repeat split; assumption.
Qed.

Lemma fold_timer_rest p k :
  k <= length (containers p) ->
  let q := foldl (fun q c =>
             let '(e, q1) := Part002.construct c q in
             with_timers (timers q1 ++ [e]) q1) p (seq 0 k) in
  observed q = observed p
  /\ timers q = (timers p ++ seq (length (embeds p)) k)%list
  /\ console q = console p.
Proof.
  induction k as [|k IH]; intros Hk; [simpl; rewrite app_nil_r; repeat split|].
  pose proof (rebuilt_fold _ _ p round_timer k ltac:(lia)) as (_ & _ & Hrest & He & _).
  rewrite seq_S, foldl_app. simpl in *. destruct (IH ltac:(lia)) as (Ho & Ht & Hc).
  match goal with |- context [Part002.construct k ?q] => set (q0 := q) in * end.
  destruct (lookup_lt_is_Some_2 (containers p) k ltac:(lia)) as [C HC].
  rewrite (construct_eq k q0 C) by (rewrite Hrest by lia; exact HC).
  simpl. rewrite Ho, Ht, Hc, He, length_app, length_imap, length_take, <- app_assoc.
  rewrite Nat.min_l by lia. repeat split.
  change (length (embeds p) :: seq (S (length (embeds p))) k)
    with (seq (length (embeds p)) (S k)).
  rewrite seq_S. reflexivity.
Qed.

(** The page after [setupLazyLoading()], whatever was on it before. *)
Lemma setupLazyLoading_result env p :
  let q := Part002.setupLazyLoading env p in
  let o := length (embeds p) in
  let n := length (containers p) in
  embeds q = (embeds p ++ imap fresh (containers p))%list
  /\ frames q = frames p
  /\ length (containers q) = n
  /\ (forall c C, containers p !! c = Some C ->
        containers q !! c
        = Some (with_tiktokEmbed
                  (match branch env with
                   | Observer => Some (o + c)
                   | _ => tiktokEmbed C
                   end)
                  (with_children (hooked (o + c) C) C)))
  /\ observed q = (observed p ++ match branch env with
                                 | Observer => seq 0 n
                                 | _ => []
                                 end)%list
  /\ timers q = (timers p ++ match branch env with
                             | Timer => seq o n
                             | _ => []
                             end)%list
  /\ console q = (console p ++ match branch env, n with
                               | ReducedMotion, S _ =>
                                   [Log "Reduced motion preference detected, skipping auto-load"]
                               | _, _ => []
                               end)%list.
Proof.
  cbv zeta. unfold Part002.setupLazyLoading, branch.
  case_bool_decide as Hnil.
  { apply (f_equal length) in Hnil. rewrite length_seq in Hnil. simpl in Hnil.
    destruct (containers p) as [|C0 r] eqn:Hcs; [|discriminate]. simpl.
    rewrite !app_nil_r.
    repeat split; try (repeat case_match; symmetry; apply app_nil_r).
    intros c C. rewrite lookup_nil. discriminate. }
  assert (forall tf q, rebuilt tf (length (containers p)) p q ->
            embeds q = (embeds p ++ imap fresh (containers p))%list
            /\ frames q = frames p
            /\ length (containers q) = length (containers p)
            /\ (forall c C, containers p !! c = Some C ->
                  containers q !! c
                  = Some (with_tiktokEmbed (tf (length (embeds p) + c) C)
                            (with_children (hooked (length (embeds p) + c) C) C)))) as Hall.
  { intros tf q (Hlen & Hc & _ & He & Hf). rewrite firstn_all in He.
    repeat split; try assumption.
    intros c C HC. apply Hc; [eapply lookup_lt_Some; exact HC|exact HC]. }
  assert (exists m, length (containers p) = S m) as [m Hm].
  { destruct (containers p); [contradiction Hnil; reflexivity|eexists; reflexivity]. }
  destruct (Part002.PREFERS_REDUCED_MOTION env);
    [|destruct (Part002.SUPPORTS_INTERSECTION_OBSERVER env)].
  - pose proof (rebuilt_fold _ _
                  (log (Log "Reduced motion preference detected, skipping auto-load") p)
                  round_reduced (length (containers p)) ltac:(reflexivity)) as Hb.
    destruct (Hall _ _ Hb) as (He & Hf & Hl & Hc).
    destruct (fold_reduced_rest
                (log (Log "Reduced motion preference detected, skipping auto-load") p)
                (length (containers p))) as (Ho & Ht & Hco).
    cbn [log with_console containers embeds frames observed timers console] in *.
    rewrite !app_nil_r.
    repeat split; try assumption. rewrite Hco, Hm. reflexivity.
  - pose proof (rebuilt_fold _ _ p round_observer (length (containers p))
                  ltac:(reflexivity)) as Hb.
    destruct (Hall _ _ Hb) as (He & Hf & Hl & Hc).
    destruct (fold_observer_rest p (length (containers p))) as (Ho & Ht & Hco).
    rewrite !app_nil_r. repeat split; assumption.
  - pose proof (rebuilt_fold _ _ p round_timer (length (containers p))
                  ltac:(reflexivity)) as Hb.
    destruct (Hall _ _ Hb) as (He & Hf & Hl & Hc).
    destruct (fold_timer_rest p (length (containers p)) ltac:(reflexivity))
      as (Ho & Ht & Hco).
    rewrite !app_nil_r. repeat split; assumption.
Qed.

End SetupAgain.

(** * More about [setupLazyLoading] of part_002 *)

Module LazyLoading.
Import Dom Page JsFacts DomFacts Part002Facts SetupFacts ListenerFacts Setup SetupAgain.

Lemma delivered_one_002 c b p :
  c ∈ observed p -> Part002.delivered [(c, b)] p = [(c, b)].
Proof.
  intros Hc. unfold Part002.delivered.
  rewrite filter_cons, bool_decide_eq_true_2 by exact Hc. reflexivity.
Qed.

Lemma fresh_at p c C :
  containers p !! c = Some C ->
  (embeds p ++ imap fresh (containers p))%list !! (length (embeds p) + c)
  = Some (fresh c C).
Proof.
  intros HC. rewrite lookup_app_r by lia.
  replace (length (embeds p) + c - length (embeds p)) with c by lia.
  rewrite list_lookup_imap, HC. reflexivity.
Qed.

(** X1.  Every run of [setupLazyLoading()] makes one new, unhydrated
    [TikTokEmbed] object for each container, whatever the branch taken and
    whatever was on the page: the objects that existed keep their place and
    state, no iframe is created or removed, the content of a container
    changes only in attributes and listeners, and a poster button gets one
    more click listener, for the new object. *)
Theorem setupLazyLoading_adds_one_object_per_container env p c C :
  containers p !! c = Some C ->
  let q := Part002.setupLazyLoading env p in
  let e := length (embeds p) + c in
  length (embeds q) = length (embeds p) + length (containers p)
  /\ (forall i E, embeds p !! i = Some E -> embeds q !! i = Some E)
  /\ embeds q !! e = Some (fresh c C)
  /\ frames q = frames p
  /\ frames_of c q = frames_of c p
  /\ (children <$> containers q !! c) = Some (hooked e C)
  /\ (is_Some (query "ttk__poster" (children C)) ->
        listeners_at "ttk__poster" (hooked e C)
        = (listeners_at "ttk__poster" (children C) ++ [ClickLoad e])%list).
Proof.
  intros HC q e.
  destruct (setupLazyLoading_result env p) as (He & Hf & Hl & Hc & _).
  fold q in He, Hf, Hl, Hc. rewrite He.
  split; [rewrite length_app, length_imap; reflexivity|].
  split; [intros i E HE; rewrite lookup_app_l by (eapply lookup_lt_Some; exact HE);
          exact HE|].
  split; [apply fresh_at, HC|]. split; [exact Hf|].
  rewrite (Hc c C HC). unfold frames_of. rewrite (Hc c C HC), HC. simpl.
  split; [|split; [reflexivity|]].
  - unfold hooked. rewrite frames_in_update_attrs.
    destruct (Js.truthy (poster (dataset C))); [apply frames_in_update_attrs|reflexivity].
  - intros [m Hm]. rewrite listeners_hooked, Hm. reflexivity.
Qed.

Lemma setupLazyLoading_adds_one_object_per_container_witness :
  let env := {| Part002.SUPPORTS_INTERSECTION_OBSERVER := true;
                Part002.PREFERS_REDUCED_MOTION := false |} in
  let p := Part002.setupLazyLoading env
             (Examples.page_of_url "https://www.tiktok.com/@a/video/123456") in
  let q := Part002.setupLazyLoading env p in
  length (embeds p) = 1 /\ length (embeds q) = 2
  /\ (container <$> embeds q !! 1) = Some 0.
Proof.
  cbv zeta.
  set (env := {| Part002.SUPPORTS_INTERSECTION_OBSERVER := true;
                 Part002.PREFERS_REDUCED_MOTION := false |}).
  set (p := Part002.setupLazyLoading env
              (Examples.page_of_url "https://www.tiktok.com/@a/video/123456")).
  assert (exists C, containers p !! 0 = Some C) as [C HC] by (eexists; reflexivity).
  destruct (setupLazyLoading_adds_one_object_per_container env p 0 C HC)
    as (H1 & _ & H3 & _).
  split; [reflexivity|]. split; [exact H1|].
  change (length (embeds p) + 0) with 1 in H3. rewrite H3. reflexivity.
Defined.

(** X2.  With an [IntersectionObserver] and no reduced-motion preference,
    [setupLazyLoading()] observes every container and hands it its new
    object; an entry that does not intersect changes nothing; the first
    intersecting entry of a container whose URL yields a non-empty
    identifier (the part of its last ['/']-separated segment before the
    first ['?']) hydrates the new object with an iframe created for it,
    which becomes the only iframe of the container, also when an older
    object had filled the container before; the older objects keep their
    state; a further intersecting entry changes nothing. *)
Theorem intersecting_entry_hydrates_newest_object env p c C u :
  Part002.PREFERS_REDUCED_MOTION env = false ->
  Part002.SUPPORTS_INTERSECTION_OBSERVER env = true ->
  containers p !! c = Some C ->
  tiktokUrl (dataset C) = Some u ->
  Js.extractVideoId u <> EmptyString ->
  let p1 := Part002.setupLazyLoading env p in
  let e := length (embeds p) + c in
  let p2 := Part002.step (Part002.Intersect [(c, true)]) p1 in
  c ∈ observed p1
  /\ Part002.embed_at c p1 = Some (e, fresh c C)
  /\ Part002.step (Part002.Intersect [(c, false)]) p1 = p1
  /\ hydrated_at e c p2
  /\ frames_of c p2 = [length (frames p)]
  /\ frames p2 = (frames p ++ [Part002.new_iframe e (fresh c C) (Js.extractVideoId u)])%list
  /\ (forall i, i < length (embeds p) -> embeds p2 !! i = embeds p !! i)
  /\ Part002.step (Part002.Intersect [(c, true)]) p2 = p2.
Proof.
  intros Hr Hs HC Hu Hid p1 e p2.
  destruct (setupLazyLoading_result env p) as (He & Hf & Hl & Hc & Ho & _).
  fold p1 in He, Hf, Hl, Hc, Ho.
  unfold branch in Hc, Ho. rewrite Hr, Hs in Hc, Ho.
  pose proof (lookup_lt_Some _ _ _ HC) as Hlt.
  assert (c ∈ observed p1) as Hobs.
  { rewrite Ho. apply elem_of_app. right. apply elem_of_seq. lia. }
  assert (embeds p1 !! e = Some (fresh c C)) as HE
    by (rewrite He; apply fresh_at, HC).
  assert (Part002.embed_at c p1 = Some (e, fresh c C)) as Hat.
  { unfold Part002.embed_at. rewrite (Hc c C HC). simpl. fold e. rewrite HE. reflexivity. }
  pose proof (load_unhydrated e p1 (fresh c C) u HE eq_refl Hu Hid) as Hload.
  cbv zeta in Hload. cbn [container fresh] in Hload.
  assert (p2 = with_embeds
                 (<[e := with_isLoaded true
                           (with_iframe (Some (length (frames p1))) (fresh c C))]>
                    (embeds p1))
                 (with_containers
                    (alter (with_children [Part002.frameWrapper (length (frames p1))]) c
                       (containers p1))
                    (with_frames
                       (frames p1 ++ [Part002.new_iframe e (fresh c C) (Js.extractVideoId u)])
                       p1))) as Hp2.
  { unfold p2. simpl. rewrite (delivered_one_002 _ _ _ Hobs). simpl.
    rewrite Hat. simpl. rewrite Hload. reflexivity. }
  split; [exact Hobs|]. split; [exact Hat|].
  split.
  { simpl. rewrite (delivered_one_002 _ _ _ Hobs). simpl. rewrite Hat. reflexivity. }
  assert (e < length (embeds p1)) as Hlte by (eapply lookup_lt_Some; exact HE).
  split.
  { eexists. rewrite Hp2. cbn [embeds with_embeds].
    rewrite list_lookup_insert_eq by exact Hlte. repeat split. }
  split.
  { rewrite Hp2, <- Hf.
    erewrite frames_of_alter_children; [|reflexivity|lia]. reflexivity. }
  split; [rewrite Hp2; cbn [frames with_embeds with_containers with_frames];
          rewrite Hf; reflexivity|].
  split.
  { intros i Hi. rewrite Hp2. cbn [embeds with_embeds].
    rewrite list_lookup_insert_ne by (unfold e; lia).
    rewrite He. apply lookup_app_l. exact Hi. }
  assert (c ∈ observed p2) as Hobs2 by (rewrite Hp2; exact Hobs).
  simpl. rewrite (delivered_one_002 _ _ _ Hobs2). simpl.
  assert (Part002.embed_at c p2
          = Some (e, with_isLoaded true
                       (with_iframe (Some (length (frames p1))) (fresh c C)))) as ->.
  { unfold Part002.embed_at. rewrite Hp2. cbn [containers embeds with_embeds with_containers].
    rewrite list_lookup_alter_eq, (Hc c C HC). simpl. fold e.
    rewrite list_lookup_insert_eq by exact Hlte. reflexivity. }
  reflexivity.
Qed.

Lemma intersecting_entry_hydrates_newest_object_witness :
  let env := {| Part002.SUPPORTS_INTERSECTION_OBSERVER := true;
                Part002.PREFERS_REDUCED_MOTION := false |} in
  let p1 := Part002.setupLazyLoading env
              (Examples.page_of_url "https://www.tiktok.com/@a/video/123456") in
  let p2 := Part002.step (Part002.Intersect [(0, true)]) p1 in
  hydrated_at 0 0 p2 /\ frames_of 0 p2 = [0].
Proof.
  cbv zeta.
  pose proof (intersecting_entry_hydrates_newest_object
                {| Part002.SUPPORTS_INTERSECTION_OBSERVER := true;
                   Part002.PREFERS_REDUCED_MOTION := false |}
                (Examples.page_of_url "https://www.tiktok.com/@a/video/123456") 0
                (Examples.container_of "https://www.tiktok.com/@a/video/123456")
                "https://www.tiktok.com/@a/video/123456"
                eq_refl eq_refl eq_refl eq_refl ltac:(vm_compute; discriminate))
    as (_ & _ & _ & H4 & H5 & _).
  split; [exact H4|exact H5].
Defined.

Lemma click_listeners c p C :
  containers p !! c = Some C ->
  Part002.click c p
  = foldl (fun q l => Part002.run_click l q) p (listeners_at "ttk__poster" (children C)).
Proof.
  intros HC. unfold Part002.click, listeners_at, clicks_of. rewrite HC.
  destruct (query "ttk__poster" (children C)) as [[a kids|s|f]|]; reflexivity.
Qed.

Lemma query_hooked cls e C :
  is_Some (query cls (hooked e C)) <-> is_Some (query cls (children C)).
Proof.
  unfold hooked. rewrite query_update_attrs by reflexivity.
  destruct (Js.truthy (poster (dataset C))); [|reflexivity].
  apply query_update_attrs. reflexivity.
Qed.

(** what [load()] gives for a new object of container [c] *)
Lemma load_fresh e c C u p :
  embeds p !! e = Some (fresh c C) ->
  tiktokUrl (dataset C) = Some u -> Js.extractVideoId u <> EmptyString ->
  Part002.load e p
  = Done (with_embeds
            (<[e := with_isLoaded true (with_iframe (Some (length (frames p))) (fresh c C))]>
               (embeds p))
            (with_containers
               (alter (with_children [Part002.frameWrapper (length (frames p))]) c
                  (containers p))
               (with_frames
                  (frames p ++ [Part002.new_iframe e (fresh c C) (Js.extractVideoId u)]) p))).
Proof. intros HE Hu Hid. exact (load_unhydrated e p (fresh c C) u HE eq_refl Hu Hid). Qed.

(** X3.  After [setupLazyLoading()], in any of its branches, a click on the
    poster button of a container whose URL yields a non-empty identifier
    (the part of its last ['/']-separated segment before the first ['?']),
    the button having had no click listener before the setup, hydrates the
    container's new object with one new iframe and then tracks
    [video_play_clicked]; the poster button is gone with the poster, so a
    second click finds nothing to run. *)
Theorem click_after_setup_hydrates env p c C u :
  containers p !! c = Some C ->
  tiktokUrl (dataset C) = Some u ->
  Js.extractVideoId u <> EmptyString ->
  is_Some (query "ttk__poster" (children C)) ->
  listeners_at "ttk__poster" (children C) = [] ->
  let p1 := Part002.setupLazyLoading env p in
  let e := length (embeds p) + c in
  let p2 := Part002.step (Part002.Click c) p1 in
  hydrated_at e c p2
  /\ frames_of c p2 = [length (frames p)]
  /\ length (frames p2) = S (length (frames p))
  /\ console p2 = (console p1 ++ [Track "video_play_clicked" None])%list
  /\ Part002.step (Part002.Click c) p2 = p2.
Proof.
  intros HC Hu Hid [m Hm] Hnone p1 e p2.
  destruct (setupLazyLoading_result env p) as (He & Hf & Hl & Hc & _).
  fold p1 in He, Hf, Hl, Hc. specialize (Hc c C HC).
  assert (embeds p1 !! e = Some (fresh c C)) as HE
    by (rewrite He; apply fresh_at, HC).
  pose proof (lookup_lt_Some _ _ _ HE) as Hlte.
  pose proof (lookup_lt_Some _ _ _ HC) as Hlt.
  assert (p2 = Part002.trackEvent "video_play_clicked" None
                 (page_of (Part002.load e p1))) as Hp2.
  { unfold p2. simpl. rewrite (click_listeners c p1 _ Hc). simpl.
    rewrite listeners_hooked, Hm, Hnone. simpl. fold e.
    destruct (Part002.load e p1) eqn:El; [reflexivity|].
    rewrite (load_fresh e c C u p1 HE Hu Hid) in El. discriminate. }
  rewrite (load_fresh e c C u p1 HE Hu Hid) in Hp2. simpl in Hp2.
  split.
  { eexists. rewrite Hp2. cbn. rewrite list_lookup_insert_eq by exact Hlte. repeat split. }
  split.
  { rewrite Hp2, <- Hf. unfold frames_of. cbn.
    rewrite list_lookup_alter_eq, Hc. reflexivity. }
  split; [rewrite Hp2; cbn; rewrite length_app, Hf; simpl; lia|].
  split; [rewrite Hp2; reflexivity|].
  simpl. unfold Part002.click. rewrite Hp2 at 1. cbn.
  rewrite list_lookup_alter_eq, Hc. reflexivity.
Qed.

Lemma click_after_setup_hydrates_witness :
  let env := {| Part002.SUPPORTS_INTERSECTION_OBSERVER := true;
                Part002.PREFERS_REDUCED_MOTION := true |} in
  let p1 := Part002.setupLazyLoading env
              (Examples.page_of_url "https://www.tiktok.com/@a/video/123456") in
  let p2 := Part002.step (Part002.Click 0) p1 in
  hydrated_at 0 0 p2 /\ frames_of 0 p2 = [0].
Proof.
  cbv zeta.
  pose proof (click_after_setup_hydrates
                {| Part002.SUPPORTS_INTERSECTION_OBSERVER := true;
                   Part002.PREFERS_REDUCED_MOTION := true |}
                (Examples.page_of_url "https://www.tiktok.com/@a/video/123456") 0
                (Examples.container_of "https://www.tiktok.com/@a/video/123456")
                "https://www.tiktok.com/@a/video/123456"
                eq_refl eq_refl ltac:(vm_compute; discriminate)
                ltac:(eexists; reflexivity) eq_refl)
    as (H1 & H2 & _).
  split; [exact H1|exact H2].
Defined.

(** X4.  A click that cannot hydrate.  When the last segment of the URL
    yields no identifier, the click warns, creates no iframe, leaves the
    object unhydrated and the container as it was, and still tracks
    [video_play_clicked].  When the container has no [data-tiktok-url],
    [load()] throws inside the listener and the click leaves the page
    untouched: nothing is logged or tracked. *)
Theorem click_that_cannot_hydrate env p c C :
  containers p !! c = Some C ->
  is_Some (query "ttk__poster" (children C)) ->
  listeners_at "ttk__poster" (children C) = [] ->
  let p1 := Part002.setupLazyLoading env p in
  let p2 := Part002.step (Part002.Click c) p1 in
  (forall u, tiktokUrl (dataset C) = Some u -> Js.extractVideoId u = EmptyString ->
     console p2 = (console p1 ++ [Warn "Invalid TikTok URL:" u;
                                  Track "video_play_clicked" None])%list
     /\ embeds p2 = embeds p1 /\ frames p2 = frames p1
     /\ containers p2 = containers p1)
  /\ (tiktokUrl (dataset C) = None -> p2 = p1).
Proof.
  intros HC [m Hm] Hnone p1 p2.
  destruct (setupLazyLoading_result env p) as (He & Hf & Hl & Hc & _).
  fold p1 in He, Hf, Hl, Hc. specialize (Hc c C HC).
  assert (embeds p1 !! (length (embeds p) + c) = Some (fresh c C)) as HE
    by (rewrite He; apply fresh_at, HC).
  assert (p2 = Part002.run_click (ClickLoad (length (embeds p) + c)) p1) as Hp2.
  { unfold p2. simpl. rewrite (click_listeners c p1 _ Hc). simpl.
    rewrite listeners_hooked, Hm, Hnone. reflexivity. }
  split.
  - intros u Hu Hid. rewrite Hp2. simpl.
    rewrite (load_unextractable _ p1 (fresh c C) u HE eq_refl Hu Hid). simpl.
    rewrite <- app_assoc. repeat split.
  - intros Hu. rewrite Hp2. simpl. unfold Part002.load. rewrite HE. simpl.
    rewrite Hu. reflexivity.
Qed.

Lemma click_that_cannot_hydrate_witness :
  let env := {| Part002.SUPPORTS_INTERSECTION_OBSERVER := true;
                Part002.PREFERS_REDUCED_MOTION := true |} in
  let p1 := Part002.setupLazyLoading env
              (Examples.page_of_url "https://www.tiktok.com/@a/video/123456/") in
  let p2 := Part002.step (Part002.Click 0) p1 in
  console p2 = (console p1 ++ [Warn "Invalid TikTok URL:"
                                 "https://www.tiktok.com/@a/video/123456/";
                               Track "video_play_clicked" None])%list
  /\ frames p2 = [].
Proof.
  cbv zeta.
  pose proof (click_that_cannot_hydrate
                {| Part002.SUPPORTS_INTERSECTION_OBSERVER := true;
                   Part002.PREFERS_REDUCED_MOTION := true |}
                (Examples.page_of_url "https://www.tiktok.com/@a/video/123456/") 0
                (Examples.container_of "https://www.tiktok.com/@a/video/123456/")
                eq_refl ltac:(eexists; reflexivity) eq_refl) as [H _].
  destruct (H "https://www.tiktok.com/@a/video/123456/" eq_refl eq_refl)
    as (H1 & _ & H3 & _).
  split; [exact H1|rewrite H3; reflexivity].
Defined.

End LazyLoading.

(** * The end of the script of part_002: [init()] and the [pageshow] listener *)

Module Boot.
Import Dom Page JsFacts DomFacts Part002Facts SetupFacts ListenerFacts Setup SetupAgain
  LazyLoading.

Lemma foldl_keeps {A S B : Type} (obs : S -> B) (f : S -> A -> S) l :
  (forall s a, obs (f s a) = obs s) -> forall s, obs (foldl f s l) = obs s.
Proof.
  intros Hf. induction l as [|a l IH]; intros s; simpl; [reflexivity|].
  rewrite IH. apply Hf.
Qed.

Lemma load_lengths e p :
  length (containers (page_of (Part002.load e p))) = length (containers p)
  /\ length (embeds (page_of (Part002.load e p))) = length (embeds p).
Proof.
  unfold Part002.load. repeat case_match; simpl; try (split; reflexivity).
  rewrite length_alter, length_insert. split; reflexivity.
Qed.

Lemma handleLoadError_lengths e p :
  length (containers (page_of (Part002.handleLoadError e p))) = length (containers p)
  /\ length (embeds (page_of (Part002.handleLoadError e p))) = length (embeds p).
Proof.
  unfold Part002.handleLoadError. repeat case_match; simpl; try (split; reflexivity).
  rewrite length_insert. split; reflexivity.
Qed.

Lemma on_intersect_lengths entries : forall p,
  length (containers (page_of (Part002.on_intersect entries p))) = length (containers p)
  /\ length (embeds (page_of (Part002.on_intersect entries p))) = length (embeds p).
Proof.
  induction entries as [|[c b] rest IH]; intros p; simpl; [split; reflexivity|].
  destruct (Part002.embed_at c p) as [[e E]|]; [|split; reflexivity].
  destruct b; [|apply IH].
  destruct (negb (isLoaded E)); [|apply IH].
  pose proof (load_lengths e p) as Hl.
  destruct (Part002.load e p) as [p'|err p']; simpl in *; [|exact Hl].
  destruct (IH p') as [-> ->]. exact Hl.
Qed.

(** No event of part_002 adds or removes a container or an object. *)
Lemma step_lengths ev p :
  length (containers (Part002.step ev p)) = length (containers p)
  /\ length (embeds (Part002.step ev p)) = length (embeds p).
Proof.
  set (obs := fun q : Page => (length (containers q), length (embeds q))).
  enough (obs (Part002.step ev p) = obs p) as [= -> ->] by (split; reflexivity).
  assert (forall e s, obs (page_of (Part002.load e s)) = obs s) as Hload.
  { intros e s. unfold obs. destruct (load_lengths e s) as [-> ->]. reflexivity. }
  destruct ev as [c|entries| |f|f]; simpl.
  - unfold Part002.click. repeat case_match; try reflexivity.
    apply (foldl_keeps obs). intros s [e|c']; simpl; [|reflexivity].
    specialize (Hload e s). destruct (Part002.load e s); simpl in *; exact Hload.
  - unfold obs. destruct (on_intersect_lengths (Part002.delivered entries p) p) as [-> ->].
    reflexivity.
  - destruct (timers p) as [|e rest]; [reflexivity|].
    exact (Hload e (with_timers rest p)).
  - destruct (frames p !! f) as [i|]; [|reflexivity].
    rewrite (foldl_keeps obs); [reflexivity|].
    intros s [e v|e v|e v|]; simpl; try reflexivity.
    pose proof (handleLoadError_lengths e (log (Warn "TikTok embed failed to load:" v) s))
      as [H1 H2].
    unfold obs. destruct (Part002.handleLoadError e _); simpl in *; rewrite H1, H2;
      reflexivity.
  - destruct (frames p !! f) as [i|]; [|reflexivity].
    rewrite (foldl_keeps obs); [reflexivity|].
    intros s [e v|e v|e v|]; reflexivity.
Qed.

Lemma setup_lengths env p :
  length (containers (Part002.setupLazyLoading env p)) = length (containers p)
  /\ length (embeds (Part002.setupLazyLoading env p))
     = length (embeds p) + length (containers p).
Proof.
  destruct (setupLazyLoading_result env p) as (He & _ & Hl & _).
  rewrite He, length_app, length_imap. split; [exact Hl|reflexivity].
Qed.

(** the objects on the page, given one [pageshow] listener *)
Lemma run_counts env evs : forall w,
  forallb (fun ev => negb (Boot002.is_DOMContentLoaded ev)) evs = true ->
  Boot002.pageshow_listeners w = 1 ->
  length (containers (Boot002.page (Boot002.run env evs w)))
  = length (containers (Boot002.page w))
  /\ length (embeds (Boot002.page (Boot002.run env evs w)))
     = length (embeds (Boot002.page w))
       + length (containers (Boot002.page w)) * Boot002.restores evs.
Proof.
  induction evs as [|ev evs IH]; intros w Hevs Hw; simpl.
  { split; [reflexivity|lia]. }
  simpl in Hevs. apply andb_true_iff in Hevs as [Hev Hevs].
  destruct ev as [|[|]|ev]; simpl in Hev; [discriminate| | |].
  - simpl. rewrite Hw. simpl.
    unfold Boot002.on_pageshow.
    destruct (IH (Boot002.with_page (Part002.setupLazyLoading env (Boot002.page w)) w)
                Hevs Hw) as [-> ->].
    simpl. destruct (setup_lengths env (Boot002.page w)) as [-> ->].
    split; [reflexivity|lia].
  - simpl. rewrite Hw. simpl. apply IH; assumption.
  - simpl. destruct (IH (Boot002.with_page (Part002.step ev (Boot002.page w)) w)
                       Hevs Hw) as [-> ->].
    simpl. destruct (step_lengths ev (Boot002.page w)) as [-> ->].
    split; reflexivity.
Qed.

(** X5.  [init()] runs [setupLazyLoading()] once, at once when the document
    has been parsed and otherwise at [DOMContentLoaded], and not before;
    from then on every [pageshow] of a page restored from the back/forward
    cache runs it again, whatever happened on the page in between.  So after
    [r] restores each container has [1 + r] [TikTokEmbed] objects. *)
Theorem each_restore_sets_up_again env state host p evs :
  forallb (fun ev => negb (Boot002.is_DOMContentLoaded ev)) evs = true ->
  let w0 := Boot002.init env (Boot002.start state host p) in
  let w := Boot002.run env
             (if String.eqb state "loading" then Boot002.DOMContentLoaded :: evs else evs)
             w0 in
  (if String.eqb state "loading" then Boot002.page w0 = p
   else Boot002.page w0 = Part002.setupLazyLoading env p)
  /\ length (containers (Boot002.page w)) = length (containers p)
  /\ length (embeds (Boot002.page w))
     = length (embeds p) + length (containers p) * (1 + Boot002.restores evs).
Proof.
  intros Hevs w0 w. unfold w, w0, Boot002.init, Boot002.start. simpl.
  destruct (String.eqb state "loading") eqn:Hs; simpl.
  - split; [reflexivity|]. unfold Boot002.init. simpl.
    match goal with |- context [Boot002.run env evs ?x] =>
      destruct (run_counts env evs x Hevs eq_refl) as [-> ->] end.
    simpl. destruct (setup_lengths env p) as [-> ->]. split; [reflexivity|lia].
  - split; [reflexivity|].
    match goal with |- context [Boot002.run env evs ?x] =>
      destruct (run_counts env evs x Hevs eq_refl) as [-> ->] end.
    simpl. destruct (setup_lengths env p) as [-> ->]. split; [reflexivity|lia].
Qed.

Lemma each_restore_sets_up_again_witness :
  let env := {| Part002.SUPPORTS_INTERSECTION_OBSERVER := true;
                Part002.PREFERS_REDUCED_MOTION := false |} in
  let w := Boot002.run env
             [Boot002.DOMContentLoaded; Boot002.PageShow false;
              Boot002.OnPage (Part002.Intersect [(0, true)]); Boot002.PageShow true]
             (Boot002.init env
                (Boot002.start "loading" "example.com"
                   (Examples.page_of_url "https://www.tiktok.com/@a/video/123456"))) in
  length (embeds (Boot002.page w)) = 2.
Proof.
  cbv zeta.
  pose proof (each_restore_sets_up_again
                {| Part002.SUPPORTS_INTERSECTION_OBSERVER := true;
                   Part002.PREFERS_REDUCED_MOTION := false |}
                "loading" "example.com"
                (Examples.page_of_url "https://www.tiktok.com/@a/video/123456")
                [Boot002.PageShow false;
                 Boot002.OnPage (Part002.Intersect [(0, true)]); Boot002.PageShow true]
                eq_refl) as (_ & _ & H).
  exact H.
Defined.

(** X6.  A click after a restore loads twice.  When [setupLazyLoading()]
    has run a second time on a page whose poster is still in place, the
    poster button carries one listener per run; one click hydrates the older
    object and then the newer one, each creating an iframe, so that the
    first iframe is replaced at once, and [video_play_clicked] is tracked
    twice. *)
Theorem click_after_restore_loads_twice env p c C u :
  containers p !! c = Some C ->
  tiktokUrl (dataset C) = Some u ->
  Js.extractVideoId u <> EmptyString ->
  is_Some (query "ttk__poster" (children C)) ->
  listeners_at "ttk__poster" (children C) = [] ->
  let p1 := Part002.setupLazyLoading env (Part002.setupLazyLoading env p) in
  let e1 := length (embeds p) + c in
  let e2 := length (embeds p) + length (containers p) + c in
  let p2 := Part002.step (Part002.Click c) p1 in
  hydrated_at e1 c p2 /\ hydrated_at e2 c p2
  /\ length (frames p2) = length (frames p) + 2
  /\ frames_of c p2 = [S (length (frames p))]
  /\ console p2 = (console p1 ++ [Track "video_play_clicked" None;
                                  Track "video_play_clicked" None])%list.
Proof.
  intros HC Hu Hid Hq Hnone p1 e1 e2 p2.
  set (q1 := Part002.setupLazyLoading env p) in *.
  destruct (setupLazyLoading_result env p) as (He & Hf & Hl & Hc & _).
  fold q1 in He, Hf, Hl, Hc. specialize (Hc c C HC).
  match type of Hc with _ = Some ?X => set (C1 := X) in * end.
  destruct (setupLazyLoading_result env q1) as (He' & Hf' & Hl' & Hc' & _).
  fold p1 in He', Hf', Hl', Hc'. specialize (Hc' c C1 Hc).
  pose proof (lookup_lt_Some _ _ _ HC) as Hlt.
  assert (length (embeds q1) = length (embeds p) + length (containers p)) as Hlq
    by (rewrite He, length_app, length_imap; reflexivity).
  rewrite Hlq in Hc'. fold e2 in Hc'.
  assert (embeds p1 !! e1 = Some (fresh c C)) as HE1.
  { rewrite He', lookup_app_l by (rewrite Hlq; unfold e1; lia).
    rewrite He. apply fresh_at, HC. }
  assert (embeds p1 !! e2 = Some (fresh c C)) as HE2.
  { rewrite He'. unfold e2. rewrite <- Hlq. apply (fresh_at q1 c C1 Hc). }
  assert (e1 <> e2) as Hne by (unfold e1, e2; lia).
  pose proof (lookup_lt_Some _ _ _ HE1) as Hlt1.
  pose proof (lookup_lt_Some _ _ _ HE2) as Hlt2.
  assert (listeners_at "ttk__poster" (hooked e2 C1) = [ClickLoad e1; ClickLoad e2]) as Hls.
  { rewrite listeners_hooked.
    assert (is_Some (query "ttk__poster" (children C1))) as [m1 Hm1]
      by (apply (query_hooked "ttk__poster" e1 C); exact Hq).
    rewrite Hm1. change (children C1) with (hooked e1 C).
    rewrite listeners_hooked. destruct Hq as [m ->]. rewrite Hnone. reflexivity. }
  pose proof (load_fresh e1 c C u p1 HE1 Hu Hid) as Hl1.
  set (pa := Part002.trackEvent "video_play_clicked" None
               (page_of (Part002.load e1 p1))).
  assert (embeds pa !! e2 = Some (fresh c C)) as HE2a.
  { unfold pa. rewrite Hl1. cbn. rewrite list_lookup_insert_ne by exact Hne. exact HE2. }
  pose proof (load_fresh e2 c C u pa HE2a Hu Hid) as Hl2.
  assert (p2 = Part002.trackEvent "video_play_clicked" None
                 (page_of (Part002.load e2 pa))) as Hp2.
  { assert (Part002.run_click (ClickLoad e1) p1 = pa) as Ha
      by (unfold pa; simpl; rewrite Hl1; reflexivity).
    assert (Part002.run_click (ClickLoad e2) pa
            = Part002.trackEvent "video_play_clicked" None
                (page_of (Part002.load e2 pa))) as Hb
      by (simpl; rewrite Hl2; reflexivity).
    rewrite <- Hb, <- Ha. unfold p2.
    etransitivity; [exact (click_listeners c p1 _ Hc')|].
    change (children _) with (hooked e2 C1). rewrite Hls. reflexivity. }
  clearbody p2. rewrite Hl2 in Hp2. unfold pa in Hp2. rewrite Hl1 in Hp2. cbn in Hp2.
  split.
  { eexists. rewrite Hp2. cbn. rewrite list_lookup_insert_ne by congruence.
    rewrite list_lookup_insert_eq by exact Hlt1. repeat split. }
  split.
  { eexists. rewrite Hp2. cbn.
    rewrite list_lookup_insert_eq by (rewrite length_insert; exact Hlt2). repeat split. }
  split; [rewrite Hp2; cbn; rewrite !length_app, Hf', Hf; simpl; lia|].
  split.
  { rewrite Hp2. unfold frames_of. cbn.
    rewrite !list_lookup_alter_eq, Hc'. simpl. rewrite length_app, Hf', Hf. simpl.
    rewrite Nat.add_1_r. reflexivity. }
  rewrite Hp2. cbn. rewrite <- app_assoc. reflexivity.
Qed.

Lemma click_after_restore_loads_twice_witness :
  let env := {| Part002.SUPPORTS_INTERSECTION_OBSERVER := true;
                Part002.PREFERS_REDUCED_MOTION := true |} in
  let p1 := Part002.setupLazyLoading env
              (Part002.setupLazyLoading env
                 (Examples.page_of_url "https://www.tiktok.com/@a/video/123456")) in
  let p2 := Part002.step (Part002.Click 0) p1 in
  length (frames p2) = 2 /\ frames_of 0 p2 = [1].
Proof.
  cbv zeta.
  pose proof (click_after_restore_loads_twice
                {| Part002.SUPPORTS_INTERSECTION_OBSERVER := true;
                   Part002.PREFERS_REDUCED_MOTION := true |}
                (Examples.page_of_url "https://www.tiktok.com/@a/video/123456") 0
                (Examples.container_of "https://www.tiktok.com/@a/video/123456")
                "https://www.tiktok.com/@a/video/123456"
                eq_refl eq_refl ltac:(vm_compute; discriminate)
                ltac:(eexists; reflexivity) eq_refl)
    as (_ & _ & H3 & H4 & _).
  split; [exact H3|exact H4].
Defined.

End Boot.

(** * Events at the iframe and the script of part_000 *)

Module FrameEvents.
Import Dom Page JsFacts DomFacts Part002Facts Part000Facts SetupFacts ListenerFacts
  Setup SetupAgain LazyLoading.

(** X7.  An iframe error outside a press card.  When the container of a
    hydrated Placeholder has no [.press-card] ancestor, the error listener
    warns and then fails in [handleLoadError()]: no fallback is shown, the
    failed iframe stays the content of the container, the object stays
    hydrated, [video_load_error] is not tracked, and a further error event
    does nothing because the listener is registered once. *)
Theorem error_outside_press_card_shows_no_fallback e p E C u :
  embeds p !! e = Some E -> isLoaded E = false ->
  url E = Some u -> Js.extractVideoId u <> EmptyString ->
  containers p !! container E = Some C -> press_card C = None ->
  let f := length (frames p) in
  let p1 := page_of (Part002.load e p) in
  let p2 := Part002.step (Part002.FrameError f) p1 in
  console p2 = (console p1 ++ [Warn "TikTok embed failed to load:" (Js.extractVideoId u)])%list
  /\ containers p2 = containers p1
  /\ frames_of (container E) p2 = [f]
  /\ embeds p2 = embeds p1
  /\ hydrated_at e (container E) p2
  /\ Part002.step (Part002.FrameError f) p2 = p2.
Proof.
  intros HE Hl Hu Hid HC Hpc. cbv zeta.
  pose proof (load_unhydrated e p E u HE Hl Hu Hid) as Hload. cbv zeta in Hload.
  pose proof (lookup_lt_Some _ _ _ HE) as Hlte.
  pose proof (lookup_lt_Some _ _ _ HC) as Hltc.
  rewrite Hload. cbn [page_of Js.state_of].
  set (f := length (frames p)) in *.
  set (i := Part002.new_iframe e E (Js.extractVideoId u)) in *.
  match goal with |- context [Part002.step _ ?q] => set (p1 := q) end.
  assert (((frames p ++ [i])%list !! f) = Some i) as Hf
    by (unfold f; rewrite lookup_app_r, Nat.sub_diag by lia; reflexivity).
  assert (Part002.step (Part002.FrameError f) p1
          = log (Warn "TikTok embed failed to load:" (Js.extractVideoId u))
              (with_frames (<[f := with_on_error [] i]> (frames p ++ [i])%list) p1)) as Hp2.
  { unfold Part002.step, p1. cbn [frames with_embeds with_containers with_frames].
    rewrite Hf.
    simpl. unfold Part002.handleLoadError. simpl.
    rewrite list_lookup_insert_eq by exact Hlte. simpl.
    rewrite list_lookup_alter_eq, HC. simpl. rewrite Hpc. reflexivity. }
  rewrite Hp2. clear Hp2.
  split; [reflexivity|]. split; [reflexivity|].
  split.
  { unfold frames_of, p1. cbn. rewrite list_lookup_alter_eq, HC. reflexivity. }
  split; [reflexivity|].
  split.
  { eexists. unfold p1. cbn. rewrite list_lookup_insert_eq by exact Hlte. repeat split. }
  unfold Part002.step. cbn [frames log with_console with_frames].
  rewrite list_lookup_insert_eq by (rewrite length_app; simpl; fold f; lia).
  cbn. rewrite list_insert_insert_eq. reflexivity.
Qed.

Lemma error_outside_press_card_shows_no_fallback_witness :
  let C := with_press_card None
             (Examples.container_of "https://www.tiktok.com/@a/video/123456") in
  let p := snd (Part002.construct 0
                  {| containers := [C]; embeds := []; frames := []; console := [];
                     observed := []; timers := [];
                     parse_html := Examples.no_markup |}) in
  let p2 := Part002.step (Part002.FrameError 0) (page_of (Part002.load 0 p)) in
  frames_of 0 p2 = [0] /\ hydrated_at 0 0 p2
  /\ console p2 = [Warn "TikTok embed failed to load:" "123456"].
Proof.
  cbv zeta.
  set (C := with_press_card None
              (Examples.container_of "https://www.tiktok.com/@a/video/123456")).
  match goal with |- context [Part002.load 0 ?p] => set (p0 := p) end.
  pose proof (error_outside_press_card_shows_no_fallback 0 p0 (fresh 0 C)
                (with_children (hooked 0 C) C)
                "https://www.tiktok.com/@a/video/123456" eq_refl eq_refl eq_refl
                ltac:(vm_compute; discriminate) eq_refl eq_refl)
    as (H1 & _ & H3 & _ & H5 & _).
  split; [exact H3|]. split; [exact H5|exact H1].
Defined.

(** An error listener takes no iframe out of the store and changes none. *)
Lemma handleLoadError_frames e p :
  exists more, frames (page_of (Part002.handleLoadError e p)) = (frames p ++ more)%list.
Proof.
  unfold Part002.handleLoadError.
  repeat case_match; simpl; eauto; exists []; symmetry; apply app_nil_r.
Qed.

Lemma run_frame_error_frames l p :
  exists more, frames (Part002.run_frame_error l p) = (frames p ++ more)%list.
Proof.
  destruct l as [e v|e v|e v|]; simpl; try (exists []; symmetry; apply app_nil_r).
  destruct (handleLoadError_frames e (log (Warn "TikTok embed failed to load:" v) p))
    as [more H].
  exists more. destruct (Part002.handleLoadError e _); simpl in *; exact H.
Qed.

Lemma run_frame_load_frames l p : frames (Part002.run_frame_load l p) = frames p.
Proof. destruct l; reflexivity. Qed.

Lemma run_frame_error0_frames l p :
  exists more, frames (Part000.run_frame_error l p) = (frames p ++ more)%list.
Proof.
  destruct l as [e v|e v|e v|]; simpl; try (exists []; symmetry; apply app_nil_r).
  unfold Part000.handleLoadError. simpl. case_match; simpl; eauto.
  exists []. symmetry. apply app_nil_r.
Qed.

(** listeners that only add to the store keep what it held *)
Lemma foldl_frames_grow {A} (g : Page -> A -> Page) (l : list A) p :
  (forall q x, exists more, frames (g q x) = (frames q ++ more)%list) ->
  exists more, frames (foldl g p l) = (frames p ++ more)%list.
Proof.
  intros Hg. revert p. induction l as [|x l IH]; intros p; simpl.
  - exists []. symmetry. apply app_nil_r.
  - destruct (IH (g p x)) as [m1 H1]. destruct (Hg p x) as [m2 H2].
    exists (m2 ++ m1)%list. rewrite H1, H2, app_assoc. reflexivity.
Qed.

(** X8.  The listeners on an iframe run once.  In both class-based scripts
    a second [error] event at the same iframe changes nothing, and in
    part_002 neither does a second [load] event: the fallback is written
    once, and [video_load_error] and [video_loaded] are tracked at most once
    per iframe. *)
Theorem frame_listeners_run_once f :
  (forall p, Part002.step (Part002.FrameError f) (Part002.step (Part002.FrameError f) p)
             = Part002.step (Part002.FrameError f) p)
  /\ (forall p, Part002.step (Part002.FrameLoad f) (Part002.step (Part002.FrameLoad f) p)
                = Part002.step (Part002.FrameLoad f) p)
  /\ (forall p, Part000.step (Part000.FrameError f) (Part000.step (Part000.FrameError f) p)
                = Part000.step (Part000.FrameError f) p).
Proof.
  split; [|split]; intros p; simpl; destruct (frames p !! f) as [i|] eqn:Hi;
    try (rewrite Hi; reflexivity).
  - match goal with |- context [foldl ?g ?q0 (on_error i)] =>
      set (q := foldl g q0 (on_error i));
      destruct (foldl_frames_grow g (on_error i) q0) as [more Hq];
        [intros; apply run_frame_error_frames|]
    end.
    fold q in Hq. cbn [frames with_frames] in Hq.
    assert (frames q !! f = Some (with_on_error [] i)) as Hlook.
    { rewrite Hq, lookup_app_l by (rewrite length_insert; eapply lookup_lt_Some; exact Hi).
      apply list_lookup_insert_eq. eapply lookup_lt_Some. exact Hi. }
    rewrite Hlook.
    change (with_frames (<[f := with_on_error [] i]> (frames q)) q = q).
    rewrite (list_insert_id _ _ _ Hlook). apply with_frames_same.
  - match goal with |- context [foldl ?g ?q0 (on_load i)] =>
      set (q := foldl g q0 (on_load i));
      assert (frames q = <[f := with_on_load [] i]> (frames p)) as Hq
        by (unfold q; rewrite (Boot.foldl_keeps frames); [reflexivity|];
            intros; apply run_frame_load_frames)
    end.
    assert (frames q !! f = Some (with_on_load [] i)) as Hlook
      by (rewrite Hq; apply list_lookup_insert_eq; eapply lookup_lt_Some; exact Hi).
    rewrite Hlook.
    change (with_frames (<[f := with_on_load [] i]> (frames q)) q = q).
    rewrite (list_insert_id _ _ _ Hlook). apply with_frames_same.
  - match goal with |- context [foldl ?g ?q0 (on_error i)] =>
      set (q := foldl g q0 (on_error i));
      destruct (foldl_frames_grow g (on_error i) q0) as [more Hq];
        [intros; apply run_frame_error0_frames|]
    end.
    fold q in Hq. cbn [frames with_frames] in Hq.
    assert (frames q !! f = Some (with_on_error [] i)) as Hlook.
    { rewrite Hq, lookup_app_l by (rewrite length_insert; eapply lookup_lt_Some; exact Hi).
      apply list_lookup_insert_eq. eapply lookup_lt_Some. exact Hi. }
    rewrite Hlook.
    change (with_frames (<[f := with_on_error [] i]> (frames q)) q = q).
    rewrite (list_insert_id _ _ _ Hlook). apply with_frames_same.
Qed.

End FrameEvents.

(** * [setupTikTokEmbeds] of part_000 *)

Module OldSetup.
Import Dom Page JsFacts DomFacts Part002Facts Part000Facts SetupFacts ListenerFacts
  Setup SetupAgain LazyLoading.

Lemma idle_construct c p : idle p -> idle (snd (Part000.construct c p)).
Proof.
  intros [Hf He]. rewrite construct_same.
  destruct (containers p !! c) as [C|] eqn:HC.
  - rewrite (construct_eq c p C HC). split; [exact Hf|]. simpl.
    apply Forall_app. split; [exact He|]. constructor; [reflexivity|constructor].
  - unfold Part002.construct. rewrite HC. split; assumption.
Qed.

Lemma idle_on_intersect entries : forall p, idle p -> idle (Part000.on_intersect entries p).
Proof.
  induction entries as [|[c b] rest IH]; intros p Hp; simpl; [exact Hp|].
  destruct (containers p !! c) as [C|]; [|apply IH, Hp].
  destruct (b && negb (bool_decide (is_Some (tiktokEmbed C)))); [|apply IH, Hp].
  pose proof (idle_construct c p Hp) as Hi.
  destruct (Part000.construct c p) as [e p1]. apply IH.
  destruct Hi as [Hf He]. split; assumption.
Qed.

Lemma idle_step ev p : Part000.is_click ev = false -> idle p -> idle (Part000.step ev p).
Proof.
  destruct ev as [c|entries|f]; simpl; [discriminate|intros _..].
  - apply idle_on_intersect.
  - intros [Hf He]. rewrite Hf, lookup_nil. split; assumption.
Qed.

Lemma idle_setup env p : idle p -> idle (Part000.setupTikTokEmbeds env p).
Proof.
  intros Hp. unfold Part000.setupTikTokEmbeds.
  case_bool_decide as Hnil; [exact Hp|]. clear Hnil.
  destruct (_ || _); [|exact Hp].
  generalize (seq 0 (length (containers p))). intros l. revert p Hp.
  induction l as [|c l IH]; intros p Hp; simpl; [exact Hp|].
  apply IH, idle_construct, Hp.
Qed.

(** X9.  [setupTikTokEmbeds()] never hydrates by itself, in any
    environment: on a page without iframes whose objects are unhydrated, no
    sequence of observer callbacks and iframe errors creates an iframe or
    hydrates an object.  Only a click does. *)
Theorem setupTikTokEmbeds_loads_on_click_only env p evs :
  frames p = [] ->
  Forall (fun E => isLoaded E = false) (embeds p) ->
  forallb (fun ev => negb (Part000.is_click ev)) evs = true ->
  let q := Part000.run evs (Part000.setupTikTokEmbeds env p) in
  frames q = [] /\ Forall (fun E => isLoaded E = false) (embeds q).
Proof.
  intros Hf He Hevs. cbv zeta.
  assert (idle (Part000.setupTikTokEmbeds env p)) as Hi by (apply idle_setup; split; assumption).
  revert Hi. generalize (Part000.setupTikTokEmbeds env p). clear Hf He.
  induction evs as [|ev evs IH]; intros q Hq; simpl; [exact Hq|].
  simpl in Hevs. apply andb_true_iff in Hevs as [Hev Hevs].
  apply (IH Hevs). apply idle_step; [|exact Hq].
  destruct (Part000.is_click ev); [discriminate|reflexivity].
Qed.

Lemma setupTikTokEmbeds_loads_on_click_only_witness :
  let env := {| Part000.SUPPORTS_INTERSECTION_OBSERVER := true;
                Part000.PREFERS_REDUCED_MOTION := false |} in
  let q := Part000.run [Part000.Intersect [(0, true)]; Part000.Intersect [(0, true)]]
             (Part000.setupTikTokEmbeds env
                (Examples.page_of_url "https://www.tiktok.com/@a/video/123456")) in
  frames q = [] /\ (isLoaded <$> embeds q !! 0) = Some false.
Proof.
  cbv zeta.
  pose proof (setupTikTokEmbeds_loads_on_click_only
                {| Part000.SUPPORTS_INTERSECTION_OBSERVER := true;
                   Part000.PREFERS_REDUCED_MOTION := false |}
                (Examples.page_of_url "https://www.tiktok.com/@a/video/123456")
                [Part000.Intersect [(0, true)]; Part000.Intersect [(0, true)]]
                eq_refl ltac:(constructor) eq_refl) as [H1 _].
  split; [exact H1|reflexivity].
Defined.

Lemma click_listeners_000 c p C :
  containers p !! c = Some C ->
  Part000.click c p
  = foldl (fun q l => Part000.run_click l q) p (listeners_at "ttk__poster" (children C)).
Proof.
  intros HC. unfold Part000.click, listeners_at, clicks_of. rewrite HC.
  destruct (query "ttk__poster" (children C)) as [[a kids|s|f]|]; reflexivity.
Qed.

Lemma delivered_one_000 c b p :
  c ∈ observed p -> Part000.delivered [(c, b)] p = [(c, b)].
Proof.
  intros Hc. unfold Part000.delivered.
  rewrite filter_cons, bool_decide_eq_true_2 by exact Hc. reflexivity.
Qed.

(** X10.  Hydration in two steps.  With an [IntersectionObserver] and no
    reduced-motion preference, [setupTikTokEmbeds()] only observes: until a
    container has intersected its poster button has no listener and a click
    on it does nothing.  The first intersecting entry creates the object,
    unhydrated, and a click on the poster button then hydrates it with one
    new iframe. *)
Theorem visible_then_click_hydrates env p c C u :
  Part000.PREFERS_REDUCED_MOTION env = false ->
  Part000.SUPPORTS_INTERSECTION_OBSERVER env = true ->
  containers p !! c = Some C ->
  tiktokEmbed C = None ->
  tiktokUrl (dataset C) = Some u ->
  Js.extractVideoId u <> EmptyString ->
  is_Some (query "ttk__poster" (children C)) ->
  listeners_at "ttk__poster" (children C) = [] ->
  let p1 := Part000.setupTikTokEmbeds env p in
  let e := length (embeds p) in
  let p2 := Part000.step (Part000.Intersect [(c, true)]) p1 in
  let p3 := Part000.step (Part000.Click c) p2 in
  Part000.step (Part000.Click c) p1 = p1
  /\ embeds p2 = (embeds p ++ [fresh c C])%list
  /\ frames p2 = frames p
  /\ hydrated_at e c p3
  /\ frames_of c p3 = [length (frames p)]
  /\ frames p3 = (frames p ++ [Part000.new_iframe e (fresh c C) (Js.extractVideoId u)])%list.
Proof.
  intros Hr Hs HC Hte Hu Hid [m Hm] Hnone. cbv zeta.
  pose proof (lookup_lt_Some _ _ _ HC) as Hlt.
  assert (Part000.setupTikTokEmbeds env p
          = with_observed (observed p ++ seq 0 (length (containers p))) p) as ->.
  { unfold Part000.setupTikTokEmbeds. rewrite Hr, Hs. simpl.
    case_bool_decide as Hnil; [|reflexivity].
    apply (f_equal length) in Hnil. rewrite length_seq in Hnil. simpl in Hnil. lia. }
  set (p1 := with_observed _ p).
  assert (c ∈ observed p1) as Hobs.
  { simpl. apply elem_of_app. right. apply elem_of_seq. lia. }
  split.
  { change (Part000.step (Part000.Click c) p1) with (Part000.click c p1).
    rewrite (click_listeners_000 c p1 C HC), Hnone. reflexivity. }
  set (C2 := with_tiktokEmbed (Some (length (embeds p)))
               (with_children (hooked (length (embeds p)) C) C)).
  assert (exists o2,
            Part000.step (Part000.Intersect [(c, true)]) p1
            = with_observed o2
                (with_containers (<[c := C2]> (containers p))
                   (with_embeds (embeds p ++ [fresh c C]) p1))) as [o2 Hp2].
  { eexists. unfold Part000.step. rewrite (delivered_one_000 _ _ _ Hobs).
    unfold Part000.on_intersect.
    change (containers p1 !! c) with (containers p !! c). rewrite HC, Hte.
    rewrite bool_decide_eq_false_2 by (intros [? [=]]). cbn [andb negb].
    rewrite construct_same, (construct_eq c p1 C HC). cbn.
    rewrite alter_insert_same. reflexivity. }
  rewrite Hp2. set (p2 := with_observed o2 _).
  split; [reflexivity|]. split; [reflexivity|].
  assert (containers p2 !! c = Some C2) as HC2
    by (simpl; apply list_lookup_insert_eq; exact Hlt).
  assert (embeds p2 !! length (embeds p) = Some (fresh c C)) as HE2
    by (simpl; rewrite lookup_app_r, Nat.sub_diag by lia; reflexivity).
  pose proof (load_unhydrated_000 _ p2 (fresh c C) u HE2 eq_refl Hu Hid) as Hload.
  cbv zeta in Hload.
  assert (Part000.step (Part000.Click c) p2
          = page_of (Part000.load (length (embeds p)) p2)) as ->.
  { change (Part000.step (Part000.Click c) p2) with (Part000.click c p2).
    rewrite (click_listeners_000 c p2 C2 HC2).
    change (children C2) with (hooked (length (embeds p)) C).
    rewrite listeners_hooked, Hm, Hnone. reflexivity. }
  rewrite Hload. cbn.
  split.
  { eexists. cbn. rewrite list_lookup_insert_eq by (rewrite length_app; simpl; lia).
    repeat split. }
  split; [|reflexivity].
  unfold frames_of. cbn. rewrite list_lookup_alter_eq.
  rewrite list_lookup_insert_eq by exact Hlt. reflexivity.
Qed.

Lemma visible_then_click_hydrates_witness :
  let env := {| Part000.SUPPORTS_INTERSECTION_OBSERVER := true;
                Part000.PREFERS_REDUCED_MOTION := false |} in
  let p1 := Part000.setupTikTokEmbeds env
              (Examples.page_of_url "https://www.tiktok.com/@a/video/123456") in
  let p3 := Part000.run [Part000.Intersect [(0, true)]; Part000.Click 0] p1 in
  Part000.step (Part000.Click 0) p1 = p1
  /\ hydrated_at 0 0 p3 /\ frames_of 0 p3 = [0].
Proof.
  cbv zeta.
  pose proof (visible_then_click_hydrates
                {| Part000.SUPPORTS_INTERSECTION_OBSERVER := true;
                   Part000.PREFERS_REDUCED_MOTION := false |}
                (Examples.page_of_url "https://www.tiktok.com/@a/video/123456") 0
                (Examples.container_of "https://www.tiktok.com/@a/video/123456")
                "https://www.tiktok.com/@a/video/123456"
                eq_refl eq_refl eq_refl eq_refl eq_refl ltac:(vm_compute; discriminate)
                ltac:(eexists; reflexivity) eq_refl)
    as (H1 & _ & _ & H4 & H5 & _).
  split; [exact H1|]. split; [exact H4|exact H5].
Defined.

End OldSetup.

(** * The inline script at [#tiktok-card] *)

Module InlineFacts.
Import Dom Inline InlineRun.

Lemma hydrate_keeps videoId s :
  children (hydrate videoId s) = children s
  /\ console (hydrate videoId s) = console s
  /\ data_tiktok_url (hydrate videoId s) = data_tiktok_url s
  /\ observing (hydrate videoId s) = observing s
  /\ hydrated (hydrate videoId s) = Some "1"
  /\ frames (hydrate videoId s)
     = (frames s ++ if bool_decide (hydrated s = Some "1") then []
                    else [new_iframe videoId])%list.
Proof.
  unfold hydrate. case_bool_decide as H; simpl; [rewrite app_nil_r|]; repeat split.
  exact H.
Qed.

Lemma on_intersect_result env videoId entries s :
  on_intersect env videoId entries s
  = if existsb (qualifies env) entries
    then with_observing false (hydrate videoId s)
    else s.
Proof.
  induction entries as [|b rest IH]; simpl; [reflexivity|].
  unfold qualifies at 1. destruct (b || prefersReduced env); [reflexivity|exact IH].
Qed.

(** X11.  The callback of the inline script hydrates at the first entry
    that intersects, or at the first entry whatever it says when the
    reduced-motion preference is set; it then disconnects the observer, so
    that no later callback does anything.  A callback without such an entry
    changes nothing and keeps observing. *)
Theorem inline_callback_hydrates_once env s videoId entries :
  videoId_of s = Some videoId ->
  observing s = true ->
  let s' := step env (Intersect entries) s in
  (existsb (qualifies env) entries = true ->
     hydrated s' = Some "1" /\ observing s' = false
     /\ frames s' = (frames s ++ if bool_decide (hydrated s = Some "1") then []
                                 else [new_iframe videoId])%list
     /\ forall later, step env (Intersect later) s' = s')
  /\ (existsb (qualifies env) entries = false -> s' = s)
  /\ (prefersReduced env = true -> entries <> [] ->
        existsb (qualifies env) entries = true).
Proof.
  intros Hv Ho. cbv zeta.
  assert (step env (Intersect entries) s
          = if existsb (qualifies env) entries
            then with_observing false (hydrate videoId s) else s) as ->
    by (unfold step; rewrite Hv, Ho; apply on_intersect_result).
  split; [|split].
  - intros ->. destruct (hydrate_keeps videoId s) as (_ & _ & Hd & _ & Hh & Hf).
    split; [exact Hh|]. split; [reflexivity|]. split; [exact Hf|].
    intros later. unfold step.
    destruct (videoId_of (with_observing false (hydrate videoId s))); reflexivity.
  - intros ->. reflexivity.
  - intros Hr. destruct entries as [|b rest]; [contradiction|]. intros _. simpl.
    unfold qualifies at 1. rewrite Hr, orb_true_r. reflexivity.
Qed.

Lemma inline_callback_hydrates_once_witness :
  let env := {| has_IntersectionObserver := true; prefersReduced := true |} in
  let s0 := Examples.inline_card "https://www.tiktok.com/@a/video/123456" in
  let s := from_option id s0 (script env (Some s0)) in
  let s' := step env (Intersect [false]) s in
  hydrated s' = Some "1" /\ observing s' = false /\ length (frames s') = 1.
Proof.
  cbv zeta.
  set (env := {| has_IntersectionObserver := true; prefersReduced := true |}).
  set (s0 := Examples.inline_card "https://www.tiktok.com/@a/video/123456").
  destruct (inline_callback_hydrates_once env (from_option id s0 (script env (Some s0)))
              "123456" [false] eq_refl eq_refl) as (H & _).
  destruct (H eq_refl) as (H1 & H2 & H3 & _).
  split; [exact H1|]. split; [exact H2|]. rewrite H3. reflexivity.
Defined.

(** X12.  The inline script never shows the video.  Whatever the observer
    reports, the content of [#tiktok-card] stays as it was and nothing is
    logged; at most one iframe element is created, and none when the card
    is already marked as hydrated.  The element is created but not inserted
    into the card. *)
Theorem inline_iframe_is_never_attached env s0 s evs :
  script env (Some s0) = Some s ->
  forallb is_intersect evs = true ->
  let s' := run env evs s in
  children s' = children s0
  /\ console s' = console s0
  /\ length (frames s') <= S (length (frames s0))
  /\ (hydrated s0 = Some "1" -> frames s' = frames s0).
Proof.
  intros Hs Hevs. cbv zeta.
  assert (children s = children s0 /\ console s = console s0
          /\ (hydrated s = Some "1" \/ frames s = frames s0)
          /\ (length (frames s) <= S (length (frames s0)))
          /\ (hydrated s0 = Some "1" -> hydrated s = Some "1" /\ frames s = frames s0))
    as Hstart.
  { simpl in Hs. destruct (videoId_of s0) as [v|]; [|injection Hs as <-; auto 10].
    destruct (negb _); injection Hs as <-; [|simpl; auto 10].
    destruct (hydrate_keeps v s0) as (H1 & H2 & _ & _ & H5 & H6).
    rewrite H1, H2, H6, H5, length_app.
    case_bool_decide as Hh; simpl; rewrite ?app_nil_r;
      repeat split; auto; try lia; intros; congruence. }
  clear Hs. revert s Hstart.
  induction evs as [|ev evs IH]; intros s Hstart; simpl.
  { destruct Hstart as (H1 & H2 & _ & H4 & H5). repeat split; auto. apply H5. }
  simpl in Hevs. apply andb_true_iff in Hevs as [Hev Hevs].
  destruct ev as [entries|f]; [|discriminate].
  apply (IH Hevs). destruct Hstart as (H1 & H2 & H3 & H4 & H5).
  simpl. destruct (videoId_of s) as [v|]; [|auto 10].
  destruct (observing s); [|auto 10].
  rewrite on_intersect_result. destruct (existsb _ _); [|auto 10].
  destruct (hydrate_keeps v s) as (K1 & K2 & _ & _ & K5 & K6). simpl.
  rewrite K1, K2, K5, K6, length_app.
  case_bool_decide as Hh; simpl; rewrite ?app_nil_r.
  - repeat split; auto; try lia. apply H5. assumption.
  - destruct H3 as [H3|H3]; [contradiction|]. rewrite H3.
    repeat split; auto; try lia.
    match goal with Hh0 : hydrated s0 = Some _ |- _ => destruct (H5 Hh0); contradiction end.
Qed.

Lemma inline_iframe_is_never_attached_witness :
  let env := {| has_IntersectionObserver := true; prefersReduced := false |} in
  let s0 := Examples.inline_card "https://www.tiktok.com/@a/video/123456" in
  let s := from_option id s0 (script env (Some s0)) in
  let s' := run env [Intersect [false; true]; Intersect [true]] s in
  children s' = children s0 /\ length (frames s') = 1 /\ frames_in (children s') = [].
Proof.
  cbv zeta.
  set (env := {| has_IntersectionObserver := true; prefersReduced := false |}).
  set (s0 := Examples.inline_card "https://www.tiktok.com/@a/video/123456").
  destruct (inline_iframe_is_never_attached env s0 (from_option id s0 (script env (Some s0)))
              [Intersect [false; true]; Intersect [true]] eq_refl eq_refl)
    as (H1 & _).
  split; [exact H1|]. split; [reflexivity|]. rewrite H1. reflexivity.
Defined.

End InlineFacts.

(** * [initTikTok] and the observers of src/app.js *)

Module CardsMore.
Import Dom Cards JsFacts DomFacts CardsFacts ListenerFacts Setup CardsSetup.

Lemma add_click_ok c p C :
  cards p !! c = Some C -> is_Some (query "ttk__poster" (children C)) ->
  add_click c p = Done (with_cards (<[c := wired_card c C]> (cards p)) p).
Proof.
  intros HC [m Hm]. unfold add_click. rewrite HC, Hm. f_equal.
  unfold with_card_children. f_equal.
  apply list_eq. intros i. destruct (decide (i = c)) as [->|Hne].
  - rewrite list_lookup_alter_eq, HC.
    rewrite list_lookup_insert_eq by (eapply lookup_lt_Some; exact HC). reflexivity.
  - rewrite list_lookup_alter_ne, list_lookup_insert_ne by congruence. reflexivity.
Qed.

Lemma add_click_fail c p C :
  cards p !! c = Some C -> query "ttk__poster" (children C) = None ->
  add_click c p = Thrown "TypeError: posterBtn is null" p.
Proof. intros HC Hq. unfold add_click. rewrite HC, Hq. reflexivity. Qed.

Lemma add_clicks_app l1 l2 p :
  add_clicks (l1 ++ l2) p
  = match add_clicks l1 p with
    | Done q => add_clicks l2 q
    | Thrown err q => Thrown err q
    end.
Proof.
  revert p. induction l1 as [|c l1 IH]; intros p; simpl; [reflexivity|].
  destruct (add_click c p); [apply IH|reflexivity].
Qed.

(** the first loop of [initTikTok], as far as the cards have a poster button *)
Lemma add_clicks_wired p k :
  k <= length (cards p) ->
  (forall c C, c < k -> cards p !! c = Some C ->
     is_Some (query "ttk__poster" (children C))) ->
  exists q, add_clicks (seq 0 k) p = Done q /\ wired k p q.
Proof.
  induction k as [|k IH]; intros Hk Hall.
  - exists p. split; [reflexivity|]. unfold wired. repeat split; intros; lia.
  - destruct (IH ltac:(lia) ltac:(intros c C Hc; apply Hall; lia))
      as (q & Hq & Hlen & Hc & Hrest & Hh & Hf & Ho & Hfo & Ha).
    destruct (lookup_lt_is_Some_2 (cards p) k ltac:(lia)) as [C HC].
    assert (cards q !! k = Some C) as HCq by (rewrite Hrest by lia; exact HC).
    rewrite seq_S, add_clicks_app, Hq. simpl.
    rewrite (add_click_ok k q C HCq (Hall k C ltac:(lia) HC)).
    eexists. split; [reflexivity|]. unfold wired. simpl. rewrite length_insert.
    split; [exact Hlen|]. split; [|split; [|repeat split; assumption]].
    + intros c C' Hlt HC'. destruct (decide (c = k)) as [->|Hne].
      * rewrite list_lookup_insert_eq by (rewrite Hlen; lia). congruence.
      * rewrite list_lookup_insert_ne by congruence. apply Hc; [lia|exact HC'].
    + intros c Hle. rewrite list_lookup_insert_ne by lia. apply Hrest. lia.
Qed.

(** X13.  [initTikTok()] stops at the first card without a poster button.
    The cards before it have got their click listener; the card itself and
    all cards after it are left as they were, so a click on their poster
    button does nothing; and no card is observed, not even the ones before,
    because the exception leaves [initTikTok] before the observer is
    created. *)
Theorem initTikTok_stops_at_card_without_button env p k Ck :
  cards p !! k = Some Ck ->
  query "ttk__poster" (children Ck) = None ->
  (forall c C, c < k -> cards p !! c = Some C ->
     is_Some (query "ttk__poster" (children C))) ->
  exists q,
    initTikTok env p = Thrown "TypeError: posterBtn is null" q
    /\ observed q = observed p
    /\ (forall c C, c < k -> cards p !! c = Some C ->
          cards q !! c = Some (wired_card c C)
          /\ listeners_at "ttk__poster" (children (wired_card c C))
             = (listeners_at "ttk__poster" (children C) ++ [ClickHydrate c])%list)
    /\ (forall c, k <= c -> cards q !! c = cards p !! c)
    /\ (forall c C, k < c -> cards p !! c = Some C ->
          listeners_at "ttk__poster" (children C) = [] ->
          step env (Click c) q = q).
Proof.
  intros HCk Hnone Hall.
  pose proof (lookup_lt_Some _ _ _ HCk) as Hlt.
  destruct (add_clicks_wired p k ltac:(lia) Hall)
    as (q & Hq & Hlen & Hc & Hrest & Hh & Hf & Ho & Hfo & Ha).
  exists q. split.
  { unfold initTikTok.
    replace (length (cards p)) with (k + S (length (cards p) - S k)) by lia.
    rewrite seq_app, add_clicks_app, Hq. simpl.
    rewrite (add_click_fail k q Ck); [reflexivity| |exact Hnone].
    rewrite Hrest by lia. exact HCk. }
  split; [exact Ho|]. split; [|split; [exact Hrest|]].
  - intros c C Hck HC. split; [apply Hc; assumption|].
    unfold wired_card. simpl. rewrite listeners_at_with_click.
    destruct (Hall c C Hck HC) as [m ->]. reflexivity.
  - intros c C Hkc HC Hl. simpl. unfold click. rewrite Hrest, HC by lia.
    unfold listeners_at, clicks_of in Hl.
    destruct (query "ttk__poster" (children C)) as [[a kids|s|f]|]; try reflexivity.
    rewrite Hl. reflexivity.
Qed.

Lemma initTikTok_stops_at_card_without_button_witness :
  let bare := {| dataset := {| tiktokUrl := None; data_title := None; poster := None |};
                 children := []; press_card := None; tiktokEmbed := None |} in
  let p := with_cards [Examples.card_of "https://www.tiktok.com/@a/video/1"; bare;
                       Examples.card_of "https://www.tiktok.com/@a/video/2"]
             (Examples.cards_page "") in
  exists q, initTikTok Examples.modern p = Thrown "TypeError: posterBtn is null" q
            /\ observed q = []
            /\ cards q !! 2 = cards p !! 2.
Proof.
  cbv zeta.
  match goal with |- context [initTikTok _ ?p0] => set (p := p0) end.
  destruct (initTikTok_stops_at_card_without_button Examples.modern p 1
              {| dataset := {| tiktokUrl := None; data_title := None; poster := None |};
                 children := []; press_card := None; tiktokEmbed := None |}
              eq_refl eq_refl) as (q & H1 & H2 & _ & H4 & _).
  { intros c C Hc HC. destruct c as [|c]; [|lia].
    injection HC as <-. eexists. reflexivity. }
  exists q. split; [exact H1|]. split; [exact H2|]. apply H4. lia.
Defined.

Lemma click_listeners_cards env c p C :
  cards p !! c = Some C ->
  click env c p
  = foldl (fun q l => run_click env l q) p (listeners_at "ttk__poster" (children C)).
Proof.
  intros HC. unfold click, listeners_at, clicks_of. rewrite HC.
  destruct (query "ttk__poster" (children C)) as [[a kids|s|f]|]; reflexivity.
Qed.

Lemma on_intersect_reduced env entries p :
  prefersReduced env = true -> on_intersect env entries p = Done p.
Proof.
  intros Hr. induction entries as [|[c b] rest IH]; simpl; [reflexivity|].
  rewrite Hr, andb_false_r. exact IH.
Qed.

(** X14.  On a page whose cards all have a poster button, [initTikTok()]
    gives every button a click listener and observes every card.  A click on
    the button of a complete card with a numeric [video/] identifier then
    hydrates the card with one new iframe; without the reduced-motion
    preference the first intersecting entry of the card does exactly the
    same; with the preference no observer callback changes anything. *)
Theorem initTikTok_wires_click_and_viewport env p c C v :
  has_IntersectionObserver env = true ->
  (forall c' C', cards p !! c' = Some C' ->
     is_Some (query "ttk__poster" (children C'))) ->
  cards p !! c = Some C ->
  listeners_at "ttk__poster" (children C) = [] ->
  c ∉ hydratedTikToks p ->
  Js.match_video (Js.or_else (tiktokUrl (dataset C)) "") = Some v ->
  is_Some (query "ttk__poster-img" (children C)) ->
  is_Some (query "ttk__frame" (children C)) ->
  frames_in (children C) = [] ->
  exists p1,
    initTikTok env p = Done p1
    /\ observed p1 = (observed p ++ seq 0 (length (cards p)))%list
    /\ let p2 := step env (Click c) p1 in
       c ∈ hydratedTikToks p2
       /\ frames p2 = (frames p ++ [buildIframe v])%list
       /\ frames_of c p2 = [length (frames p)]
       /\ (prefersReduced env = false -> step env (Intersect [(c, true)]) p1 = p2)
       /\ (prefersReduced env = true ->
             forall entries, step env (Intersect entries) p1 = p1).
Proof.
  intros Hio Hall HC Hnone Hin Hv Himg Hfr Hfi.
  pose proof (lookup_lt_Some _ _ _ HC) as Hlt.
  destruct (add_clicks_wired p (length (cards p)) ltac:(lia)
              ltac:(intros c' C' _; apply Hall))
    as (q & Hq & Hlen & Hc & Hrest & Hh & Hf & Ho & Hfo & Ha).
  set (p1 := with_observed (observed q ++ seq 0 (length (cards p))) q).
  exists p1. split; [unfold initTikTok; rewrite Hq, Hio; reflexivity|].
  split; [simpl; rewrite Ho; reflexivity|].
  assert (cards p1 !! c = Some (wired_card c C)) as HC1 by (apply Hc; assumption).
  destruct (Hall c C HC) as [m Hm].
  destruct (hydrateTikTok_success env c p1 (wired_card c C) v) as (p' & Hp' & H1 & H2 & H3);
    try assumption.
  { simpl. rewrite Hh. exact Hin. }
  { unfold wired_card. simpl. apply query_update_attrs; [reflexivity|exact Himg]. }
  { unfold wired_card. simpl. apply query_update_attrs; [reflexivity|eauto]. }
  { unfold wired_card. simpl. apply query_update_attrs; [reflexivity|exact Hfr]. }
  { unfold wired_card. simpl. rewrite frames_in_update_attrs. exact Hfi. }
  assert (step env (Click c) p1 = p') as ->.
  { change (step env (Click c) p1) with (click env c p1).
    rewrite (click_listeners_cards env c p1 _ HC1). unfold wired_card.
    cbn [children Dom.with_children]. rewrite listeners_at_with_click, Hm, Hnone.
    simpl. rewrite Hp'. reflexivity. }
  cbv zeta. split; [exact H1|].
  split; [rewrite H2; simpl; rewrite Hf; reflexivity|].
  split; [rewrite H3; simpl; rewrite Hf; reflexivity|].
  split.
  - intros Hr. unfold step, delivered.
    rewrite filter_cons, bool_decide_eq_true_2.
    2:{ simpl. apply elem_of_app. right. apply elem_of_seq. lia. }
    rewrite filter_nil. simpl. rewrite Hr. simpl. rewrite Hp'. reflexivity.
  - intros Hr entries. unfold step. rewrite on_intersect_reduced by exact Hr. reflexivity.
Qed.

Lemma initTikTok_wires_click_and_viewport_witness :
  let p := Examples.cards_page "https://www.tiktok.com/@a/video/123456" in
  exists p1, initTikTok Examples.modern p = Done p1
    /\ frames_of 0 (step Examples.modern (Click 0) p1) = [0]
    /\ step Examples.modern (Intersect [(0, true)]) p1
       = step Examples.modern (Click 0) p1.
Proof.
  cbv zeta.
  assert (forall c' C',
            cards (Examples.cards_page "https://www.tiktok.com/@a/video/123456") !! c'
            = Some C' -> is_Some (query "ttk__poster" (children C'))) as Hall.
  { intros c' C' HC'. destruct c' as [|c']; [|discriminate].
    injection HC' as <-. eexists. reflexivity. }
  destruct (initTikTok_wires_click_and_viewport Examples.modern
              (Examples.cards_page "https://www.tiktok.com/@a/video/123456") 0
              (Examples.card_of "https://www.tiktok.com/@a/video/123456") "123456"
              eq_refl Hall eq_refl eq_refl ltac:(set_solver) eq_refl
              ltac:(eexists; reflexivity) ltac:(eexists; reflexivity) eq_refl)
    as (p1 & H1 & _ & _ & _ & H4 & H5 & _).
  exists p1. split; [exact H1|]. split; [exact H4|]. apply H5. reflexivity.
Defined.

Lemma with_src_same i : with_src (src i) i = i.
Proof. destruct i; reflexivity. Qed.

(** the callbacks of an animation frame, run in the order they were queued *)
Lemma restores_length l : forall p,
  length (frames (foldl (fun q fs => with_frames (alter (with_src (snd fs)) (fst fs)
                                                    (frames q)) q) p l))
  = length (frames p).
Proof.
  induction l as [|x l IH]; intros p; simpl; [reflexivity|].
  rewrite IH. simpl. apply length_alter.
Qed.

(** after an exit and the next animation frame the iframe has the address
    it had when the exit was reported, whatever was queued before *)
Lemma resumed_src env k now p o i :
  frame_observers p !! k = Some o ->
  frames p !! target o = Some i ->
  (src <$> frames (step env AnimationFrame (step env (FrameIntersect k false now) p))
     !! target o) = Some (src i).
Proof.
  intros Ho Hi. simpl. unfold on_frame_entry. rewrite Ho, Hi.
  pose proof (lookup_lt_Some _ _ _ Hi) as Hlt.
  cbn [animation_frames with_animation_frames with_frames frames].
  rewrite foldl_app. cbn [foldl fst snd frames with_frames].
  rewrite list_lookup_alter_eq.
  match goal with |- context [foldl ?g ?q ?l] =>
    pose proof (restores_length l q) as Hlen
  end.
  cbn [frames with_animation_frames with_frames] in Hlen.
  rewrite length_insert in Hlen.
  match goal with |- context [frames ?q !! target o] =>
    destruct (lookup_lt_is_Some_2 (frames q) (target o)) as [j Hj]; [lia|]
  end.
  rewrite Hj. reflexivity.
Qed.

(** X15.  Pausing an iframe.  When the observer of an iframe reports that
    it left the viewport, the iframe is sent to [about:blank] and the
    restore of the address it had is queued after the restores already
    pending.  The next animation frame runs them all in order and leaves
    the iframe at the address it had when the exit was reported.  With no
    restore pending before the exit that is a round trip: the page is
    exactly as before.  With the exit reported a second time before the
    animation frame, the address to restore is [about:blank], and there the
    iframe stays.  An entry that reports the iframe inside the viewport
    never changes an iframe; it only records the time, and only when more
    than 2000 ms have passed since the time recorded. *)
Theorem pause_restores_the_iframe env k now p o i :
  frame_observers p !! k = Some o ->
  frames p !! target o = Some i ->
  let paused := step env (FrameIntersect k false now) p in
  let resumed := step env AnimationFrame paused in
  (src <$> frames paused !! target o) = Some "about:blank"
  /\ animation_frames paused = (animation_frames p ++ [(target o, src i)])%list
  /\ (src <$> frames resumed !! target o) = Some (src i)
  /\ animation_frames resumed = []
  /\ (animation_frames p = [] -> resumed = p)
  /\ (forall later,
        (src <$> frames (step env AnimationFrame
                           (step env (FrameIntersect k false later) paused)) !! target o)
        = Some "about:blank")
  /\ frames (step env (FrameIntersect k true now) p) = frames p
  /\ ((now - lastEnter o <= 2000)%Z ->
        step env (FrameIntersect k true now) p = p).
Proof.
  intros Ho Hi. cbv zeta.
  pose proof (lookup_lt_Some _ _ _ Hi) as Hlt.
  pose proof (resumed_src env k now p o i Ho Hi) as Hres.
  assert (step env (FrameIntersect k false now) p
          = with_animation_frames (animation_frames p ++ [(target o, src i)])
              (with_frames (<[target o := with_src "about:blank" i]> (frames p)) p))
    as Hpaused by (simpl; unfold on_frame_entry; rewrite Ho, Hi; reflexivity).
  split; [rewrite Hpaused; simpl; rewrite list_lookup_insert_eq by exact Hlt; reflexivity|].
  split; [rewrite Hpaused; reflexivity|].
  split; [exact Hres|]. split; [reflexivity|]. split.
  { intros Ha. rewrite Hpaused. simpl. rewrite Ha. simpl.
    rewrite SetupAgain.alter_insert_same.
    destruct p; simpl in *. subst. unfold with_animation_frames, with_frames. simpl.
    f_equal. apply list_insert_id. rewrite Hi. f_equal. destruct i; reflexivity. }
  split.
  { intros later.
    apply (resumed_src env k later _ o (with_src "about:blank" i)).
    - rewrite Hpaused. exact Ho.
    - rewrite Hpaused. simpl. apply list_lookup_insert_eq. exact Hlt. }
  simpl. unfold on_frame_entry. rewrite Ho, Hi. split.
  - case_bool_decide; [|reflexivity]. simpl. rewrite with_src_same.
    apply list_insert_id. exact Hi.
  - intros Hle. rewrite bool_decide_eq_false_2 by lia. reflexivity.
Qed.

Lemma pause_restores_the_iframe_witness :
  let p := Js.state_of (hydrateTikTok Examples.modern 0
                          (Examples.cards_page "https://www.tiktok.com/@a/video/123456")) in
  let paused := step Examples.modern (FrameIntersect 0 false 5000) p in
  (src <$> frames paused !! 0) = Some "about:blank"
  /\ step Examples.modern AnimationFrame paused = p
  /\ (src <$> frames (step Examples.modern AnimationFrame
                        (step Examples.modern (FrameIntersect 0 false 5100) paused)) !! 0)
     = Some "about:blank".
Proof.
  cbv zeta.
  match goal with |- context [step _ AnimationFrame _ = ?p0] => set (p := p0) end.
  destruct (pause_restores_the_iframe Examples.modern 0 5000%Z p
              {| target := 0; lastEnter := 0 |}
              (buildIframe "123456") eq_refl eq_refl) as (H1 & _ & _ & _ & H5 & H6 & _).
  split; [exact H1|]. split; [exact (H5 eq_refl)|exact (H6 5100%Z)].
Defined.

(** X16.  A card without a poster image never shows its video.
    [hydrateTikTok] records the card, then fails at the assignment to the
    image it did not find; the card is left untouched, and because it is
    recorded as hydrated no click and no observer callback changes it
    afterwards. *)
Theorem card_without_poster_image_never_hydrates env c p C :
  c ∉ hydratedTikToks p ->
  cards p !! c = Some C ->
  query "ttk__poster-img" (children C) = None ->
  let p' := Js.state_of (hydrateTikTok env c p) in
  hydrateTikTok env c p = Thrown "TypeError: posterImg is null" p'
  /\ cards p' = cards p
  /\ frames p' = frames p
  /\ forall evs,
       cards (run env evs p') !! c = Some C
       /\ frames_of c (run env evs p') = frames_of c p.
Proof.
  intros Hin HC Hq.
  assert (hydrateTikTok env c p
          = Thrown "TypeError: posterImg is null"
              (with_hydratedTikToks ({[c]} ∪ hydratedTikToks p) p)) as Hh.
  { unfold hydrateTikTok. rewrite (bool_decide_eq_false_2 _ Hin). cbv zeta.
    cbn [cards with_hydratedTikToks]. rewrite HC, Hq.
    rewrite bool_decide_eq_false_2 by (intros [? [=]]). reflexivity. }
  rewrite Hh. cbv zeta. cbn [Js.state_of].
  split; [reflexivity|]. split; [reflexivity|]. split; [reflexivity|].
  intros evs.
  destruct (run_keeps env c evs (with_hydratedTikToks ({[c]} ∪ hydratedTikToks p) p)
              ltac:(simpl; set_solver)) as [_ Hk].
  cbn [cards with_hydratedTikToks] in Hk. rewrite HC in Hk.
  split; [exact Hk|]. unfold frames_of. rewrite Hk, HC. reflexivity.
Qed.

Lemma card_without_poster_image_never_hydrates_witness :
  let C := {| dataset := {| tiktokUrl := Some "https://www.tiktok.com/@a/video/123456";
                            data_title := None; poster := None |};
              children := [elem "button" ["ttk__poster"] [] [];
                           elem "div" ["ttk__frame"] [] []];
              press_card := None; tiktokEmbed := None |} in
  let p := with_cards [C] (Examples.cards_page "") in
  let p' := run Examples.modern [Click 0; Intersect [(0, true)]]
              (Js.state_of (hydrateTikTok Examples.modern 0 p)) in
  cards p' !! 0 = Some C /\ frames_of 0 p' = [].
Proof.
  cbv zeta.
  match goal with |- context [hydrateTikTok _ 0 ?p0] => set (p := p0) end.
  destruct (card_without_poster_image_never_hydrates Examples.modern 0 p _
              ltac:(set_solver) eq_refl eq_refl) as (_ & _ & _ & H).
  destruct (H [Click 0; Intersect [(0, true)]]) as [H1 H2].
  split; [exact H1|exact H2].
Defined.

End CardsMore.

(** * [DependencyManager.waitForDependencies] *)

Module DependencyFacts.
Import Dependency.

Lemma run_app evs1 evs2 s : run (evs1 ++ evs2) s = run evs2 (run evs1 s).
Proof. apply foldl_app. Qed.

Lemma run_waiting evs :
  forallb (fun ev => negb (complete ev) && negb (is_Timeout ev)) evs = true ->
  run evs waitForDependencies = waitForDependencies.
Proof.
  induction evs as [|ev evs IH]; simpl; [reflexivity|].
  intros H. apply andb_true_iff in H as [Hev H].
  destruct ev as [w|]; simpl in *; [|discriminate].
  rewrite andb_true_r in Hev. apply negb_true_iff in Hev. rewrite Hev. apply IH, H.
Qed.

Lemma run_resolved evs :
  run evs {| promise := Resolved; checkInterval := false; timeout := false |}
  = {| promise := Resolved; checkInterval := false; timeout := false |}.
Proof. induction evs as [|[w|] evs IH]; simpl; [reflexivity|exact IH..]. Qed.

Lemma run_rejected reason evs :
  run evs {| promise := Rejected reason; checkInterval := true; timeout := false |}
  = {| promise := Rejected reason;
       checkInterval := negb (existsb complete evs); timeout := false |}.
Proof.
  assert (forall b, run evs {| promise := Rejected reason; checkInterval := b;
                               timeout := false |}
                    = {| promise := Rejected reason;
                         checkInterval := b && negb (existsb complete evs);
                         timeout := false |}) as H; [|apply H].
  induction evs as [|[w|] evs IH]; intros b; simpl.
  - rewrite andb_true_r. reflexivity.
  - destruct b; simpl; [|rewrite IH; reflexivity].
    destruct (allLoaded w); simpl; rewrite IH; reflexivity.
  - rewrite IH. reflexivity.
Qed.

(** X17.  The promise of [waitForDependencies()] resolves at the first poll
    that finds all four libraries, provided the 10 s timer has not fired
    before; that poll clears the interval and the timer, so nothing that
    happens later changes the outcome: the promise is never rejected after
    it resolved.  Until then it stays pending with both timers armed. *)
Theorem dependencies_resolve_at_first_complete_poll before window later :
  forallb (fun ev => negb (complete ev) && negb (is_Timeout ev)) before = true ->
  allLoaded window = true ->
  run before waitForDependencies = waitForDependencies
  /\ run (before ++ Tick window :: later) waitForDependencies
     = {| promise := Resolved; checkInterval := false; timeout := false |}.
Proof.
  intros Hb Hw. split; [apply run_waiting, Hb|].
  rewrite run_app, (run_waiting _ Hb). simpl. rewrite Hw. simpl. apply run_resolved.
Qed.

Lemma dependencies_resolve_at_first_complete_poll_witness :
  run [Tick ["gsap"]; Tick ["Plotly"; "gsap"; "THREE"];
       Tick ["Tone"; "THREE"; "gsap"; "Plotly"; "jQuery"]; Timeout; Tick []]
      waitForDependencies
  = {| promise := Resolved; checkInterval := false; timeout := false |}.
Proof.
  exact (proj2 (dependencies_resolve_at_first_complete_poll
                  [Tick ["gsap"]; Tick ["Plotly"; "gsap"; "THREE"]]
                  ["Tone"; "THREE"; "gsap"; "Plotly"; "jQuery"] [Timeout; Tick []]
                  eq_refl eq_refl)).
Defined.

(** X18.  When the timer fires before any poll found all libraries, the
    promise is rejected with "Libraries failed to load within 10s" and stays
    rejected.  The timer callback does not clear the interval: the page keeps
    polling every 100 ms, and stops only at a poll that finds all libraries,
    which no longer changes the rejection. *)
Theorem timeout_rejects_and_keeps_polling before later :
  forallb (fun ev => negb (complete ev) && negb (is_Timeout ev)) before = true ->
  run (before ++ Timeout :: later) waitForDependencies
  = {| promise := Rejected "Libraries failed to load within 10s";
       checkInterval := negb (existsb complete later);
       timeout := false |}.
Proof.
  intros Hb. rewrite run_app, (run_waiting _ Hb). simpl. apply run_rejected.
Qed.

Lemma timeout_rejects_and_keeps_polling_witness :
  checkInterval (run [Tick ["gsap"]; Timeout; Tick ["gsap"]; Tick []] waitForDependencies)
  = true
  /\ run [Tick ["gsap"]; Timeout; Tick ["Plotly"; "gsap"; "THREE"; "Tone"]]
       waitForDependencies
     = {| promise := Rejected "Libraries failed to load within 10s";
          checkInterval := false; timeout := false |}.
Proof.
  split.
  - exact (f_equal checkInterval
             (timeout_rejects_and_keeps_polling [Tick ["gsap"]] [Tick ["gsap"]; Tick []]
                eq_refl)).
  - exact (timeout_rejects_and_keeps_polling [Tick ["gsap"]]
             [Tick ["Plotly"; "gsap"; "THREE"; "Tone"]] eq_refl).
Defined.

End DependencyFacts.

(** * The theme: [ThemeManager] of part_000 and the radios of src/app.js *)

Module ThemeFacts.
Import Theme.

Lemma createToggle_data_theme s :
  data_theme (snd (Js.state_of (createToggle s))) = data_theme (snd s).
Proof.
  destruct s as [t w]. unfold createToggle.
  destruct (header_controls w) as [kids|]; [|reflexivity].
  destruct (has_music_toggle kids); [reflexivity|].
  destruct (music_toggle_elsewhere w); reflexivity.
Qed.

(** X19.  The theme survives a reload.  [toggle()] switches to "dark" from
    "light" and to "light" from anything else, and writes the new theme to
    the root element and to [localStorage]; a [ThemeManager] created
    afterwards starts with that theme, and its [init()] applies it to the
    root element again, whether or not the button can be created. *)
Theorem theme_survives_reload t w :
  let t' := fst (toggle (t, w)) in
  let w' := snd (toggle (t, w)) in
  (currentTheme t' = "dark" \/ currentTheme t' = "light")
  /\ (currentTheme t' = "dark" <-> currentTheme t = "light")
  /\ data_theme w' = Some (currentTheme t')
  /\ localStorage w' !! "theme" = Some (currentTheme t')
  /\ currentTheme (construct w') = currentTheme t'
  /\ data_theme (snd (Js.state_of (load w'))) = Some (currentTheme t').
Proof.
  intros t' w'.
  set (theme := if String.eqb (currentTheme t) "light" then "dark" else "light").
  assert (currentTheme t' = theme) as ->
    by (unfold t', toggle, updateToggleButton; simpl; destruct (toggleButton t); reflexivity).
  assert (data_theme w' = Some theme) as Hd by reflexivity.
  assert (localStorage w' !! "theme" = Some theme) as Hs
    by (unfold w', toggle; simpl; apply lookup_insert_eq).
  assert (currentTheme (construct w') = theme) as Hc.
  { unfold construct. cbn [currentTheme]. rewrite Hs. unfold theme.
    destruct (String.eqb (currentTheme t) "light"); reflexivity. }
  split; [unfold theme; destruct (String.eqb _ _); auto|].
  split.
  { unfold theme. destruct (String.eqb (currentTheme t) "light") eqn:E.
    - apply String.eqb_eq in E. tauto.
    - apply String.eqb_neq in E. split; [discriminate|contradiction]. }
  split; [exact Hd|]. split; [exact Hs|]. split; [exact Hc|].
  unfold load, init. rewrite createToggle_data_theme. simpl. f_equal. exact Hc.
Qed.

(** the theme after [n >= 1] clicks, from the theme [t0] at load time *)
Lemma iter_click_spec kids t0 n ls dt me :
  let s0 := ({| currentTheme := t0; toggleButton := Some (label t0) |},
             {| localStorage := ls; data_theme := dt; header_controls := kids;
                music_toggle_elsewhere := me |}) in
  let theme := if xorb (String.eqb t0 "light") (Nat.even (S n)) then "dark" else "light" in
  Nat.iter (S n) click s0
  = ({| currentTheme := theme; toggleButton := Some (label theme) |},
     {| localStorage := <["theme" := theme]> ls; data_theme := Some theme;
        header_controls := kids; music_toggle_elsewhere := me |}).
Proof.
  cbv zeta. induction n as [|n IH].
  - simpl. unfold click, toggle. simpl.
    destruct (String.eqb t0 "light"); reflexivity.
  - rewrite Nat.iter_succ, IH. clear IH.
    change (Nat.even (S (S n))) with (Nat.even n).
    rewrite Nat.even_succ, <- Nat.negb_even.
    unfold click, toggle. simpl. rewrite insert_insert_eq.
    destruct (String.eqb t0 "light"), (Nat.even n); reflexivity.
Qed.

(** X20.  Clicks on the theme button alternate.  When the button can be
    placed (the header controls exist, and [#music-toggle] is one of them or
    does not exist), loading the page applies the stored theme, or "light"
    when none is stored, writes nothing to [localStorage], and labels the
    button with the other choice.  After [n >= 1] clicks the theme is
    "dark" or "light" according to the parity of [n] and to whether the page
    started in "light"; the root element, [localStorage] and the button
    label agree with it, and the header controls are not touched again. *)
Theorem theme_clicks_alternate w kids n :
  header_controls w = Some kids ->
  has_music_toggle kids = true \/ music_toggle_elsewhere w = false ->
  let t0 := Js.or_else (localStorage w !! "theme") "light" in
  exists s0,
    load w = Done s0
    /\ currentTheme (fst s0) = t0
    /\ data_theme (snd s0) = Some t0
    /\ localStorage (snd s0) = localStorage w
    /\ toggleButton (fst s0) = Some (label t0)
    /\ ThemeToggle ∈ default [] (header_controls (snd s0))
    /\ let theme := if xorb (String.eqb t0 "light") (Nat.even (S n))
                    then "dark" else "light" in
       let s := Nat.iter (S n) click s0 in
       currentTheme (fst s) = theme
       /\ data_theme (snd s) = Some theme
       /\ localStorage (snd s) = <["theme" := theme]> (localStorage w)
       /\ toggleButton (fst s) = Some (label theme)
       /\ header_controls (snd s) = header_controls (snd s0).
Proof.
  intros Hh Hm t0.
  assert (exists kids',
            load w = Done ({| currentTheme := t0; toggleButton := Some (label t0) |},
                           {| localStorage := localStorage w; data_theme := Some t0;
                              header_controls := Some kids';
                              music_toggle_elsewhere := music_toggle_elsewhere w |})
            /\ ThemeToggle ∈ kids') as (kids' & Hload & Hin).
  { unfold load, init, createToggle, construct. fold t0. simpl. rewrite Hh.
    destruct (has_music_toggle kids) eqn:Hk.
    - eexists. split; [reflexivity|].
      clear Hh Hm. induction kids as [|k kids IH]; [discriminate|].
      destruct k; simpl in *; [set_solver|set_solver..].
    - destruct Hm as [Hm|Hm]; [discriminate|]. rewrite Hm.
      eexists. split; [reflexivity|]. set_solver. }
  eexists. split; [exact Hload|].
  cbn [fst snd currentTheme data_theme localStorage toggleButton header_controls default].
  split; [reflexivity|]. split; [reflexivity|]. split; [reflexivity|].
  split; [reflexivity|]. split; [exact Hin|].
  cbv zeta. rewrite (iter_click_spec (Some kids') t0 n). simpl. repeat split.
Qed.

Lemma theme_clicks_alternate_witness :
  let w := {| localStorage := {["theme" := "sepia"]}; data_theme := None;
              header_controls := Some [Other "volume-control"; MusicToggle];
              music_toggle_elsewhere := false |} in
  exists s0, load w = Done s0
    /\ data_theme (snd s0) = Some "sepia"
    /\ header_controls (snd s0) = Some [Other "volume-control"; ThemeToggle; MusicToggle]
    /\ currentTheme (fst (Nat.iter 1 click s0)) = "light"
    /\ currentTheme (fst (Nat.iter 2 click s0)) = "dark".
Proof.
  cbv zeta.
  set (w := {| localStorage := {["theme" := "sepia"]}; data_theme := None;
               header_controls := Some [Other "volume-control"; MusicToggle];
               music_toggle_elsewhere := false |}).
  destruct (theme_clicks_alternate w [Other "volume-control"; MusicToggle] 0
              eq_refl (or_introl eq_refl)) as (s0 & Hl & _ & H2 & _ & _ & _ & H6 & _).
  destruct (theme_clicks_alternate w [Other "volume-control"; MusicToggle] 1
              eq_refl (or_introl eq_refl)) as (s1 & Hl1 & _ & _ & _ & _ & _ & H7 & _).
  rewrite Hl in Hl1. injection Hl1 as <-.
  exists s0. split; [exact Hl|]. split; [exact H2|].
  split; [|split; [exact H6|exact H7]].
  unfold load, init, w in Hl. simpl in Hl. injection Hl as <-. reflexivity.
Defined.

(** X21.  Where the theme button cannot be placed.  Without
    [.header-controls] the stored theme is applied and no button exists, so
    the theme can never change.  When [#music-toggle] exists but is not a
    child of [.header-controls], [insertBefore] throws: the theme is already
    applied, the header is untouched, and the manager has no button and no
    click listener. *)
Theorem theme_button_needs_its_place w :
  let t0 := Js.or_else (localStorage w !! "theme") "light" in
  let blank := {| currentTheme := t0; toggleButton := None |} in
  (header_controls w = None ->
     load w = Done (blank, applyTheme t0 w)
     /\ forall n, Nat.iter n click (blank, applyTheme t0 w) = (blank, applyTheme t0 w))
  /\ (forall kids, header_controls w = Some kids ->
        has_music_toggle kids = false -> music_toggle_elsewhere w = true ->
        exists err, load w = Thrown err (blank, applyTheme t0 w)).
Proof.
  cbv zeta. split.
  - intros Hh. split.
    + unfold load, init, createToggle, construct. simpl. rewrite Hh. reflexivity.
    + induction n as [|n IH]; [reflexivity|]. rewrite Nat.iter_succ, IH. reflexivity.
  - intros kids Hh Hk Hm. eexists.
    unfold load, init, createToggle, construct. simpl. rewrite Hh, Hk, Hm. reflexivity.
Qed.

Lemma theme_button_needs_its_place_witness :
  let w := {| localStorage := ∅; data_theme := None;
              header_controls := Some [Other "volume-control"];
              music_toggle_elsewhere := true |} in
  exists err, load w = Thrown err ({| currentTheme := "light"; toggleButton := None |},
                                   applyTheme "light" w).
Proof.
  cbv zeta.
  exact (proj2 (theme_button_needs_its_place
                  {| localStorage := ∅; data_theme := None;
                     header_controls := Some [Other "volume-control"];
                     music_toggle_elsewhere := true |})
               [Other "volume-control"] eq_refl eq_refl eq_refl).
Defined.

End ThemeFacts.

Module ThemeRadiosFacts.
Import ThemeRadios.



End ThemeRadiosFacts.

(** * [throttle] and the debounced [resize] listener *)

Module ThrottleFacts.
Import Throttle.

Section Facts.
Context {S A : Type}.
Variable func : A -> S -> Js.outcome S.

Lemma armed_step ev t : armed t -> armed (step func ev t).
Proof.
  intros [[Hi Ht]|[Hi Ht]]; destruct ev as [a|]; simpl; unfold call, fire;
    rewrite ?Hi, ?Ht; simpl.
  - destruct (func a (inner t)); simpl; [right|left]; auto.
  - left. auto.
  - right. auto.
  - left. auto.
Qed.

Lemma armed_run evs : forall t, armed t -> armed (run func evs t).
Proof.
  induction evs as [|ev evs IH]; intros t Ht; simpl; [exact Ht|].
  apply IH, armed_step, Ht.
Qed.

Lemma dropped args : forall t,
  inThrottle t = true -> run func (map Call args) t = t.
Proof.
  induction args as [|a args IH]; intros t Ht; simpl; [reflexivity|].
  unfold call. rewrite Ht. simpl. apply IH, Ht.
Qed.

End Facts.

(** counting the runs of [func] changes nothing of what [throttle] does *)
Lemma tallied_run {S A : Type} (func : A -> S -> Js.outcome S) (evs : list (Event A)) :
  forall (t : State (Tally S)),
    run func evs {| inThrottle := inThrottle t; timers := timers t;
                    inner := under (inner t) |}
    = {| inThrottle := inThrottle (run (tallied func) evs t);
         timers := timers (run (tallied func) evs t);
         inner := under (inner (run (tallied func) evs t)) |}.
Proof.
  induction evs as [|ev evs IH]; intros t; simpl; [reflexivity|].
  rewrite <- IH. f_equal.
  destruct ev as [a|]; simpl.
  - unfold call, tallied. simpl. destruct (inThrottle t) eqn:Hi; simpl;
      [rewrite ?Hi; reflexivity|].
    destruct (func a (under (inner t))); simpl; rewrite ?Hi; reflexivity.
  - unfold fire. simpl. destruct (timers t) eqn:Ht; simpl; rewrite ?Ht; reflexivity.
Qed.

Lemma rate {S A : Type} (func : A -> S -> Js.outcome S) (evs : list (Event A)) :
  forall (t : State (Tally S)) n,
  armed t ->
  returned (inner t) + (if inThrottle t then 0 else 1) <= Datatypes.S n ->
  returned (inner (run (tallied func) evs t)) <= Datatypes.S (n + fires evs).
Proof.
  induction evs as [|ev evs IH]; intros t n Ha Hn; simpl.
  { destruct (inThrottle t); lia. }
  destruct ev as [a|]; simpl.
  - unfold call. destruct Ha as [[Hi Ht]|[Hi Ht]]; rewrite Hi in *; simpl.
    + unfold tallied. destruct (func a (under (inner t))) as [s'|err s']; simpl.
      * apply IH; [right; simpl; auto|]. simpl. lia.
      * apply IH; [left; simpl; auto|]. simpl. exact Hn.
    + apply IH; [right; auto|]. rewrite Hi. exact Hn.
  - unfold fire. destruct Ha as [[Hi Ht]|[Hi Ht]]; rewrite Ht, ?Hi in *.
    + specialize (IH t (Datatypes.S n) ltac:(left; auto) ltac:(rewrite Hi; lia)). lia.
    + specialize (IH {| inThrottle := false; timers := 0; inner := inner t |}
                     (Datatypes.S n) ltac:(left; auto) ltac:(simpl; lia)).
      simpl in IH. lia.
Qed.

(** a [func] that throws at every call is run at every call *)
Lemma unthrottled {S A : Type} (func : A -> S -> Js.outcome S) (evs : list (Event A)) :
  (forall a s, exists err s', func a s = Thrown err s') ->
  forall (t : State (Tally S)),
    inThrottle t = false ->
    thrown (inner (run (tallied func) evs t)) = thrown (inner t) + calls_in evs
    /\ inThrottle (run (tallied func) evs t) = false.
Proof.
  intros Hf. induction evs as [|ev evs IH]; intros t Ht.
  { simpl. split; [lia|exact Ht]. }
  change (run (tallied func) (ev :: evs) t)
    with (run (tallied func) evs (step (tallied func) ev t)).
  destruct ev as [a|].
  - destruct (Hf a (under (inner t))) as (err & s' & Hfa).
    assert (step (tallied func) (Call a) t
            = {| inThrottle := false; timers := timers t;
                 inner := {| under := s'; returned := returned (inner t);
                             thrown := Datatypes.S (thrown (inner t)) |} |}) as ->
      by (simpl; unfold call, tallied; rewrite Ht, Hfa; reflexivity).
    match goal with |- context [run (tallied func) evs ?q] =>
      destruct (IH q eq_refl) as [H1 H2]
    end.
    rewrite H1, H2. simpl. split; [lia|reflexivity].
  - change (step (tallied func) Fire t) with (fire t).
    assert (inThrottle (fire t) = false) as Hfire
      by (unfold fire; destruct (timers t); [exact Ht|reflexivity]).
    destruct (IH (fire t) Hfire) as [H1 H2]. rewrite H1, H2.
    split; [|reflexivity].
    simpl. unfold fire. destruct (timers t); reflexivity.
Qed.

(** X23.  What [throttle] lets through.  The function it returns runs
    [func] on the first call and, when [func] returns, arms one timer;
    while the timer is pending every call is dropped without running
    [func]; at most one timer is ever pending, and [inThrottle] is set
    exactly while it is.  When [func] throws, nothing is armed and the next
    call runs [func] again.  So, counted over any sequence of calls and
    timer expiries and for any [func], the runs of [func] that return are
    at most one more than the timers that have fired, while a [func] that
    always throws is run at every call. *)
Theorem throttle_runs_func_once_per_period :
  (forall (S A : Type) (func : A -> S -> Js.outcome S) evs s,
     let t := run func evs (throttle s) in
     timers t <= 1 /\ (inThrottle t = true <-> timers t = 1))
  /\ (forall (S A : Type) (func : A -> S -> Js.outcome S) a s s',
        func a s = Done s' ->
        step func (Call a) (throttle s)
        = {| inThrottle := true; timers := 1; inner := s' |})
  /\ (forall (S A : Type) (func : A -> S -> Js.outcome S) a s err s',
        func a s = Thrown err s' ->
        step func (Call a) (throttle s) = throttle s')
  /\ (forall (S A : Type) (func : A -> S -> Js.outcome S) t args,
        inThrottle t = true -> run func (map Call args) t = t)
  /\ (forall (S A : Type) (func : A -> S -> Js.outcome S) evs s,
        let t := run (tallied func) evs (throttle (tally s)) in
        returned (inner t) <= Datatypes.S (fires evs)
        /\ under (inner t) = inner (run func evs (throttle s)))
  /\ (forall (S A : Type) (func : A -> S -> Js.outcome S) evs s,
        (forall a s0, exists err s', func a s0 = Thrown err s') ->
        let t := run (tallied func) evs (throttle (tally s)) in
        thrown (inner t) = calls_in evs /\ returned (inner t) = 0).
Proof.
  split; [|split; [|split; [|split; [|split]]]].
  - intros S A func evs s t.
    assert (armed t) as [[Hi Ht]|[Hi Ht]]
      by (apply armed_run; left; split; reflexivity);
      rewrite Hi, Ht; split; try lia; split; intros; congruence || lia.
  - intros S A func a s s' H. simpl. unfold call. simpl. rewrite H. reflexivity.
  - intros S A func a s err s' H. simpl. unfold call. simpl. rewrite H. reflexivity.
  - intros S A func t args. apply dropped.
  - intros S A func evs s t. split.
    + apply (rate func evs (throttle (tally s)) 0); [left; split; reflexivity|simpl; lia].
    + pose proof (tallied_run func evs (throttle (tally s))) as H. simpl in H.
      change (run func evs (throttle s)
              = {| inThrottle := inThrottle t; timers := timers t;
                   inner := under (inner t) |}) in H.
      rewrite H. reflexivity.
  - intros S A func evs s Hf t.
    destruct (unthrottled func evs Hf (throttle (tally s)) eq_refl) as [H1 _].
    split; [exact H1|].
    assert (forall (q : State (Tally S)),
              returned (inner (run (tallied func) evs q)) = returned (inner q)) as Hr.
    { clear t H1. induction evs as [|ev evs IH]; intros q; simpl; [reflexivity|].
      rewrite IH. destruct ev as [a|]; simpl.
      - unfold call, tallied. destruct (inThrottle q); [reflexivity|].
        destruct (Hf a (under (inner q))) as (err & s' & ->). reflexivity.
      - unfold fire. destruct (timers q); reflexivity. }
    apply Hr.
Qed.

Lemma throttle_runs_func_once_per_period_witness :
  inner (run record_call
           [Call 1; Call 2; Call 3; Fire; Call 4; Call 5] (throttle [])) = [1; 4]
  /\ run record_call (map Call [2; 3])
       {| inThrottle := true; timers := 1; inner := [1] |}
     = {| inThrottle := true; timers := 1; inner := [1] |}
  /\ thrown (inner (run (tallied (fun (a : nat) (s : list nat) => Thrown "failed" s))
                      [Call 1; Call 2; Call 3] (throttle (tally [])))) = 3.
Proof.
  destruct throttle_runs_func_once_per_period as (_ & _ & _ & H & _ & H6).
  split; [reflexivity|]. split.
  - exact (H (list nat) nat record_call
             {| inThrottle := true; timers := 1; inner := [1] |} [2; 3] eq_refl).
  - exact (proj1 (H6 (list nat) nat (fun a s => Thrown "failed" s)
                    [Call 1; Call 2; Call 3] [] ltac:(intros a s0; eauto))).
Defined.

End ThrottleFacts.

Module DebounceFacts.
Import Debounce.

Lemma settled_step ev s : settled s -> settled (step ev s).
Proof.
  intros H. destruct ev; simpl.
  - right. exists (next_id s). split; [|reflexivity]. simpl.
    destruct H as [->|(id & -> & ->)].
    + destruct (resizeTimer s); reflexivity.
    + simpl. rewrite filter_cons, decide_False by (intros Hne; apply Hne; reflexivity).
      reflexivity.
  - destruct H as [H|(id & H & Hr)]; rewrite H; left; [exact H|reflexivity].
Qed.

Lemma settled_run evs : forall s, settled s -> settled (run evs s).
Proof.
  induction evs as [|ev evs IH]; intros s Hs; simpl; [exact Hs|].
  apply IH, settled_step, Hs.
Qed.

Lemma burst n : forall s,
  settled s ->
  let s' := run (replicate (S n) Resize) s in
  pending s' = [next_id s + n] /\ resizeTimer s' = Some (next_id s + n)
  /\ resized s' = resized s /\ intimacy s' = intimacy s /\ anxiety s' = anxiety s.
Proof.
  induction n as [|n IH]; intros s Hs.
  - simpl. rewrite Nat.add_0_r.
    destruct Hs as [->|(id & -> & ->)]; simpl.
    + destruct (resizeTimer s); repeat split.
    + rewrite filter_cons, decide_False by (intros Hne; apply Hne; reflexivity).
      repeat split.
  - change (run (replicate (S (S n)) Resize) s)
      with (run (replicate (S n) Resize) (on_resize s)).
    destruct (IH (on_resize s) (settled_step Resize s Hs)) as (H1 & H2 & H3 & H4 & H5).
    cbv zeta. rewrite H1, H2, H3, H4, H5. simpl.
    replace (S (next_id s + n)) with (next_id s + S n) by lia. repeat split.
Qed.

(** X24.  The [resize] listener of part_000 is a debounce.  Every
    [resize] cancels the timer started by the one before and starts a new
    one, so at most one timer is pending at any time; a burst of [resize]
    events resizes nothing until 250 ms after its last event, when each
    existing chart is resized exactly once; a chart that was never created
    is skipped. *)
Theorem resize_burst_resizes_once first i a n :
  let s0 := handleResize first i a in
  (forall evs, length (pending (run evs s0)) <= 1)
  /\ let s := run (replicate (S n) Resize) s0 in
     pending s = [first + n]
     /\ resized s = []
     /\ resized (step Expire s)
        = ((if i then ["intimacy-chart"] else []) ++ (if a then ["anxiety-chart"] else []))%list
     /\ pending (step Expire s) = []
     /\ step Expire (step Expire s) = step Expire s.
Proof.
  cbv zeta. split.
  - intros evs.
    destruct (settled_run evs (handleResize first i a) (or_introl eq_refl))
      as [->|(id & -> & _)]; simpl; lia.
  - pose proof (burst n (handleResize first i a) (or_introl eq_refl)) as H.
    cbv zeta in H.
    set (s := run (replicate (S n) Resize) (handleResize first i a)) in *.
    destruct H as (H1 & H2 & H3 & H4 & H5).
    change (pending s = [first + n]) in H1. change (resized s = []) in H3.
    change (intimacy s = i) in H4. change (anxiety s = a) in H5.
    split; [exact H1|]. split; [exact H3|].
    unfold step. rewrite H1. unfold callback. simpl. rewrite H3, H4, H5.
    repeat split.
Qed.

End DebounceFacts.

(** * The anxiety chart and its toggle buttons *)

Module ChartsFacts.
Import Charts.

Lemma keys_NoDup : NoDup (key <$> anxietyMetrics).
Proof. compute_done. Qed.

Lemma key_inj k k' m m' :
  anxietyMetrics !! k = Some m -> anxietyMetrics !! k' = Some m' ->
  key m = key m' -> k = k'.
Proof.
  intros H H' E. apply (NoDup_lookup _ k k' (key m) keys_NoDup);
    rewrite list_lookup_fmap; [rewrite H|rewrite H', E]; reflexivity.
Qed.

Lemma aria_pressed_button_of env m a :
  String.eqb (aria_pressed (button_of env m a)) "true" = a.
Proof. destruct a; reflexivity. Qed.

Lemma coherent_init env w i :
  has_toggles env = true -> newPlot_throws env = false ->
  exists s0, initAnxietyChart env w (fresh i) = Done s0
    /\ coherent env w s0
    /\ (forall m, m ∈ anxietyMetrics -> activeMetrics s0 !! key m = Some true)
    /\ intimacy_chart s0 = i /\ errors s0 = [].
Proof.
  intros Ht Hp. unfold initAnxietyChart, updateAnxietyChart. rewrite Ht, Hp.
  eexists. split; [reflexivity|]. simpl.
  assert (forall k m, anxietyMetrics !! k = Some m ->
            (foldl (fun a m => <[key m := true]> a) (∅ : gmap string bool) anxietyMetrics)
              !! key m = Some true) as Hall.
  { intros k m Hk. do 6 (destruct k as [|k]; [injection Hk as <-; reflexivity|]).
    discriminate. }
  split; [|split; [|split; reflexivity]].
  - unfold coherent. simpl. split; [reflexivity|]. split; [|split; reflexivity].
    intros k m Hk. exists true. split; [exact (Hall k m Hk)|].
    do 6 (destruct k as [|k]; [injection Hk as <-; reflexivity|]). discriminate.
  - intros m Hm. apply list_elem_of_lookup in Hm as [k Hk]. exact (Hall k m Hk).
Qed.

Lemma click_coherent env w w' k s m :
  newPlot_throws env = false ->
  coherent env w s -> anxietyMetrics !! k = Some m ->
  exists a : bool,
    activeMetrics s !! key m = Some a
    /\ click env w' k s
       = {| activeMetrics := <[key m := negb a]> (activeMetrics s);
            buttons := <[k := button_of env m (negb a)]> (buttons s);
            anxiety_chart :=
              Some {| traces := name <$> filter (fun m' => is_active
                                                  (<[key m := negb a]> (activeMetrics s)) m')
                                           anxietyMetrics;
                      height := layout_height w' |};
            charts_anxiety := true;
            intimacy_chart := intimacy_chart s; charts_intimacy := charts_intimacy s;
            errors := errors s |}.
Proof.
  intros Hp (Hlen & Hb & Hc & Hca) Hk.
  destruct (Hb k m Hk) as (a & Ha & Hbk). exists a. split; [exact Ha|].
  unfold click, updateAnxietyChart. rewrite Hbk, Hk, Hp, aria_pressed_button_of.
  destruct a; reflexivity.
Qed.

Lemma coherent_step env w ev s :
  newPlot_throws env = false ->
  coherent env w s -> coherent env (last_width w [ev]) (step env ev s).
Proof.
  intros Hp Hs. destruct ev as [k w'|w']; unfold last_width; cbn [foldl step].
  - destruct (anxietyMetrics !! k) as [m|] eqn:Hk.
    + rewrite (proj2 (Nat.ltb_lt _ _) (lookup_lt_Some _ _ _ Hk)).
      destruct (click_coherent env w w' k s m Hp Hs Hk) as (a & Ha & ->).
      destruct Hs as (Hlen & Hb & Hc & Hca).
      unfold coherent. simpl. rewrite length_insert.
      split; [exact Hlen|]. split; [|split; reflexivity].
      intros k' m' Hk'. destruct (decide (k' = k)) as [->|Hne].
      * assert (m' = m) as -> by congruence. exists (negb a).
        rewrite lookup_insert_eq.
        rewrite list_lookup_insert_eq by (rewrite Hlen; eapply lookup_lt_Some; exact Hk).
        split; reflexivity.
      * destruct (Hb k' m' Hk') as (a' & Ha' & Hb').
        exists a'. rewrite lookup_insert_ne, list_lookup_insert_ne by
          (try congruence; intros E; apply Hne; symmetry;
           exact (key_inj _ _ _ _ Hk Hk' E)).
        split; assumption.
    + rewrite (proj2 (Nat.ltb_ge _ _)) by (apply lookup_ge_None; exact Hk).
      unfold click. rewrite Hk. destruct (buttons s !! k); exact Hs.
  - destruct Hs as (Hlen & Hb & Hc & Hca). unfold coherent, on_resize. simpl.
    rewrite Hca, Hc. simpl. repeat split; assumption.
Qed.

Lemma last_width_app w evs ev : last_width w (evs ++ [ev]) = last_width (last_width w evs) [ev].
Proof. unfold last_width. rewrite foldl_app. reflexivity. Qed.

(** X25.  The toggle buttons and the anxiety chart stay in step.  After
    [initAnxietyChart()] all six metrics are active and pressed.  After any
    clicks on the buttons and any [resize] events, button [k] is pressed
    ([aria-pressed], class and colours) exactly when metric [k] is active,
    the chart shows the active metrics in the order of [anxietyMetrics], and
    its height is the one for the window width at the last event, 500, 700
    or 850: the height [handleResize] sets agrees with the one
    [updateAnxietyChart] uses. *)
Theorem toggles_and_chart_stay_in_step env w0 i evs :
  has_toggles env = true -> newPlot_throws env = false ->
  exists s0,
    initAnxietyChart env w0 (fresh i) = Done s0
    /\ (forall m, m ∈ anxietyMetrics -> activeMetrics s0 !! key m = Some true)
    /\ (traces <$> anxiety_chart s0) = Some (name <$> anxietyMetrics)
    /\ coherent env (last_width w0 evs) (run env evs s0)
    /\ errors (run env evs s0) = [].
Proof.
  intros Ht Hp. destruct (coherent_init env w0 i Ht Hp) as (s0 & Hi & Hc & Hall & _ & He).
  exists s0. split; [exact Hi|]. split; [exact Hall|].
  split.
  { unfold initAnxietyChart, updateAnxietyChart in Hi. rewrite Ht, Hp in Hi.
    injection Hi as <-. reflexivity. }
  induction evs as [|ev evs IH] using rev_ind; [split; assumption|].
  unfold run in *. rewrite foldl_app, last_width_app. simpl.
  destruct IH as [IH1 IH2]. split; [apply coherent_step; assumption|].
  destruct ev as [k w|w]; simpl; [|exact IH2].
  destruct (anxietyMetrics !! k) as [m|] eqn:Hk.
  - destruct (click_coherent env _ w k _ m Hp IH1 Hk) as (a & _ & ->). exact IH2.
  - unfold click. rewrite Hk. destruct (buttons _ !! k); exact IH2.
Qed.

Lemma toggles_and_chart_stay_in_step_witness :
  let env := {| color_of := fun k => "var(--c-" ++ k ++ ")"; has_toggles := true;
                newPlot_throws := false |} in
  let s := run env [Click 1 1024; Resize 600; Click 4 600; Click 1 400]
             (Js.state_of (initAnxietyChart env 1024 (fresh None))) in
  anxiety_chart s
  = Some {| traces := ["Tradwife Searches"; "Measles Cases"; "Unemployment";
                       "Egg Prices"; "Beef"];
            height := 500 |}
  /\ (aria_pressed <$> buttons s !! 4) = Some "false".
Proof.
  cbv zeta.
  set (env := {| color_of := fun k => "var(--c-" ++ k ++ ")"; has_toggles := true;
                 newPlot_throws := false |}).
  destruct (toggles_and_chart_stay_in_step env 1024 None
              [Click 1 1024; Resize 600; Click 4 600; Click 1 400] eq_refl eq_refl)
    as (s0 & Hi & _ & _ & (_ & _ & Hc & _) & _).
  assert (Js.state_of (initAnxietyChart env 1024 (fresh None)) = s0) as E
    by (rewrite Hi; reflexivity).
  rewrite <- E in Hc. split; [|reflexivity].
  etransitivity; [exact Hc|]. vm_compute. reflexivity.
Defined.

(** X26.  A click flips one metric, and a second click undoes it.  On a
    page where buttons, [activeMetrics] and chart agree, a click on button
    [k] negates metric [k] and leaves every other metric and button as it
    was; a second click on the same button, in a window of the same width,
    restores exactly the state before the first. *)
Theorem second_click_undoes_the_first env w k s m :
  newPlot_throws env = false ->
  coherent env w s ->
  anxietyMetrics !! k = Some m ->
  let s1 := click env w k s in
  (is_active (activeMetrics s1) m = negb (is_active (activeMetrics s) m))
  /\ (forall k' m', k' <> k -> anxietyMetrics !! k' = Some m' ->
        activeMetrics s1 !! key m' = activeMetrics s !! key m'
        /\ buttons s1 !! k' = buttons s !! k')
  /\ click env w k s1 = s.
Proof.
  intros Hp Hs Hk. cbv zeta.
  destruct (click_coherent env w w k s m Hp Hs Hk) as (a & Ha & Hs1).
  pose proof (coherent_step env w (Click k w) s Hp Hs) as Hs1c.
  unfold last_width in Hs1c. cbn [foldl step] in Hs1c.
  rewrite (proj2 (Nat.ltb_lt _ _) (lookup_lt_Some _ _ _ Hk)) in Hs1c.
  destruct (click_coherent env w w k _ m Hp Hs1c Hk) as (a1 & Ha1 & Hs2).
  rewrite Hs2. clear Hs2 Hs1c. rewrite Hs1 in *. simpl in *.
  rewrite lookup_insert_eq in Ha1. injection Ha1 as <-.
  split; [unfold is_active; rewrite lookup_insert_eq, Ha; reflexivity|].
  split.
  { intros k' m' Hne Hk'. rewrite lookup_insert_ne, list_lookup_insert_ne by
      (try congruence; intros E; apply Hne; symmetry; exact (key_inj _ _ _ _ Hk Hk' E)).
    split; reflexivity. }
  destruct Hs as (Hlen & Hb & Hc & Hca).
  destruct (Hb k m Hk) as (a' & Ha' & Hbk). assert (a' = a) as -> by congruence.
  rewrite negb_involutive, insert_insert_eq, list_insert_insert_eq.
  rewrite (insert_id _ _ _ Ha), (list_insert_id _ _ _ Hbk).
  destruct s; simpl in *. rewrite Hc, Hca. reflexivity.
Qed.

Lemma second_click_undoes_the_first_witness :
  let env := {| color_of := fun k => "var(--c-" ++ k ++ ")"; has_toggles := true;
                newPlot_throws := false |} in
  let s := Js.state_of (initAnxietyChart env 1024 (fresh None)) in
  (traces <$> anxiety_chart (click env 1024 2 s))
  = Some ["Tradwife Searches"; "Measles Cases"; "Egg Prices"; "Gold"; "Beef"]
  /\ click env 1024 2 (click env 1024 2 s) = s.
Proof.
  cbv zeta.
  set (env := {| color_of := fun k => "var(--c-" ++ k ++ ")"; has_toggles := true;
                 newPlot_throws := false |}).
  destruct (coherent_init env 1024 None eq_refl eq_refl) as (s0 & Hi & Hc & _).
  assert (Js.state_of (initAnxietyChart env 1024 (fresh None)) = s0) as E
    by (rewrite Hi; reflexivity).
  rewrite <- E in Hc.
  destruct (second_click_undoes_the_first env 1024 2 _
              {| key := "unemployment"; name := "Unemployment" |} eq_refl Hc eq_refl)
    as (_ & _ & H).
  split; [reflexivity|exact H].
Defined.

(** X27.  The x axis of the anxiety chart.  [months] holds 24 labels, one
    per quarter: label [i] is the year [2020 + i/4], a dash and the month
    01, 04, 07 or 10 according to [i mod 4], the month always written with
    two digits.  The labels run from 2020-01 to 2025-10 and no two are
    equal. *)
Theorem month_labels_are_quarters :
  (forall i, month_label i
             = pretty (2020 + i / 4) ++ "-"
               ++ nth (i mod 4) ["01"; "04"; "07"; "10"] "")
  /\ length months = 24
  /\ head months = Some "2020-01"
  /\ last months = Some "2025-10"
  /\ NoDup months.
Proof.
  split; [|split; [reflexivity|split; [reflexivity|split; [reflexivity|]]]].
  - intros i. unfold month_label. cbv zeta.
    replace (i * 3 / 12) with (i / 4)
      by (rewrite <- (Nat.Div0.div_mul_cancel_r i 4 3) by lia; reflexivity).
    replace ((i * 3) mod 12) with (i mod 4 * 3)
      by (rewrite <- Nat.Div0.mul_mod_distr_r; reflexivity).
    pose proof (Nat.mod_upper_bound i 4 ltac:(lia)) as Hlt.
    destruct (i mod 4) as [|[|[|[|r]]]]; [reflexivity..|lia].
  - compute_done.
Qed.

End ChartsFacts.

(** * The music toggle of part_000 *)

Module MusicFacts.
Import Music.

Lemma label_engine i t s :
  let s' := Js.state_of (label i t s) in
  audioStarted s' = audioStarted s /\ musicEnabled s' = musicEnabled s
  /\ loops_main s' = loops_main s /\ transport s' = transport s
  /\ Tone_start s' = Tone_start s /\ created s' = created s
  /\ disposed s' = disposed s /\ bpm s' = bpm s
  /\ aria_pressed (toggle s') = aria_pressed (toggle s).
Proof.
  unfold label. destruct (icon (toggle s)); [|repeat split].
  destruct (text (toggle s)); repeat split.
Qed.

Lemma in_tune_click n s : in_tune n s -> in_tune (S n) (Js.state_of (click s)).
Proof.
  intros (He & Hl & Ht & Ha & Hs & Hc & Hp). unfold click.
  match goal with |- context [negb (musicEnabled ?q)] => set (s1 := q) end.
  assert (musicEnabled s1 = musicEnabled s /\ loops_main s1 = loops_main s
          /\ transport s1 = transport s /\ Tone_start s1 = 1
          /\ created s1 = created s /\ disposed s1 = disposed s
          /\ audioStarted s1 = true) as (E1 & E2 & E3 & E4 & E5 & E6 & E7).
  { unfold s1. destruct (audioStarted s) eqn:Hst; simpl; repeat split; try assumption.
    - rewrite Hs. destruct n; [discriminate|lia].
    - rewrite Hs. destruct n; [reflexivity|discriminate]. }
  clearbody s1. cbv zeta. rewrite E1.
  assert (Nat.odd (S n) = negb (musicEnabled s)) as Hodd
    by (rewrite Nat.odd_succ, <- Nat.negb_odd, He; reflexivity).
  unfold in_tune. rewrite Hodd.
  destruct (musicEnabled s) eqn:Hm; simpl negb; cbv iota;
    match goal with |- context [label ?i ?t ?q] =>
      destruct (label_engine i t q) as (K1 & K2 & K3 & K4 & K5 & K6 & K7 & _ & K9)
    end; cbv zeta in *; rewrite K1, K2, K3, K4, K5, K6, K7, K9.
  - simpl. rewrite E2, E4, E5, E6, E7, Hl, Hc. simpl. repeat split; lia.
  - unfold startMusic. simpl. rewrite E2, Hl. simpl. rewrite E4, E5, E6, E7, Hc. simpl.
    repeat split; lia.
Qed.

Lemma click_labels s ic tx :
  icon (toggle s) = Some ic -> text (toggle s) = Some tx ->
  exists s', click s = Done s'
    /\ icon (toggle s') = Some (if musicEnabled s then "🔇" else "🔊")
    /\ text (toggle s') = Some (if musicEnabled s then "Music Off" else "Music On")
    /\ musicEnabled s' = negb (musicEnabled s).
Proof.
  intros Hi Ht. unfold click, label, startMusic, stopMusic.
  destruct (audioStarted s), (musicEnabled s), (loops_main s); simpl;
    rewrite Hi, Ht; eexists; repeat split.
Qed.

(** X28.  The music follows the toggle.  After [n] clicks on
    [#music-toggle], music is enabled exactly when [n] is odd; the main loop
    exists and the transport runs exactly when music is enabled;
    [Tone.start()] has been called once, at the first click; every loop that
    was created has been disposed, except the one that plays;
    [aria-pressed] says whether music is enabled.  This holds also when the
    icon or the text of the button is missing and the listener ends in a
    [TypeError], because the labels are written last.  With both present the
    button reads "Music On" or "Music Off" accordingly. *)
Theorem music_follows_the_toggle t n :
  let s := clicks n (engine t) in
  musicEnabled s = Nat.odd n
  /\ loops_main s = musicEnabled s
  /\ transport s = musicEnabled s
  /\ Tone_start s = Nat.min n 1
  /\ created s = disposed s + (if musicEnabled s then 1 else 0)
  /\ (0 < n -> aria_pressed (toggle s) = Some (if musicEnabled s then "true" else "false"))
  /\ (0 < n -> is_Some (icon t) -> is_Some (text t) ->
        text (toggle s) = Some (if musicEnabled s then "Music On" else "Music Off"))
  /\ loops_main (cleanup s) = false /\ transport (cleanup s) = false
  /\ created (cleanup s) = disposed (cleanup s).
Proof.
  cbv zeta.
  assert (in_tune n (clicks n (engine t))) as Hin.
  { induction n as [|n IH]; [repeat split; simpl; lia|].
    unfold clicks in *. rewrite Nat.iter_succ. apply in_tune_click, IH. }
  destruct Hin as (He & Hl & Ht & Ha & Hs & Hc & Hp).
  split; [exact He|]. split; [exact Hl|]. split; [exact Ht|]. split; [exact Hs|].
  split; [exact Hc|]. split; [exact Hp|].
  split.
  - intros Hn Hi Htx. destruct n as [|n]; [lia|]. clear He Hl Ht Ha Hs Hc Hp.
    assert (forall m, is_Some (icon (toggle (clicks m (engine t))))
                      /\ is_Some (text (toggle (clicks m (engine t))))) as Hkeep.
    { induction m as [|m [[ic Hic] [tx Htx']]]; [split; assumption|].
      unfold clicks in *. rewrite Nat.iter_succ.
      destruct (click_labels _ ic tx Hic Htx') as (s' & Hcl & Hi' & Ht' & _).
      rewrite Hcl. cbn [Js.state_of]. rewrite Hi', Ht'. eauto. }
    destruct (Hkeep n) as [[ic Hic] [tx Htx']].
    unfold clicks in *. rewrite Nat.iter_succ.
    destruct (click_labels _ ic tx Hic Htx') as (s' & Hcl & _ & Ht' & Hm').
    rewrite Hcl. cbn [Js.state_of]. rewrite Ht', Hm'.
    destruct (musicEnabled _); reflexivity.
  - unfold cleanup, stopMusic. simpl. rewrite Hc, Hl.
    destruct (musicEnabled _); repeat split; lia.
Qed.

Lemma music_follows_the_toggle_witness :
  let t := {| aria_pressed := None; icon := Some "🔇"; text := None |} in
  let s := clicks 3 (engine t) in
  musicEnabled s = true /\ transport s = true /\ Tone_start s = 1
  /\ aria_pressed (toggle s) = Some "true".
Proof.
  cbv zeta.
  destruct (music_follows_the_toggle
              {| aria_pressed := None; icon := Some "🔇"; text := None |} 3)
    as (H1 & _ & H3 & H4 & _ & H6 & _).
  split; [exact H1|]. split; [rewrite H3; exact H1|]. split; [exact H4|].
  rewrite (H6 ltac:(lia)), H1. reflexivity.
Defined.

End MusicFacts.

(** * The callers: [App.init] of part_000 and the second script of src/app.js *)

Module AppFacts.
Import Page AppInit.

(** X29.  [App.init()] reaches [setupTikTokEmbeds()] only when the four
    libraries were found and none of the seven calls before it threw:
    otherwise the page keeps its containers without objects and observers,
    although the embeds need none of the libraries.  In particular a
    rejected [waitForDependencies()] (the 10 s timeout) leaves the TikTok
    containers untouched.  On every path [loaderManager.complete()] is
    called: once, or twice when it is the call that threw.  The promise of
    [init()] is rejected exactly when [complete()] throws. *)
Theorem setupTikTokEmbeds_needs_every_module throws rejected env p :
  let ok := bool_decide (rejected = None)
            && forallb (fun c => negb (throws c)) before_setup in
  let r := init throws rejected env p in
  let w := Js.state_of r in
  page w = (if ok then Part000.setupTikTokEmbeds env p else p)
  /\ existsb is_SetupTikTokEmbeds (calls w) = ok
  /\ length (filter (fun c => is_LoaderComplete c) (calls w))
     = (if ok && throws LoaderComplete then 2 else 1)
  /\ ((exists err, r = Js.Thrown err w) <-> throws LoaderComplete = true).
Proof.
  cbv zeta. unfold init, try_block, before_setup.
  destruct rejected as [reason|];
    destruct (throws LoaderStart) eqn:H1; destruct (throws ThemeInit) eqn:H2;
    destruct (throws AudioInit) eqn:H3; destruct (throws ThreeInit) eqn:H4;
    destruct (throws CursorInit) eqn:H5; destruct (throws AnimationInit) eqn:H6;
    destruct (throws ChartInit) eqn:H7; destruct (throws LoaderComplete) eqn:H8;
    simpl; rewrite ?H1, ?H2, ?H3, ?H4, ?H5, ?H6, ?H7, ?H8; simpl;
    rewrite ?H1, ?H2, ?H3, ?H4, ?H5, ?H6, ?H7, ?H8; simpl;
    (split; [reflexivity|]); (split; [reflexivity|]); (split; [reflexivity|]);
    (split; [intros [err He]; first [discriminate He|reflexivity]
            |intros Ht; first [discriminate Ht|eexists; reflexivity]]).
Qed.

(** the timeout of [waitForDependencies()] keeps [App.init()] from the embeds *)
Lemma setupTikTokEmbeds_needs_every_module_witness :
  let deps := Dependency.run [Dependency.Tick ["gsap"]; Dependency.Timeout]
                Dependency.waitForDependencies in
  let w := Js.state_of (init (fun _ => false) (awaited deps)
                          {| Part000.SUPPORTS_INTERSECTION_OBSERVER := true;
                             Part000.PREFERS_REDUCED_MOTION := false |}
                          (Examples.page_of_url "https://www.tiktok.com/@a/video/123456")) in
  page w = Examples.page_of_url "https://www.tiktok.com/@a/video/123456"
  /\ calls w = [LoaderStart; ThemeInit; WaitForDependencies; ConsoleError; LoaderComplete].
Proof.
  cbv zeta.
  destruct (setupTikTokEmbeds_needs_every_module (fun _ => false)
              (awaited (Dependency.run [Dependency.Tick ["gsap"]; Dependency.Timeout]
                          Dependency.waitForDependencies))
              {| Part000.SUPPORTS_INTERSECTION_OBSERVER := true;
                 Part000.PREFERS_REDUCED_MOTION := false |}
              (Examples.page_of_url "https://www.tiktok.com/@a/video/123456"))
    as (H & _).
  split; [exact H|reflexivity].
Defined.

End AppFacts.

Module ScriptFacts.
Import Script.

(** X30.  The second script of src/app.js registers [initTikTok] last but
    one.  The theme is applied and the loader and scroll listeners are in
    place whatever the page holds, but the script dereferences
    [.progress-ring-progress], [.back-to-top], [#music-toggle] and
    [#volume-slider] on its way: when one of them is missing it stops
    there, the theme radios get no [change] listener, [initTikTok] is never
    registered, and the cards stay as they are.  With all four present the
    cards are what [initTikTok()] makes of them. *)
Theorem initTikTok_runs_only_on_a_complete_page els env p :
  let r := Js.state_of (script els) in
  let complete := ring els && backToTop els && musicBtn els && volSlider els in
  theme_applied r = true /\ loaderSim r = true /\ on_load r = true
  /\ initTikTok_registered r = complete
  /\ on_theme_change r = complete
  /\ cursor_listeners r = complete && customCursor els
  /\ ((exists err, script els = Thrown err r) <-> complete = false)
  /\ cards_after els env p
     = (if complete then Js.state_of (Cards.initTikTok env p) else p).
Proof.
  cbv zeta. unfold cards_after, script.
  destruct (ring els), (backToTop els), (musicBtn els), (volSlider els); simpl;
    repeat split; try reflexivity;
    solve [intros [err [=]] | intros [=] | intros _; eexists; reflexivity].
Qed.

End ScriptFacts.
